(** * Voice assistant orchestration layer: dispatcher, bridge, scheduler, meter

    A shallow embedding of [src/hooks/useLiveAPI.ts] (the React hook that owns
    the live session, the automation bridge and the tool dispatcher) and of
    [src/server/index.js] (the automation backend), with the properties of the
    orchestration layer proved about the embedding.  The two places where
    the components read the hook, [handleToggle] of [App] and [BrowserView],
    are embedded as well.

    JavaScript numbers are IEEE binary64 values: they are modelled by Rocq's
    primitive floats, whose operations are specified by [SpecFloat].  The
    single-threaded event loop is modelled by a deterministic step function
    over time-stamped events; timers live in an explicit queue. *)

From Stdlib Require Import ZArith List Ascii String Floats Bool Lia.
From stdpp Require Import gmap strings.

Set Warnings "-register-all".
Open Scope Z_scope.

(* ===================================================================== *)
(** * JavaScript numbers *)
(* ===================================================================== *)

Module JSNum.

(** [sf_signed s f]: [f] is not NaN and carries the sign bit [s]. *)
Definition sf_signed (s : bool) (f : spec_float) : bool :=
  match f with
  | S754_zero s' | S754_infinity s' | S754_finite s' _ _ => Bool.eqb s s'
  | S754_nan => false
  end.

(** A double that is neither NaN nor negative (nor [-0]). *)
Definition nonneg (x : float) : bool := sf_signed false (Prim2SF x).

(** A double that is not NaN. *)
Definition is_number (x : float) : bool := negb (is_nan x).

(** [Math.min(a, b)]: NaN if either argument is NaN; [-0] counts as smaller
    than [+0]. *)
Definition Math_min (a b : float) : float :=
  if is_nan a || is_nan b then nan
  else if (a <? b)%float then a
  else if (b <? a)%float then b
  else if get_sign a then a else b.

(** [Math.max(a, b)]: NaN if either argument is NaN; [+0] counts as larger
    than [-0]. *)
Definition Math_max (a b : float) : float :=
  if is_nan a || is_nan b then nan
  else if (a <? b)%float then b
  else if (b <? a)%float then a
  else if get_sign a then b else a.

(** The number value of a non-negative integer such as [array.length]. *)
Definition of_nat (n : nat) : float := of_uint63 (Uint63.of_Z (Z.of_nat n)).

End JSNum.

(* ===================================================================== *)
(** * JavaScript values *)
(* ===================================================================== *)

Module JS.

(** JSON-like values.  An object is the list of its own properties, whose
    keys are pairwise distinct, in insertion order. *)
Inductive value :=
| JUndef
| JNull
| JBool (b : bool)
| JNum (x : float)
| JStr (s : string)
| JArr (items : list value)
| JObj (fields : list (string * value)).

(** ToBoolean. *)
Definition truthy (v : value) : bool :=
  match v with
  | JUndef | JNull => false
  | JBool b => b
  | JNum x => negb (is_zero x || is_nan x)
  | JStr s => negb (String.eqb s "")
  | JArr _ | JObj _ => true
  end.

Fixpoint lookup_field (k : string) (fs : list (string * value)) : value :=
  match fs with
  | [] => JUndef
  | (k', v) :: rest => if String.eqb k k' then v else lookup_field k rest
  end.

(** Property read [v.k] for the data keys used by the program.  [None] is
    the TypeError raised when [v] is [undefined] or [null]; a primitive or an
    array has none of these keys. *)
Definition get (v : value) (k : string) : option value :=
  match v with
  | JUndef | JNull => None
  | JObj fs => Some (lookup_field k fs)
  | _ => Some JUndef
  end.

(** [v.k] where [v] is already known not to be [undefined]/[null]. *)
Definition field (v : value) (k : string) : value :=
  match get v k with Some r => r | None => JUndef end.

(** [v === 'lit'] *)
Definition is_str (v : value) (lit : string) : bool :=
  match v with JStr s => String.eqb s lit | _ => false end.

(** [a || b] *)
Definition or_else (a b : value) : value := if truthy a then a else b.

(** [s.split(',')] *)
Fixpoint split_comma_from (cur : string) (s : string) : list string :=
  match s with
  | EmptyString => [cur]
  | String c rest =>
      if Ascii.eqb c ","%char then cur :: split_comma_from "" rest
      else split_comma_from (cur +:+ String c "") rest
  end.

Definition split_comma (s : string) : list string := split_comma_from "" s.

(** [s.includes(sub)] *)
Fixpoint includes (sub s : string) : bool :=
  String.prefix sub s
  || match s with
     | EmptyString => false
     | String _ rest => includes sub rest
     end.

(** What [JSON.parse(JSON.stringify(v))] yields: properties holding
    [undefined] are dropped, [undefined] inside an array and non-finite
    numbers become [null], [-0] becomes [0]. *)
Fixpoint wire (v : value) : value :=
  match v with
  | JNum x => if is_finite x then (if is_zero x then JNum 0 else JNum x) else JNull
  | JArr items =>
      JArr (map (fun x => match x with JUndef => JNull | _ => wire x end) items)
  | JObj fields =>
      JObj (fold_right
              (fun kv acc =>
                 match kv with
                 | (_, JUndef) => acc
                 | (k, x) => (k, wire x) :: acc
                 end) [] fields)
  | _ => v
  end.

(** Template-literal interpolation [`${v}`].  The string conversion of a
    non-string value is a parameter of the development. *)
Definition template (ToString : value -> string) (v : value) : string :=
  match v with JStr s => s | _ => ToString v end.

End JS.

(* ===================================================================== *)
(** * The automation backend ([src/server/index.js]) *)
(* ===================================================================== *)

Module Server.
Import JS.

Section Backend.

(** String conversion of non-string values inside template literals. *)
Variable ToString : value -> string.

(** What the headless page shows; the markup produced by [TEMPLATES] is
    represented by the template chosen and the data handed to it. *)
Inductive View :=
| ViewDashboard
| ViewCalendar (events : list value)
| ViewEmail (emails : list value).

Record State := {
  currentEvents : list value;
  currentEmails : list value;
  page : View
}.

Definition event (id title time : string) (attendees : list string) : value :=
  JObj [("id", JStr id); ("title", JStr title); ("time", JStr time);
        ("attendees", JArr (map JStr attendees))].

Definition email (id from subject preview time : string) (read : bool) : value :=
  JObj [("id", JStr id); ("from", JStr from); ("subject", JStr subject);
        ("preview", JStr preview); ("time", JStr time); ("read", JBool read)].

(** The initial data and the dashboard the page starts at. *)
Definition initial : State :=
  {| currentEvents :=
       [event "1" "Team Sync" "10:00 AM" ["Alice"; "Bob"];
        event "2" "Lunch with Sarah" "12:30 PM" ["Sarah"]];
     currentEmails :=
       [email "1" "Boss" "Project Update" "Can we sync later today?" "9:05 AM" false;
        email "2" "Newsletter" "Weekly Digest" "Top stories in tech this week..." "8:00 AM" true];
     page := ViewDashboard |}.

(** The handler of one inbound message is an [async] function: it runs in
    segments separated by its [await]s.  A [Task] is a suspended handler. *)
Inductive Task :=
| AwaitCalendar (requestId : value) (view : View)
| AwaitEmail (requestId : value) (view : View)
| AwaitBooked (requestId : value) (newEvent : value) (view : View)
| AwaitDelay
| AwaitScreenshot.

(** A segment threads the backend state and the messages written to the
    socket; [None] as result is a thrown exception, which the handler's
    [try]/[catch] swallows after the effects already performed. *)
Definition M (A : Type) : Type := State * list value -> option A * (State * list value).

Definition ret {A} (a : A) : M A := fun s => (Some a, s).
Definition throw {A} : M A := fun s => (None, s).
Definition bind {A B} (m : M A) (f : A -> M B) : M B :=
  fun s => match m s with
           | (Some a, s') => f a s'
           | (None, s') => (None, s')
           end.
Definition lift {A} (o : option A) : M A :=
  match o with Some a => ret a | None => throw end.

Notation "'let*' x ':=' m 'in' k" := (bind m (fun x => k))
  (at level 10, x name, m at level 100, k at level 200).
Notation "'run' m 'then' k" := (bind m (fun _ => k))
  (at level 10, m at level 100, k at level 200).

(** [ws.send(JSON.stringify(v))] *)
Definition send (v : value) : M unit :=
  fun '(st, out) => (Some tt, (st, out ++ [wire v])).

Definition getEvents : M (list value) := fun '(st, out) => (Some (currentEvents st), (st, out)).
Definition getEmails : M (list value) := fun '(st, out) => (Some (currentEmails st), (st, out)).

(** [currentEvents.push(e)] *)
Definition pushEvent (e : value) : M unit :=
  fun '(st, out) =>
    (Some tt, ({| currentEvents := currentEvents st ++ [e];
                  currentEmails := currentEmails st;
                  page := page st |}, out)).

Definition setPage (v : View) : M unit :=
  fun '(st, out) =>
    (Some tt, ({| currentEvents := currentEvents st;
                  currentEmails := currentEmails st;
                  page := v |}, out)).

(** The common tail of the action branch: reply when the request carries an
    id, then wait 100 ms before the screenshot. *)
Definition reply (requestId toolResult : value) : M Task :=
  run (if truthy requestId
   then send (JObj [("type", JStr "tool_result"); ("id", requestId);
                    ("result", toolResult)])
   else ret tt) then
  ret AwaitDelay.

Definition success : value := JObj [("status", JStr "success")].

(** The [attendees] property of a new event. *)
Definition attendeesOf (a : value) : option value :=
  if truthy a then
    match a with
    | JStr s => Some (JArr (map JStr (split_comma s)))
    | _ => None                           (* no [split] method: TypeError *)
    end
  else Some (JArr [JStr "You"]).

(** First segment of [ws.on('message')]: from [JSON.parse] to the first
    [await].  [dateNow] is [Date.now().toString()]. *)
Definition on_message (dateNow : string) (message : option value) : M (option Task) :=
  let* data := lift message in
  let* ty := lift (get data "type") in
  if is_str ty "action" then
    let requestId := field data "id" in
    let tool := field data "tool" in
    if is_str tool "openCalendar" || is_str tool "checkAvailability" then
      let* events := getEvents in
      ret (Some (AwaitCalendar requestId (ViewCalendar events)))
    else if is_str tool "openEmail" then
      let* emails := getEmails in
      ret (Some (AwaitEmail requestId (ViewEmail emails)))
    else if is_str tool "bookMeeting" then
      let args := field data "args" in
      let* title := lift (get args "title") in
      let* time := lift (get args "time") in
      let* attendees0 := lift (get args "attendees") in
      let* attendees := lift (attendeesOf attendees0) in
      let newEvent :=
        JObj [("id", JStr dateNow);
              ("title", or_else title (JStr "New Meeting"));
              ("time", or_else time (JStr "Next Hour"));
              ("attendees", attendees)] in
      run pushEvent newEvent then
      let* events := getEvents in
      ret (Some (AwaitBooked requestId newEvent (ViewCalendar events)))
    else if is_str tool "sendEmail" then
      let* to := lift (get (field data "args") "to") in
      let toolResult := JObj [("status", JStr "success"); ("sentTo", to)] in
      run send (JObj [("type", JStr "log");
                  ("message", JStr ("Email sent to " +:+ template ToString to))]) then
      let* t := reply requestId toolResult in
      ret (Some t)
    else
      let* t := reply requestId success in
      ret (Some t)
  else ret None.

(** The segment after an [await]: [ok] tells whether the awaited
    [page.setContent] resolved; [socketOpen] is [ws.readyState === ws.OPEN]
    when [sendScreenshot] is entered; [shot] is the outcome of
    [page.screenshot] ([None] when it rejects). *)
Definition resume (ok socketOpen : bool) (shot : option string) (t : Task) : M (option Task) :=
  match t with
  | AwaitCalendar requestId view =>
      if ok then
        run setPage view then
        run send (JObj [("type", JStr "url_change"); ("url", JStr "https://calendar.agent/view")]) then
        let* events := getEvents in
        let* t' := reply requestId (JObj [("events", JArr events)]) in
        ret (Some t')
      else throw
  | AwaitEmail requestId view =>
      if ok then
        run setPage view then
        run send (JObj [("type", JStr "url_change"); ("url", JStr "https://mail.agent/inbox")]) then
        let* emails := getEmails in
        let* t' := reply requestId (JObj [("emails", JArr emails)]) in
        ret (Some t')
      else throw
  | AwaitBooked requestId newEvent view =>
      if ok then
        run setPage view then
        let toolResult := JObj [("status", JStr "success"); ("bookedEvent", newEvent)] in
        run send (JObj [("type", JStr "log");
                    ("message",
                     JStr ("Booked meeting: " +:+ template ToString (field newEvent "title")))]) then
        let* t' := reply requestId toolResult in
        ret (Some t')
      else throw
  | AwaitDelay =>
      if socketOpen then ret (Some AwaitScreenshot) else ret None
  | AwaitScreenshot =>
      match shot with
      | Some data =>
          run send (JObj [("type", JStr "screenshot"); ("data", JStr data)]) then
          ret None
      | None => ret None                   (* caught inside sendScreenshot *)
      end
  end.

(** Run a suspended handler to its end when every [await] resolves in turn
    and nothing else is interleaved. *)
Fixpoint finish (fuel : nat) (shot : option string) (t : option Task) : M unit :=
  match fuel, t with
  | S fuel', Some task =>
      let* t' := resume true true shot task in
      finish fuel' shot t'
  | _, _ => ret tt
  end.

(** One inbound message handled from start to end on a healthy page: the
    new state and the messages sent, in order.  A handler has at most three
    [await]s. *)
Definition handle (dateNow : string) (shot : option string)
    (message : option value) (st : State) : State * list value :=
  snd ((let* t := on_message dateNow message in finish 3 shot t) (st, [])).

End Backend.
End Server.

(* ===================================================================== *)
(** * The hook ([src/hooks/useLiveAPI.ts]) *)
(* ===================================================================== *)

Module Hook.
Import JS JSNum.

(** ** Data *)

Inductive LogType := info | success | error | tool.

Record LogEntry := { timestamp : Z; message : string; type : LogType }.

Record BrowserState := {
  isConnected : bool;
  url : value;
  page : string;
  isLoading : bool;
  screenshot : value;
  calendarEvents : list value;
  emails : list value
}.

Inductive ReadyState := CONNECTING | OPEN | CLOSING | CLOSED.

(** One entry of [message.toolCall.functionCalls]. *)
Record FunctionCall := { fc_id : value; fc_name : string; fc_args : value }.

Inductive ToolCallField :=
| NoToolCall                                  (* [message.toolCall] is absent *)
| NoFunctionCalls                             (* present, without [functionCalls] *)
| FunctionCalls (calls : list FunctionCall).

(** [message.serverContent?.modelTurn?.parts[0]?.inlineData?.data] *)
Inductive AudioField :=
| NoAudio                                     (* the chain yields [undefined] *)
| NoParts                                     (* [modelTurn] without [parts]: TypeError *)
| InlineData (base64 : string).

Record LiveServerMessage := { toolCall : ToolCallField; audio : AudioField }.



(** What the hook hands to the live session. *)
Inductive SessionSend :=
| ToolResponse (id : value) (name : string) (result : value)
| RealtimeInput (frame : list float).

(** The code waiting on a promise. *)
Inductive Kont :=
| KToolLoop (fc : FunctionCall) (rest : list FunctionCall) (audio : AudioField)
    (* [await executeTool(fc.name, fc.args)] inside the loop of [onmessage] *)
| KDecode                                     (* [await decodeAudioData(...)] *)
| KUserMedia.                                 (* [await getUserMedia(...)] *)

Inductive TimerAction :=
| TReconnect                                  (* [connectToBrowser] *)
| TTimeout (requestId : string) (promise : nat) (* the safety timeout of a request *)
| TSimulate (name : string) (args : value) (promise : nat). (* the simulated delay *)

Record Timer := { tid : nat; due : Z; action : TimerAction }.

(** Outcome of [getUserMedia]: a stream, or an exception with its [name] and
    its [message] (a string when present). *)
Inductive MediaOutcome :=
| MediaGranted
| MediaError (name : string) (message : option string).

(** React state of the hook. *)
Record UI := {
  connected : bool;
  volume : float;
  logs : list LogEntry;
  browserState : BrowserState
}.

(** The audio refs: capture side and playback timeline. *)
Record Audio := {
  mediaStream : bool;                          (* [mediaStreamRef.current] is set *)
  inputCtx : bool;                             (* [inputAudioContextRef.current] is set *)
  outputCtx : bool;                            (* [outputAudioContextRef.current] is set *)
  processor : bool;                            (* the script processor is wired *)
  currentTime : float;                         (* the output context's clock *)
  nextStartTime : float;                       (* [nextStartTimeRef.current] *)
  sources : gset nat;                          (* [sourcesRef.current] *)
  nextSource : nat;
  started : list (nat * float * float)         (* every [source.start(when)]: source, when, duration *)
}.

(** The bridge refs. *)
Record Bridge := {
  sockets : gmap nat ReadyState;               (* every WebSocket created so far *)
  attempts : nat;                              (* calls of [new WebSocket] so far *)
  browserWs : option nat;                      (* [browserWsRef.current] *)
  reconnectTimeout : option nat;               (* [reconnectTimeoutRef.current] *)
  pendingRequests : gmap string nat;           (* id -> resolve function of a promise *)
  bridgeOut : list (nat * value)               (* every [ws.send]: socket, JSON text *)
}.

(** The event loop and the promises. *)
Record Loop := {
  now : Z;                                     (* wall clock, in milliseconds *)
  timers : list Timer;                         (* live timers *)
  nextTimer : nat;
  promises : gmap nat Kont;                    (* pending promises and their awaiting code *)
  nextPromise : nat;
  randCalls : nat;                             (* calls of [Math.random] so far *)
  settling : list (nat * value);               (* resolutions whose awaiting code has not run yet *)
  resolved : list (nat * value);               (* every call of a resolve function, in order *)
  dispatched : list (nat * string * Z);        (* bridge dispatches: promise, request id, time *)
  session : bool;                              (* [sessionPromiseRef.current] is set *)
  sessionOut : list SessionSend
}.

Record State := { ui : UI; audio_ : Audio; bridge : Bridge; loop : Loop }.

(** ** Field updates *)

Definition on_ui (f : UI -> UI) (st : State) : State :=
  {| ui := f (ui st); audio_ := audio_ st; bridge := bridge st; loop := loop st |}.
Definition on_audio (f : Audio -> Audio) (st : State) : State :=
  {| ui := ui st; audio_ := f (audio_ st); bridge := bridge st; loop := loop st |}.
Definition on_bridge (f : Bridge -> Bridge) (st : State) : State :=
  {| ui := ui st; audio_ := audio_ st; bridge := f (bridge st); loop := loop st |}.
Definition on_loop (f : Loop -> Loop) (st : State) : State :=
  {| ui := ui st; audio_ := audio_ st; bridge := bridge st; loop := f (loop st) |}.

Definition set_connected v (u : UI) : UI :=
  {| connected := v; volume := volume u; logs := logs u; browserState := browserState u |}.
Definition set_volume v (u : UI) : UI :=
  {| connected := connected u; volume := v; logs := logs u; browserState := browserState u |}.
Definition set_logs v (u : UI) : UI :=
  {| connected := connected u; volume := volume u; logs := v; browserState := browserState u |}.
Definition set_browserState v (u : UI) : UI :=
  {| connected := connected u; volume := volume u; logs := logs u; browserState := v |}.

Definition set_isConnected v (b : BrowserState) : BrowserState :=
  {| isConnected := v; url := url b; page := page b; isLoading := isLoading b;
     screenshot := screenshot b; calendarEvents := calendarEvents b; emails := emails b |}.
Definition set_url v (b : BrowserState) : BrowserState :=
  {| isConnected := isConnected b; url := v; page := page b; isLoading := isLoading b;
     screenshot := screenshot b; calendarEvents := calendarEvents b; emails := emails b |}.
Definition set_page v (b : BrowserState) : BrowserState :=
  {| isConnected := isConnected b; url := url b; page := v; isLoading := isLoading b;
     screenshot := screenshot b; calendarEvents := calendarEvents b; emails := emails b |}.
Definition set_isLoading v (b : BrowserState) : BrowserState :=
  {| isConnected := isConnected b; url := url b; page := page b; isLoading := v;
     screenshot := screenshot b; calendarEvents := calendarEvents b; emails := emails b |}.
Definition set_screenshot v (b : BrowserState) : BrowserState :=
  {| isConnected := isConnected b; url := url b; page := page b; isLoading := isLoading b;
     screenshot := v; calendarEvents := calendarEvents b; emails := emails b |}.

Definition set_mediaStream v (a : Audio) : Audio :=
  {| mediaStream := v; inputCtx := inputCtx a; outputCtx := outputCtx a;
     processor := processor a; currentTime := currentTime a;
     nextStartTime := nextStartTime a; sources := sources a;
     nextSource := nextSource a; started := started a |}.
Definition set_contexts (a : Audio) : Audio :=
  {| mediaStream := mediaStream a; inputCtx := true; outputCtx := true;
     processor := processor a; currentTime := 0%float;
     nextStartTime := nextStartTime a; sources := sources a;
     nextSource := nextSource a; started := started a |}.
Definition set_processor v (a : Audio) : Audio :=
  {| mediaStream := mediaStream a; inputCtx := inputCtx a; outputCtx := outputCtx a;
     processor := v; currentTime := currentTime a;
     nextStartTime := nextStartTime a; sources := sources a;
     nextSource := nextSource a; started := started a |}.
Definition set_currentTime v (a : Audio) : Audio :=
  {| mediaStream := mediaStream a; inputCtx := inputCtx a; outputCtx := outputCtx a;
     processor := processor a; currentTime := v;
     nextStartTime := nextStartTime a; sources := sources a;
     nextSource := nextSource a; started := started a |}.
Definition set_nextStartTime v (a : Audio) : Audio :=
  {| mediaStream := mediaStream a; inputCtx := inputCtx a; outputCtx := outputCtx a;
     processor := processor a; currentTime := currentTime a;
     nextStartTime := v; sources := sources a;
     nextSource := nextSource a; started := started a |}.
Definition set_sources v (a : Audio) : Audio :=
  {| mediaStream := mediaStream a; inputCtx := inputCtx a; outputCtx := outputCtx a;
     processor := processor a; currentTime := currentTime a;
     nextStartTime := nextStartTime a; sources := v;
     nextSource := nextSource a; started := started a |}.

Definition set_sockets v (b : Bridge) : Bridge :=
  {| sockets := v; attempts := attempts b; browserWs := browserWs b;
     reconnectTimeout := reconnectTimeout b; pendingRequests := pendingRequests b;
     bridgeOut := bridgeOut b |}.
Definition set_attempts v (b : Bridge) : Bridge :=
  {| sockets := sockets b; attempts := v; browserWs := browserWs b;
     reconnectTimeout := reconnectTimeout b; pendingRequests := pendingRequests b;
     bridgeOut := bridgeOut b |}.
Definition set_browserWs v (b : Bridge) : Bridge :=
  {| sockets := sockets b; attempts := attempts b; browserWs := v;
     reconnectTimeout := reconnectTimeout b; pendingRequests := pendingRequests b;
     bridgeOut := bridgeOut b |}.
Definition set_reconnectTimeout v (b : Bridge) : Bridge :=
  {| sockets := sockets b; attempts := attempts b; browserWs := browserWs b;
     reconnectTimeout := v; pendingRequests := pendingRequests b;
     bridgeOut := bridgeOut b |}.
Definition set_pendingRequests v (b : Bridge) : Bridge :=
  {| sockets := sockets b; attempts := attempts b; browserWs := browserWs b;
     reconnectTimeout := reconnectTimeout b; pendingRequests := v;
     bridgeOut := bridgeOut b |}.
Definition set_bridgeOut v (b : Bridge) : Bridge :=
  {| sockets := sockets b; attempts := attempts b; browserWs := browserWs b;
     reconnectTimeout := reconnectTimeout b; pendingRequests := pendingRequests b;
     bridgeOut := v |}.

Definition set_now v (l : Loop) : Loop :=
  {| now := v; timers := timers l; nextTimer := nextTimer l; promises := promises l;
     nextPromise := nextPromise l; randCalls := randCalls l; settling := settling l;
     resolved := resolved l; dispatched := dispatched l; session := session l;
     sessionOut := sessionOut l |}.
Definition set_timers v (l : Loop) : Loop :=
  {| now := now l; timers := v; nextTimer := nextTimer l; promises := promises l;
     nextPromise := nextPromise l; randCalls := randCalls l; settling := settling l;
     resolved := resolved l; dispatched := dispatched l; session := session l;
     sessionOut := sessionOut l |}.
Definition set_nextTimer v (l : Loop) : Loop :=
  {| now := now l; timers := timers l; nextTimer := v; promises := promises l;
     nextPromise := nextPromise l; randCalls := randCalls l; settling := settling l;
     resolved := resolved l; dispatched := dispatched l; session := session l;
     sessionOut := sessionOut l |}.
Definition set_promises v (l : Loop) : Loop :=
  {| now := now l; timers := timers l; nextTimer := nextTimer l; promises := v;
     nextPromise := nextPromise l; randCalls := randCalls l; settling := settling l;
     resolved := resolved l; dispatched := dispatched l; session := session l;
     sessionOut := sessionOut l |}.
Definition set_nextPromise v (l : Loop) : Loop :=
  {| now := now l; timers := timers l; nextTimer := nextTimer l; promises := promises l;
     nextPromise := v; randCalls := randCalls l; settling := settling l;
     resolved := resolved l; dispatched := dispatched l; session := session l;
     sessionOut := sessionOut l |}.
Definition set_randCalls v (l : Loop) : Loop :=
  {| now := now l; timers := timers l; nextTimer := nextTimer l; promises := promises l;
     nextPromise := nextPromise l; randCalls := v; settling := settling l;
     resolved := resolved l; dispatched := dispatched l; session := session l;
     sessionOut := sessionOut l |}.
Definition set_settling v (l : Loop) : Loop :=
  {| now := now l; timers := timers l; nextTimer := nextTimer l; promises := promises l;
     nextPromise := nextPromise l; randCalls := randCalls l; settling := v;
     resolved := resolved l; dispatched := dispatched l; session := session l;
     sessionOut := sessionOut l |}.
Definition set_resolved v (l : Loop) : Loop :=
  {| now := now l; timers := timers l; nextTimer := nextTimer l; promises := promises l;
     nextPromise := nextPromise l; randCalls := randCalls l; settling := settling l;
     resolved := v; dispatched := dispatched l; session := session l;
     sessionOut := sessionOut l |}.
Definition set_dispatched v (l : Loop) : Loop :=
  {| now := now l; timers := timers l; nextTimer := nextTimer l; promises := promises l;
     nextPromise := nextPromise l; randCalls := randCalls l; settling := settling l;
     resolved := resolved l; dispatched := v; session := session l;
     sessionOut := sessionOut l |}.
Definition set_session v (l : Loop) : Loop :=
  {| now := now l; timers := timers l; nextTimer := nextTimer l; promises := promises l;
     nextPromise := nextPromise l; randCalls := randCalls l; settling := settling l;
     resolved := resolved l; dispatched := dispatched l; session := v;
     sessionOut := sessionOut l |}.
Definition set_sessionOut v (l : Loop) : Loop :=
  {| now := now l; timers := timers l; nextTimer := nextTimer l; promises := promises l;
     nextPromise := nextPromise l; randCalls := randCalls l; settling := settling l;
     resolved := resolved l; dispatched := dispatched l; session := session l;
     sessionOut := v |}.

Definition set_started v (a : Audio) : Audio :=
  {| mediaStream := mediaStream a; inputCtx := inputCtx a; outputCtx := outputCtx a;
     processor := processor a; currentTime := currentTime a;
     nextStartTime := nextStartTime a; sources := sources a;
     nextSource := nextSource a; started := v |}.
Definition set_nextSource v (a : Audio) : Audio :=
  {| mediaStream := mediaStream a; inputCtx := inputCtx a; outputCtx := outputCtx a;
     processor := processor a; currentTime := currentTime a;
     nextStartTime := nextStartTime a; sources := sources a;
     nextSource := v; started := started a |}.

Section UseLiveAPI.

(** String conversion of non-string values inside template literals. *)
Variable ToString : value -> string.

(** [Math.random().toString(36).substring(7)] at the n-th call of
    [Math.random]: a short string of base-36 digits, possibly empty. *)
Variable mathRandomId : nat -> string.

(** Whether the n-th [new WebSocket(PUPPETEER_WS_URL)] throws. *)
Variable webSocketThrows : nat -> bool.

(** ** React state setters and timers *)

(** [prev.slice(-4)] *)
Definition slice_last4 {A} (prev : list A) : list A :=
  skipn (length prev - 4) prev.

Definition addLog (message : string) (type : LogType) (st : State) : State :=
  on_ui (fun u =>
    set_logs (slice_last4 (logs u)
              ++ [{| timestamp := now (loop st); message := message; type := type |}]) u) st.

Definition setBrowserState (f : BrowserState -> BrowserState) (st : State) : State :=
  on_ui (fun u => set_browserState (f (browserState u)) u) st.

Definition setConnected (v : bool) (st : State) : State := on_ui (set_connected v) st.

Definition setVolume (v : float) (st : State) : State := on_ui (set_volume v) st.

(** [setTimeout(action, delay)]: the new timer's id and the new state. *)
Definition setTimeout (action : TimerAction) (delay : Z) (st : State) : nat * State :=
  let id := nextTimer (loop st) in
  (id, on_loop (fun l =>
         set_nextTimer (S id)
           (set_timers (timers l ++ [{| tid := id; due := now l + delay; action := action |}]) l))
         st).

Definition clearTimeout (id : nat) (st : State) : State :=
  on_loop (fun l => set_timers (List.filter (fun tm => negb (Nat.eqb (tid tm) id)) (timers l)) l) st.

(** ** Promises *)

(** A new pending promise with the code that awaits it. *)
Definition newPromise (k : Kont) (st : State) : nat * State :=
  let p := nextPromise (loop st) in
  (p, on_loop (fun l => set_nextPromise (S p) (set_promises (<[p := k]> (promises l)) l)) st).

(** A call of the resolve function of promise [p]. *)
Definition resolve (p : nat) (v : value) (st : State) : State :=
  on_loop (fun l =>
    set_settling (settling l ++ [(p, v)]) (set_resolved (resolved l ++ [(p, v)]) l)) st.

(** The promise leaves the table of pending promises: it is settled, or it
    is rejected and the code awaiting it is abandoned. *)
Definition unregister (p : nat) (st : State) : State :=
  on_loop (fun l => set_promises (delete p (promises l)) l) st.

(** ** The automation bridge *)

Definition connectToBrowser (st : State) : State :=
  let n := attempts (bridge st) in
  let st := on_bridge (set_attempts (S n)) st in
  if webSocketThrows n then
    let '(id, st) := setTimeout TReconnect 3000 st in
    on_bridge (set_reconnectTimeout (Some id)) st
  else
    on_bridge (fun b => set_browserWs (Some n) (set_sockets (<[n := CONNECTING]> (sockets b)) b)) st.

Definition ws_onopen (st : State) : State :=
  let st := setBrowserState (set_isConnected true) st in
  let st := addLog "Connected to Browser Engine" success st in
  match reconnectTimeout (bridge st) with
  | Some id => if Nat.eqb id 0 then st else clearTimeout id st
  | None => st
  end.

Definition ws_onclose (st : State) : State :=
  let st := setBrowserState (set_isConnected false) st in
  let '(id, st) := setTimeout TReconnect 3000 st in
  on_bridge (set_reconnectTimeout (Some id)) st.

(** [pendingRequestsRef.current.get(id)]: only a string can be a key. *)
Definition pending_get (id : value) (st : State) : option nat :=
  match id with
  | JStr s => pendingRequests (bridge st) !! s
  | _ => None
  end.

Definition pending_delete (id : value) (st : State) : State :=
  match id with
  | JStr s => on_bridge (fun b => set_pendingRequests (delete s (pendingRequests b)) b) st
  | _ => st
  end.

(** [ws.onmessage]; [None] is a payload that [JSON.parse] rejects. *)
Definition ws_onmessage (payload : option value) (st : State) : State :=
  match payload with
  | None => st
  | Some data =>
      match get data "type" with
      | None => st
      | Some ty =>
          if is_str ty "screenshot" then
            setBrowserState (fun b => set_isLoading false (set_screenshot (field data "data") b)) st
          else if is_str ty "url_change" then
            setBrowserState (set_url (field data "url")) st
          else if is_str ty "log" then
            addLog ("Browser: " +:+ template ToString (field data "message")) info st
          else if is_str ty "tool_result" && truthy (field data "id") then
            match pending_get (field data "id") st with
            | Some p => pending_delete (field data "id") (resolve p (field data "result") st)
            | None => st
            end
          else st
      end
  end.

(** ** The tool dispatcher *)

(** [browserWsRef.current && browserWsRef.current.readyState === WebSocket.OPEN] *)
Definition openSocket (st : State) : option nat :=
  match browserWs (bridge st) with
  | Some s => match sockets (bridge st) !! s with
              | Some OPEN => Some s
              | _ => None
              end
  | None => None
  end.

Definition timedOut : value :=
  JObj [("status", JStr "error"); ("message", JStr "Browser timed out")].

Definition toolNotFound : value :=
  JObj [("status", JStr "error"); ("message", JStr "Tool not found")].

Definition actionRequest (requestId name : string) (args : value) : value :=
  JObj [("type", JStr "action"); ("id", JStr requestId); ("tool", JStr name); ("args", args)].

(** [executeTool] up to the point where it waits: the promise it returns is
    awaited by [k]. *)
Definition executeTool (name : string) (args : value) (k : Kont) (st : State) : State :=
  let st := addLog ("Executing: " +:+ name) tool st in
  let st := setBrowserState (set_isLoading true) st in
  match openSocket st with
  | Some s =>
      let requestId := mathRandomId (randCalls (loop st)) in
      let st := on_loop (fun l => set_randCalls (S (randCalls l)) l) st in
      let '(p, st) := newPromise k st in
      let st := on_bridge (fun b =>
                  set_pendingRequests (<[requestId := p]> (pendingRequests b)) b) st in
      let st := on_bridge (fun b =>
                  set_bridgeOut (bridgeOut b ++ [(s, wire (actionRequest requestId name args))]) b) st in
      let st := on_loop (fun l =>
                  set_dispatched (dispatched l ++ [(p, requestId, now l)]) l) st in
      snd (setTimeout (TTimeout requestId p) 5000 st)
  | None =>
      let '(p, st) := newPromise k st in
      snd (setTimeout (TSimulate name args p) 800 st)
  end.

(** The safety timeout of a bridge request. *)
Definition onTimeout (requestId : string) (p : nat) (st : State) : State :=
  match pendingRequests (bridge st) !! requestId with
  | Some _ =>
      let st := on_bridge (fun b =>
                  set_pendingRequests (delete requestId (pendingRequests b)) b) st in
      let st := resolve p timedOut st in
      setBrowserState (set_isLoading false) st
  | None => st
  end.

Definition simEvent (title : string) : value :=
  JObj [("id", JStr "1"); ("title", JStr title); ("time", JStr "10:00 AM");
        ("attendees", JArr [JStr "Alice"; JStr "Bob"])].

Definition simEmail : value :=
  JObj [("id", JStr "1"); ("from", JStr "Boss"); ("subject", JStr "Simulated Email");
        ("preview", JStr "This is a fake email."); ("time", JStr "9:00 AM");
        ("read", JBool false)].

Definition navigate (page url : string) (b : BrowserState) : BrowserState :=
  set_isLoading false (set_url (JStr url) (set_page page b)).

(** The fallback simulation, after its delay: the [switch] of [executeTool].
    The result is [None] when reading a property of [args] throws. *)
Definition simulate (name : string) (args : value) (st : State) : State * option value :=
  if String.eqb name "openCalendar" then
    (setBrowserState (navigate "calendar" "https://calendar.agent/view") st,
     Some (JObj [("events", JArr [simEvent "Team Sync (Simulated)"])]))
  else if String.eqb name "openEmail" then
    (setBrowserState (navigate "email" "https://mail.agent/inbox") st,
     Some (JObj [("emails", JArr [simEmail])]))
  else if String.eqb name "checkAvailability" then
    (setBrowserState (navigate "calendar" "https://calendar.agent/view") st,
     Some (JObj [("events", JArr [simEvent "Team Sync"])]))
  else if String.eqb name "bookMeeting" then
    match get args "title" with
    | Some title =>
        (addLog ("Booked: " +:+ template ToString title) success st,
         Some (JObj [("status", JStr "success"); ("booked", title)]))
    | None => (st, None)
    end
  else if String.eqb name "sendEmail" then
    let st := setBrowserState (navigate "email" "https://mail.agent/sent") st in
    match get args "to" with
    | Some to =>
        (addLog ("Sent email to " +:+ template ToString to) success st,
         Some (JObj [("status", JStr "success"); ("sentTo", to)]))
    | None => (st, None)
    end
  else
    (setBrowserState (set_isLoading false) st, Some toolNotFound).

Definition onSimulate (name : string) (args : value) (p : nat) (st : State) : State :=
  match simulate name args st with
  | (st, Some result) => resolve p result st
  | (st, None) => unregister p st
  end.

(** ** The playback scheduler *)

(** Lines 312-314 of [onmessage]: with a payload and an output context, move
    the cursor up to the output clock, then wait for the decoder. *)
Definition enqueue_begin (st : State) : State :=
  let st := on_audio (fun a =>
              set_nextStartTime (Math_max (nextStartTime a) (currentTime a)) a) st in
  snd (newPromise KDecode st).

(** Lines 323-333: the decoded buffer, of the given duration, is started at
    the cursor, and the cursor moves past it. *)
Definition enqueue_finish (duration : float) (st : State) : State :=
  on_audio (fun a =>
    let source := nextSource a in
    set_sources ({[source]} ∪ sources a)
      (set_nextStartTime (nextStartTime a + duration)%float
         (set_started (started a ++ [(source, nextStartTime a, duration)])
            (set_nextSource (S source) a)))) st.

Definition audio_part (a : AudioField) (st : State) : State :=
  match a with
  | InlineData base64 =>
      if negb (String.eqb base64 "") && outputCtx (audio_ st) then enqueue_begin st else st
  | NoAudio | NoParts => st
  end.

(** The decoder settles the promise [p]: with the duration of the decoded
    buffer, or by throwing. *)
Definition onDecoded (p : nat) (duration : option float) (st : State) : State :=
  let st := unregister p st in
  match duration with
  | Some d => enqueue_finish d st
  | None => st
  end.

Definition onSourceEnded (source : nat) (st : State) : State :=
  on_audio (fun a => set_sources (sources a ∖ {[source]}) a) st.

(** ** The session manager *)

(** The loop over [message.toolCall.functionCalls], from its current
    position to the next [await]. *)
Definition tool_loop (calls : list FunctionCall) (a : AudioField) (st : State) : State :=
  match calls with
  | fc :: rest => executeTool (fc_name fc) (fc_args fc) (KToolLoop fc rest a) st
  | [] => audio_part a st
  end.

Definition sendToSession (m : SessionSend) (st : State) : State :=
  on_loop (fun l => set_sessionOut (sessionOut l ++ [m]) l) st.

(** The code awaiting a promise runs with the value it resolved to.  After
    [await executeTool(...)] the response is handed to the session and the
    loop goes on. *)
Definition run_kont (k : Kont) (v : value) (st : State) : State :=
  match k with
  | KToolLoop fc rest a =>
      tool_loop rest a (sendToSession (ToolResponse (fc_id fc) (fc_name fc) v) st)
  | KDecode | KUserMedia => st
  end.

(** Settle one resolution: a promise is settled by the first call of its
    resolve function only. *)
Definition settle (pv : nat * value) (st : State) : State :=
  match promises (loop st) !! pv.1 with
  | Some k => run_kont k pv.2 (unregister pv.1 st)
  | None => st
  end.

(** The microtasks that follow a handler. *)
Definition drain (st : State) : State :=
  fold_left (fun s pv => settle pv s) (settling (loop st))
            (on_loop (set_settling []) st).

Definition session_onmessage (m : LiveServerMessage) (st : State) : State :=
  match toolCall m with
  | NoToolCall => audio_part (audio m) st
  | NoFunctionCalls => st
  | FunctionCalls calls => tool_loop calls (audio m) st
  end.

Definition session_onopen (st : State) : State :=
  let st := setConnected true st in
  let st := addLog "Connected!" success st in
  if inputCtx (audio_ st) && mediaStream (audio_ st)
  then on_audio (set_processor true) st
  else st.

Definition session_onclose (st : State) : State :=
  addLog "Disconnected" info (setConnected false st).

Definition session_onerror (st : State) : State :=
  addLog "Connection Error" error st.

(** ** The volume meter *)

(** [createScriptProcessor(4096, 1, 1)]: the length of every captured frame. *)
Definition bufferSize : nat := 4096.

(** The [for] loop of [onaudioprocess], with [n] iterations left. *)
Fixpoint sum_loop (inputData : list float) (n i : nat) (sum : float) : float :=
  match n with
  | O => sum
  | S n' =>
      sum_loop inputData n' (S i)
        (sum + nth i inputData nan * nth i inputData nan)%float
  end.

Definition loudness (inputData : list float) : float :=
  let sum := sum_loop inputData (length inputData) 0 0%float in
  let rms := PrimFloat.sqrt (sum / JSNum.of_nat (length inputData))%float in
  Math_min 1 (rms * 5)%float.

Definition onaudioprocess (inputData : list float) (st : State) : State :=
  let st := setVolume (loudness inputData) st in
  if session (loop st) then sendToSession (RealtimeInput inputData) st else st.

(** ** Connecting and disconnecting *)

Definition connect (apiKey : string) (st : State) : State :=
  if String.eqb apiKey "" then addLog "Missing API Key" error st
  else snd (newPromise KUserMedia (addLog "Requesting microphone..." info st)).

Definition onUserMedia (p : nat) (o : MediaOutcome) (st : State) : State :=
  let st := unregister p st in
  match o with
  | MediaGranted =>
      let st := on_audio (set_mediaStream true) st in
      let st := addLog "Initializing audio..." info st in
      let st := on_audio set_contexts st in
      let st := addLog "Connecting to Gemini Live..." info st in
      on_loop (set_session true) st
  | MediaError name message =>
      let denied :=
        String.eqb name "NotAllowedError"
        || match message with
           | Some s => includes "Permission denied" s
           | None => false
           end in
      let st :=
        if denied
        then addLog "Microphone access denied. Please check permissions." error st
        else addLog ("Failed to connect: "
                     +:+ match message with
                         | Some s => if String.eqb s "" then "Unknown error" else s
                         | None => "Unknown error"
                         end) error st in
      setConnected false st
  end.

(** [disconnect], for a session promise that has settled. *)
Definition disconnect (st : State) : State :=
  let st := on_audio (set_mediaStream false) st in
  let st := on_audio (fun a => set_processor false (set_sources ∅ a)) st in
  addLog "Stopped" info (setConnected false st).

(** ** The event loop *)

Inductive Event :=
| EvTimer (id : nat)
| EvWsOpen (s : nat)
| EvWsClose (s : nat)
| EvWsMessage (s : nat) (payload : option value)
| EvConnect (apiKey : string)
| EvUserMedia (p : nat) (o : MediaOutcome)
| EvSessionOpen
| EvSessionMessage (m : LiveServerMessage)
| EvSessionClose
| EvSessionError
| EvAudioProcess (inputData : list float)
| EvAudioClock (currentTime : float)
| EvDecoded (p : nat) (duration : option float)
| EvSourceEnded (source : nat)
| EvDisconnect.

Definition fire (a : TimerAction) (st : State) : State :=
  match a with
  | TReconnect => connectToBrowser st
  | TTimeout requestId p => onTimeout requestId p st
  | TSimulate name args p => onSimulate name args p st
  end.

Definition setReadyState (s : nat) (r : ReadyState) (st : State) : State :=
  on_bridge (fun b => set_sockets (<[s := r]> (sockets b)) b) st.

Definition setNow (t : Z) (st : State) : State := on_loop (set_now t) st.

(** The handler an event triggers; [None] when the event cannot occur in
    this state. *)
Definition handler (ev : Event) (st : State) : option State :=
  match ev with
  | EvTimer id =>
      match find (fun tm => Nat.eqb (tid tm) id) (timers (loop st)) with
      | Some tm => Some (fire (action tm) (clearTimeout id st))
      | None => None
      end
  | EvWsOpen s =>
      match sockets (bridge st) !! s with
      | Some CONNECTING => Some (ws_onopen (setReadyState s OPEN st))
      | _ => None
      end
  | EvWsClose s =>
      match sockets (bridge st) !! s with
      | Some CLOSED | None => None
      | Some _ => Some (ws_onclose (setReadyState s CLOSED st))
      end
  | EvWsMessage s payload =>
      match sockets (bridge st) !! s with
      | Some OPEN => Some (ws_onmessage payload st)
      | _ => None
      end
  | EvConnect apiKey => Some (connect apiKey st)
  | EvUserMedia p o =>
      match promises (loop st) !! p with
      | Some KUserMedia => Some (onUserMedia p o st)
      | _ => None
      end
  | EvSessionOpen => if session (loop st) then Some (session_onopen st) else None
  | EvSessionMessage m => if session (loop st) then Some (session_onmessage m st) else None
  | EvSessionClose => if session (loop st) then Some (session_onclose st) else None
  | EvSessionError => if session (loop st) then Some (session_onerror st) else None
  | EvAudioProcess inputData =>
      if processor (audio_ st) then Some (onaudioprocess inputData st) else None
  | EvAudioClock t => Some (on_audio (set_currentTime t) st)
  | EvDecoded p duration =>
      match promises (loop st) !! p with
      | Some KDecode => Some (onDecoded p duration st)
      | _ => None
      end
  | EvSourceEnded source => Some (onSourceEnded source st)
  | EvDisconnect => Some (disconnect st)
  end.

(** When an event may be delivered at time [t]: time does not go back, a
    timer fires at the time it is due and not before an earlier one, and
    nothing else is delivered at or after the time a live timer is due. *)
Definition deliverable (t : Z) (ev : Event) (st : State) : bool :=
  (now (loop st) <=? t)
  && match ev with
     | EvTimer id =>
         match find (fun tm => Nat.eqb (tid tm) id) (timers (loop st)) with
         | Some tm =>
             (due tm =? t)
             && forallb (fun tm' => due tm <=? due tm') (timers (loop st))
         | None => false
         end
     | _ => forallb (fun tm => t <? due tm) (timers (loop st))
     end.

(** One turn of the event loop: the handler, then the microtasks. *)
Definition step (te : Z * Event) (st : State) : option State :=
  if deliverable te.1 te.2 st
  then option_map drain (handler te.2 (setNow te.1 st))
  else None.

Fixpoint run (evs : list (Z * Event)) (st : State) : option State :=
  match evs with
  | [] => Some st
  | te :: rest =>
      match step te st with
      | Some st' => run rest st'
      | None => None
      end
  end.

(** ** The hook when it unmounts *)

(** The cleanup of the hook's [useEffect], run when the component unmounts:
    [browserWsRef.current?.close()], then the pending reconnect timer, if
    any, is cleared.  [close] moves a socket that is connecting or open to
    CLOSING; its close event comes later. *)
Definition cleanup (st : State) : State :=
  let st :=
    match browserWs (bridge st) with
    | Some s =>
        match sockets (bridge st) !! s with
        | Some CONNECTING | Some OPEN => setReadyState s CLOSING st
        | _ => st
        end
    | None => st
    end in
  match reconnectTimeout (bridge st) with
  | Some id => if Nat.eqb id 0 then st else clearTimeout id st
  | None => st
  end.

(** ** The hook when it mounts *)

Definition initialBrowserState : BrowserState :=
  {| isConnected := false; url := JStr "about:blank"; page := "dashboard";
     isLoading := false; screenshot := JUndef; calendarEvents := []; emails := [] |}.

Definition unmounted : State :=
  {| ui := {| connected := false; volume := 0%float; logs := [];
              browserState := initialBrowserState |};
     audio_ := {| mediaStream := false; inputCtx := false; outputCtx := false;
                  processor := false; currentTime := 0%float; nextStartTime := 0%float;
                  sources := ∅; nextSource := 0; started := [] |};
     bridge := {| sockets := ∅; attempts := 0; browserWs := None;
                  reconnectTimeout := None; pendingRequests := ∅; bridgeOut := [] |};
     loop := {| now := 0; timers := []; nextTimer := 1; promises := ∅; nextPromise := 0;
                randCalls := 0; settling := []; resolved := []; dispatched := [];
                session := false; sessionOut := [] |} |}.

(** The effect of the hook's [useEffect]: the first connection attempt. *)
Definition mounted : State := connectToBrowser unmounted.

End UseLiveAPI.
End Hook.

(* ===================================================================== *)
(** * The components that use the hook *)
(* ===================================================================== *)

Module App.
Import Hook.
(** [handleToggle] of the [App] component (the microphone button): what it
    calls depends on the [connected] flag the hook reports. *)
Definition handleToggle (apiKey : string) (st : State) : Event :=
  if connected (ui st) then EvDisconnect else EvConnect apiKey.
End App.

Module View.
Import JS Hook.
(** What [BrowserView] renders. *)
Inductive Screen :=
| LiveImage (data : value)                    (* the screenshot, with the LIVE badge *)
| WaitingForStream
| SimulatedPages (page : string).             (* with the 'Simulated Mode' banner *)

(** The [BrowserView] component, up to markup. *)
Definition BrowserView (state : BrowserState) : Screen :=
  if isConnected state && truthy (screenshot state) then LiveImage (screenshot state)
  else if isConnected state && negb (truthy (screenshot state)) then WaitingForStream
  else SimulatedPages (page state).
End View.

(* ===================================================================== *)
(** * Messages of the bridge protocol *)
(* ===================================================================== *)

Module Protocol.
Import JS Hook.

(** The action request as the backend parses it. *)
Definition request (requestId name : string) (args : value) : option value :=
  Some (wire (actionRequest requestId name args)).

Definition toolResult (requestId : string) (result : value) : value :=
  wire (JObj [("type", JStr "tool_result"); ("id", JStr requestId); ("result", result)]).

Definition screenshots (shot : option string) : list value :=
  match shot with
  | Some data => [JObj [("type", JStr "screenshot"); ("data", JStr data)]]
  | None => []
  end.

Definition catalog : list string :=
  ["openCalendar"; "openEmail"; "checkAvailability"; "bookMeeting"; "sendEmail"].

(** The event a booking creates. *)
Definition newEvent (dateNow title time attendees : string) : value :=
  JObj [("id", JStr dateNow);
        ("title", JStr (if String.eqb title "" then "New Meeting" else title));
        ("time", JStr (if String.eqb time "" then "Next Hour" else time));
        ("attendees",
         JArr (map JStr (if String.eqb attendees "" then ["You"] else split_comma attendees)))].

(** A [tool_result] message as [JSON.parse] returns it. *)
Definition toolResultMessage (rid : string) (result : value) : value :=
  JObj [("type", JStr "tool_result"); ("id", JStr rid); ("result", result)].

(** [m.type === ty] *)
Definition hasType (ty : string) (m : value) : bool := is_str (field m "type") ty.


(** Whether the backend's handler gets through an action without
    throwing: [data.args.title] and [data.args.to] need an [args] that is
    neither [undefined] nor [null], and [attendees.split] needs a string. *)
Definition answerable (data : value) : bool :=
  let args := field data "args" in
  if is_str (field data "tool") "openCalendar" || is_str (field data "tool") "checkAvailability"
  then true
  else if is_str (field data "tool") "openEmail" then true
  else if is_str (field data "tool") "bookMeeting" then
    match get args "title" with
    | Some _ =>
        match Server.attendeesOf (field args "attendees") with
        | Some _ => true
        | None => false
        end
    | None => false
    end
  else if is_str (field data "tool") "sendEmail" then
    match get args "to" with Some _ => true | None => false end
  else true.

(** The messages that only update what the hook shows. *)
Definition notice (m : value) : bool := hasType "url_change" m || hasType "log" m.


End Protocol.

(* ===================================================================== *)
(** * The specification's words *)
(* ===================================================================== *)

Module Meter.

(** The root mean square of a frame, as the specification words it: the
    square root of the mean of the squared samples. *)
Definition sum_squares (frame : list float) : float :=
  fold_left (fun acc x => (acc + x * x)%float) frame 0%float.

Definition rms (frame : list float) : float :=
  PrimFloat.sqrt (sum_squares frame / JSNum.of_nat (length frame))%float.

End Meter.

Module Playback.
Import JS JSNum Hook.

(** One chunk goes through the scheduler: the output clock reads [clock]
    when the chunk is enqueued, and its decoded buffer lasts [duration]. *)
Definition play (chunk : float * float) (st : State) : State :=
  enqueue_finish chunk.2 (enqueue_begin (on_audio (set_currentTime chunk.1) st)).

(** Chunks enqueued one after the other, in arrival order. *)
Definition playAll (chunks : list (float * float)) (st : State) : State :=
  fold_left (fun s c => play c s) chunks st.

Definition cursor (st : State) : float := nextStartTime (audio_ st).

Definition well_formed (chunk : float * float) : bool :=
  is_number chunk.1 && is_finite chunk.2.

(** Three chunks: the second arrives while the first still plays, the
    third after a pause. *)
Definition threeChunks : list (float * float) :=
  [(0.5, 0.25); (0.625, 0.5); (2, 0.125)]%float.

(** When a started source ends. *)
Definition endOf (e : nat * float * float) : float := (e.1.2 + e.2)%float.

(** Every source starts at or after the end of the one started before it;
    [prev] is the end of what came before the list. *)
Fixpoint noOverlap (prev : float) (l : list (nat * float * float)) : bool :=
  match l with
  | [] => true
  | e :: rest => (prev <=? e.1.2)%float && noOverlap (endOf e) rest
  end.

Definition lastEnd (prev : float) (l : list (nat * float * float)) : float :=
  fold_left (fun _ e => endOf e) l prev.

(** The clock readings and decoded durations of a trace are sound: a clock
    reading is not NaN and a duration is finite. *)
Definition sane (te : Z * Event) : bool :=
  match te.2 with
  | EvAudioClock c => is_number c
  | EvDecoded _ (Some d) => is_finite d
  | _ => true
  end.

(** The events whose handlers, or the code they resume, can reach the
    scheduler: a message of the session, the end of a decoding, and what
    resolves a tool call (a timer, a message of the bridge). *)
Definition schedules (ev : Event) : bool :=
  match ev with
  | EvSessionMessage _ | EvDecoded _ _ | EvTimer _ | EvWsMessage _ _ => true
  | _ => false
  end.



End Playback.

(* ===================================================================== *)
(** * Scenarios *)
(* ===================================================================== *)

Module Scenarios.
Import JS JSNum Hook.

(** Concrete stand-ins for the parameters of the development.  [toStr] is
    the string conversion on [undefined], [null], the booleans and plain
    objects; the scenarios put no number and no array into a template. *)
Definition toStr (v : value) : string :=
  match v with
  | JUndef => "undefined"
  | JNull => "null"
  | JBool true => "true"
  | JBool false => "false"
  | _ => "[object Object]"
  end.

(** The ids [Math.random] yields, in order. *)
Definition ids (n : nat) : string :=
  nth n ["k3x9a"; "p0q7z"; "m2n4b"; "w8e1r"; "t5y6u"] "zzzzz".

Definition opens (n : nat) : bool := false.

(** The third attempt to create the socket throws. *)
Definition thirdThrows (n : nat) : bool := Nat.eqb n 2.

Definition run := Hook.run toStr ids opens.
Definition step := Hook.step toStr ids opens.
Definition mounted := Hook.mounted opens.

Definition bookArgs : value :=
  JObj [("title", JStr "Sync"); ("time", JStr "3 PM"); ("attendees", JStr "Ann,Bo")].

Definition bookCall : FunctionCall :=
  {| fc_id := JStr "call-1"; fc_name := "bookMeeting"; fc_args := bookArgs |}.

Definition calendarCall : FunctionCall :=
  {| fc_id := JStr "call-2"; fc_name := "openCalendar"; fc_args := JObj [] |}.

Definition notesCall : FunctionCall :=
  {| fc_id := JStr "call-3"; fc_name := "openNotes"; fc_args := JObj [] |}.

Definition toolMessage (calls : list FunctionCall) : LiveServerMessage :=
  {| toolCall := FunctionCalls calls; audio := NoAudio |}.

(** The user connects the session while the bridge is still connecting. *)
Definition sessionUp : list (Z * Event) :=
  [(20, EvConnect "key"); (30, EvUserMedia 0 MediaGranted); (40, EvSessionOpen)].

(** The bridge opens first, then the session. *)
Definition bridgeAndSessionUp : list (Z * Event) := (10, EvWsOpen 0) :: sessionUp.

(** The backend answers the last request the hook sent; its replies reach
    the hook at time [t]. *)
Definition roundTrip (dateNow : string) (shot : option string) (t : Z)
    (hook : State) (backend : Server.State) : option (State * Server.State) :=
  match last (bridgeOut (bridge hook)) with
  | Some (s, request) =>
      let '(backend', replies) := Server.handle toStr dateNow shot (Some request) backend in
      option_map (fun h => (h, backend'))
        (run (map (fun r => (t, EvWsMessage s (Some r))) replies) hook)
  | None => None
  end.

(** One tool call while the bridge is connected, answered by the backend. *)
Definition overBridge (call : FunctionCall) : option (State * Server.State) :=
  match run (bridgeAndSessionUp ++ [(50, EvSessionMessage (toolMessage [call]))]) mounted with
  | Some hook => roundTrip "1736935200000" (Some "/9j/4AAQ") 180 hook Server.initial
  | None => None
  end.

(** One tool call while the bridge is not connected, and its simulated
    delay. *)
Definition simulated (call : FunctionCall) : option State :=
  run (sessionUp ++ [(50, EvSessionMessage (toolMessage [call])); (850, EvTimer 1)]) mounted.

Definition results (st : State) : list value := map snd (resolved (loop st)).

Definition view (st : State) : string * value * bool :=
  (page (browserState (ui st)), url (browserState (ui st)),
   isLoading (browserState (ui st))).

(** The state a trace leads to. *)
Definition after (evs : list (Z * Event)) : State :=
  match Scenarios.run evs Scenarios.mounted with
  | Some st => st
  | None => unmounted
  end.

(** One booking is dispatched over the connected bridge. *)
Definition booking : list (Z * Event) :=
  bridgeAndSessionUp ++ [(50, EvSessionMessage (toolMessage [bookCall]))].

(** One event carries two calls. *)
Definition twoCalls : list (Z * Event) :=
  bridgeAndSessionUp ++ [(50, EvSessionMessage (toolMessage [bookCall; calendarCall]))].

Definition toolsSent (st : State) : list value :=
  map (fun m => field m.2 "tool") (bridgeOut (bridge st)).

(** An email without arguments. *)
Definition bareEmailCall : FunctionCall :=
  {| fc_id := JStr "call-4"; fc_name := "sendEmail"; fc_args := JUndef |}.

(** A message of the session that carries audio only. *)
Definition audioMessage : LiveServerMessage :=
  {| toolCall := NoToolCall; audio := InlineData "UklGRg==" |}.

(** Two chunks arrive one after the other; the second is decoded first. *)
Definition crossedDecodes : list (Z * Event) :=
  sessionUp
  ++ [(50, EvAudioClock 0.5%float); (60, EvSessionMessage audioMessage);
      (70, EvSessionMessage audioMessage);
      (80, EvDecoded 2 (Some 0.25%float)); (90, EvDecoded 1 (Some 0.5%float))].


(** One event carries three calls while the bridge is not connected. *)
Definition threeCalls : list (Z * Event) :=
  sessionUp ++ [(50, EvSessionMessage (toolMessage [bookCall; calendarCall; notesCall]))].

(** The user stops and starts again. *)
Definition restart : list (Z * Event) :=
  [(100, EvDisconnect); (200, EvConnect "key"); (210, EvUserMedia 3 MediaGranted);
   (220, EvSessionOpen)].

End Scenarios.

(* ===================================================================== *)
(** * Facts about JavaScript numbers and values *)
(* ===================================================================== *)

Module JSNumFacts.
Import JSNum.

(** ** Rounding keeps the sign and never produces NaN *)

Lemma shr_1_nonneg mrs : 0 <= shr_m mrs -> 0 <= shr_m (shr_1 mrs).
Proof.
  destruct mrs as [m r s]; simpl.
  destruct m as [|p|p]; try destruct p; simpl; lia.
Qed.

Lemma iter_shr_1_nonneg p :
  forall mrs, 0 <= shr_m mrs -> 0 <= shr_m (SpecFloat.iter_pos shr_1 p mrs).
Proof.
  induction p as [p IH|p IH|]; intros mrs H; simpl.
  - apply IH, IH, shr_1_nonneg, H.
  - apply IH, IH, H.
  - apply shr_1_nonneg, H.
Qed.

Lemma shr_fexp_nonneg pr em m e l :
  0 <= m -> 0 <= shr_m (fst (shr_fexp pr em m e l)).
Proof.
  intros H. unfold shr_fexp, shr.
  assert (Hm : shr_m (shr_record_of_loc m l) = m) by (destruct l as [|[]]; reflexivity).
  destruct (fexp pr em (Zdigits2 m + e) - e) as [|p|p]; simpl; try lia.
  apply iter_shr_1_nonneg. lia.
Qed.

Lemma round_nearest_even_nonneg m l : 0 <= m -> 0 <= round_nearest_even m l.
Proof.
  intros H. destruct l as [|[]]; simpl; try lia.
  destruct (Z.even m); lia.
Qed.

Lemma binary_round_aux_signed pr em sx mx ex lx :
  0 <= mx -> sf_signed sx (binary_round_aux pr em sx mx ex lx) = true.
Proof.
  intros H. unfold binary_round_aux.
  pose proof (shr_fexp_nonneg pr em mx ex lx H) as H1.
  destruct (shr_fexp pr em mx ex lx) as [mrs' e']. simpl in H1.
  pose proof (round_nearest_even_nonneg (shr_m mrs') (loc_of_shr_record mrs') H1) as H2.
  pose proof (shr_fexp_nonneg pr em _ e' loc_Exact H2) as H3.
  destruct (shr_fexp pr em _ e' loc_Exact) as [mrs'' e'']. simpl in H3.
  destruct (shr_m mrs'') as [|p|p]; simpl.
  - apply eqb_reflx.
  - destruct (e'' <=? em - pr); simpl; apply eqb_reflx.
  - lia.
Qed.

Lemma binary_round_signed pr em sx mx ex :
  sf_signed sx (binary_round pr em sx mx ex) = true.
Proof.
  unfold binary_round.
  destruct (shl_align mx ex _) as [mz ez].
  apply binary_round_aux_signed. lia.
Qed.

(** ** Arithmetic on non-negative doubles *)

Lemma add_nonneg x y : nonneg x = true -> nonneg y = true -> nonneg (x + y) = true.
Proof.
  unfold nonneg. rewrite FloatAxioms.add_spec. unfold SF64add, SFadd.
  destruct (Prim2SF x) as [sx|sx| |sx mx ex], (Prim2SF y) as [sy|sy| |sy my ey];
    simpl; try discriminate; try (destruct sx; try discriminate);
    try (destruct sy; try discriminate); intros _ _; try reflexivity.
  apply binary_round_signed.
Qed.

Lemma mul_self_nonneg x : is_number x = true -> nonneg (x * x) = true.
Proof.
  unfold is_number, nonneg, is_nan. rewrite FloatAxioms.eqb_spec, FloatAxioms.mul_spec.
  unfold SF64mul, SFmul, SFeqb.
  destruct (Prim2SF x) as [sx|sx| |sx mx ex]; simpl; try discriminate; intros _.
  - destruct sx; reflexivity.
  - destruct sx; reflexivity.
  - replace (xorb sx sx) with false by (destruct sx; reflexivity).
    apply binary_round_aux_signed. lia.
Qed.

Lemma mul_nonneg_finite x y my ey :
  nonneg x = true -> Prim2SF y = S754_finite false my ey -> nonneg (x * y) = true.
Proof.
  unfold nonneg. rewrite FloatAxioms.mul_spec. intros Hx Hy. rewrite Hy.
  unfold SF64mul, SFmul.
  destruct (Prim2SF x) as [sx|sx| |sx mx ex]; simpl in *; try discriminate;
    destruct sx; try discriminate; try reflexivity.
  apply binary_round_aux_signed. lia.
Qed.

Lemma div_nonneg_finite x y my ey :
  nonneg x = true -> Prim2SF y = S754_finite false my ey -> nonneg (x / y) = true.
Proof.
  unfold nonneg. rewrite FloatAxioms.div_spec. intros Hx Hy. rewrite Hy.
  unfold SF64div, SFdiv.
  destruct (Prim2SF x) as [sx|sx| |sx mx ex]; simpl in *; try discriminate;
    destruct sx; try discriminate; try reflexivity.
  unfold SFdiv_core_binary.
  match goal with |- context [Z.div_eucl ?a ?b] =>
    pose proof (Z.div_pos a b) as Hq; unfold Z.div in Hq;
    destruct (Z.div_eucl a b) as [q r] eqn:E; simpl in Hq end.
  apply binary_round_aux_signed. apply Hq; [|lia].
  match goal with |- 0 <= match ?s with _ => _ end =>
    destruct s eqn:Es; try lia end.
  apply Z.shiftl_nonneg. lia.
Qed.

Lemma sqrt_nonneg x : nonneg x = true -> nonneg (PrimFloat.sqrt x) = true.
Proof.
  unfold nonneg. rewrite FloatAxioms.sqrt_spec. unfold SF64sqrt, SFsqrt.
  destruct (Prim2SF x) as [sx|sx| |sx mx ex]; simpl; try discriminate;
    destruct sx; try discriminate; intros _; try reflexivity.
  unfold SFsqrt_core_binary.
  match goal with |- context [Z.sqrtrem ?a] =>
    pose proof (Z.sqrtrem_sqrt a) as Hq; pose proof (Z.sqrt_nonneg a) as Hn;
    destruct (Z.sqrtrem a) as [q r]; simpl in Hq; subst q end.
  apply binary_round_aux_signed. exact Hn.
Qed.

(** ** Comparisons *)

Lemma SFcompare_antisym x y c :
  SFcompare x y = Some c -> SFcompare y x = Some (CompOpp c).
Proof.
  destruct x as [sx|sx| |sx mx ex], y as [sy|sy| |sy my ey]; simpl;
    try discriminate; intros H; injection H as <-;
    try (destruct sx; reflexivity); try (destruct sy; reflexivity);
    try (destruct sx, sy; reflexivity).
  rewrite (Z.compare_antisym ex ey).
  change (Pos.compare_cont Eq my mx) with (Pos.compare my mx).
  change (Pos.compare_cont Eq mx my) with (Pos.compare mx my).
  rewrite (Pos.compare_antisym mx my).
  destruct sx, sy; simpl; try reflexivity;
    destruct (ex ?= ey); simpl; try reflexivity;
    destruct (mx ?= my)%positive; reflexivity.
Qed.

Lemma SFcompare_number x y :
  x <> S754_nan -> y <> S754_nan -> exists c, SFcompare x y = Some c.
Proof.
  destruct x, y; simpl; intros Hx Hy; try congruence; eauto.
Qed.

Lemma is_number_spec x : is_number x = true <-> Prim2SF x <> S754_nan.
Proof.
  unfold is_number, is_nan. rewrite FloatAxioms.eqb_spec. unfold SFeqb.
  destruct (Prim2SF x) as [s|s| |s m e]; simpl.
  - split; [discriminate | reflexivity].
  - destruct s; split; try discriminate; reflexivity.
  - split; [discriminate | congruence].
  - replace (Pos.compare_cont Eq m m) with Eq
      by (symmetry; apply Pos.compare_cont_refl).
    rewrite Z.compare_refl. destruct s; simpl; split; try discriminate; reflexivity.
Qed.

Lemma nonneg_is_number x : nonneg x = true -> is_number x = true.
Proof.
  unfold nonneg. intros H. apply is_number_spec. intros E. rewrite E in H. discriminate.
Qed.

(** For numbers, [a <? b] failing means [b <= a]. *)
Lemma not_ltb_leb a b :
  is_number a = true -> is_number b = true ->
  (a <? b)%float = false -> (b <=? a)%float = true.
Proof.
  rewrite !is_number_spec, FloatAxioms.ltb_spec, FloatAxioms.leb_spec. unfold SFltb, SFleb.
  intros Ha Hb.
  destruct (SFcompare_number _ _ Ha Hb) as [c Hc].
  rewrite Hc, (SFcompare_antisym _ _ _ Hc).
  destruct c; simpl; congruence.
Qed.

Lemma ltb_leb a b : (a <? b)%float = true -> (a <=? b)%float = true.
Proof.
  rewrite FloatAxioms.ltb_spec, FloatAxioms.leb_spec. unfold SFltb, SFleb.
  destruct (SFcompare (Prim2SF a) (Prim2SF b)) as [[]|]; congruence.
Qed.

Lemma leb_refl a : is_number a = true -> (a <=? a)%float = true.
Proof.
  intros H. apply not_ltb_leb; try assumption.
  revert H. rewrite is_number_spec, FloatAxioms.ltb_spec. unfold SFltb. intros H.
  destruct (SFcompare_number _ _ H H) as [c Hc].
  pose proof (SFcompare_antisym _ _ _ Hc) as Hc'. rewrite Hc in *.
  destruct c; simpl in *; congruence.
Qed.

Lemma zero_leb_nonneg x : nonneg x = true -> (0 <=? x)%float = true.
Proof.
  unfold nonneg. rewrite FloatAxioms.leb_spec. unfold SFleb.
  change (Prim2SF 0) with (S754_zero false).
  destruct (Prim2SF x) as [s|s| |s m e]; simpl; try discriminate;
    destruct s; try discriminate; reflexivity.
Qed.

(** ** [Math.min] and [Math.max] *)

Lemma Math_min_cases a b :
  is_number a = true -> is_number b = true ->
  Math_min a b = a \/ Math_min a b = b.
Proof.
  unfold is_number, Math_min. intros Ha Hb.
  destruct (is_nan a), (is_nan b); try discriminate; simpl.
  destruct (a <? b)%float; [now left|].
  destruct (b <? a)%float; [now right|].
  destruct (get_sign a); [now left | now right].
Qed.

Lemma Math_min_leb_l a b :
  is_number a = true -> is_number b = true -> (Math_min a b <=? a)%float = true.
Proof.
  intros Ha Hb. unfold Math_min.
  pose proof Ha as Ha'. pose proof Hb as Hb'. unfold is_number in Ha', Hb'.
  destruct (is_nan a), (is_nan b); try discriminate; simpl.
  destruct (a <? b)%float eqn:E1; [now apply leb_refl|].
  destruct (b <? a)%float eqn:E2; [now apply ltb_leb|].
  destruct (get_sign a); [now apply leb_refl | now apply not_ltb_leb].
Qed.

Lemma Math_max_leb_l a b :
  is_number a = true -> is_number b = true -> (a <=? Math_max a b)%float = true.
Proof.
  intros Ha Hb. unfold Math_max.
  pose proof Ha as Ha'. pose proof Hb as Hb'. unfold is_number in Ha', Hb'.
  destruct (is_nan a), (is_nan b); try discriminate; simpl.
  destruct (a <? b)%float eqn:E1; [now apply ltb_leb|].
  destruct (b <? a)%float eqn:E2; [now apply leb_refl|].
  destruct (get_sign a); [now apply not_ltb_leb | now apply leb_refl].
Qed.

Lemma Math_max_leb_r a b :
  is_number a = true -> is_number b = true -> (b <=? Math_max a b)%float = true.
Proof.
  intros Ha Hb. unfold Math_max.
  pose proof Ha as Ha'. pose proof Hb as Hb'. unfold is_number in Ha', Hb'.
  destruct (is_nan a), (is_nan b); try discriminate; simpl.
  destruct (a <? b)%float eqn:E1; [now apply leb_refl|].
  destruct (b <? a)%float eqn:E2; [now apply ltb_leb|].
  destruct (get_sign a); [now apply leb_refl | now apply not_ltb_leb].
Qed.

Lemma Math_max_is_number a b :
  is_number a = true -> is_number b = true -> is_number (Math_max a b) = true.
Proof.
  intros Ha Hb. unfold Math_max.
  pose proof Ha as Ha'. pose proof Hb as Hb'. unfold is_number in Ha', Hb'.
  destruct (is_nan a), (is_nan b); try discriminate; simpl.
  destruct (a <? b)%float; [assumption|].
  destruct (b <? a)%float; [assumption|].
  destruct (get_sign a); assumption.
Qed.

End JSNumFacts.

Module JSFacts.
Import JS.

Example split_two : split_comma "Ann,Bo" = ["Ann"; "Bo"].
Proof. reflexivity. Qed.

Example split_none : split_comma "Ann" = ["Ann"].
Proof. reflexivity. Qed.

Example wire_drops_undefined :
  wire (JObj [("type", JStr "action"); ("args", JUndef); ("id", JStr "k3")])
  = JObj [("type", JStr "action"); ("id", JStr "k3")].
Proof. reflexivity. Qed.

End JSFacts.

(* ===================================================================== *)
(** * The volume meter *)
(* ===================================================================== *)

Module VolumeMeter.
Import JS JSNum JSNumFacts Hook Meter.

Lemma sum_loop_fold frame :
  forall pre acc,
    sum_loop (pre ++ frame) (length frame) (length pre) acc
    = fold_left (fun a x => (a + x * x)%float) frame acc.
Proof.
  induction frame as [|x frame IH]; intros pre acc; simpl; [reflexivity|].
  rewrite nth_middle.
  replace (pre ++ x :: frame) with ((pre ++ [x]) ++ frame)
    by (rewrite <- app_assoc; reflexivity).
  replace (S (length pre)) with (length (pre ++ [x]))
    by (rewrite length_app; simpl; lia).
  apply IH.
Qed.

Lemma loudness_rms frame : loudness frame = Math_min 1 (rms frame * 5)%float.
Proof.
  unfold loudness, rms, sum_squares.
  rewrite <- (sum_loop_fold frame [] 0%float). reflexivity.
Qed.

Lemma fold_squares_nonneg frame :
  forall acc, forallb is_number frame = true -> nonneg acc = true ->
    nonneg (fold_left (fun a x => (a + x * x)%float) frame acc) = true.
Proof.
  induction frame as [|x frame IH]; intros acc Hf Ha; simpl in *; [assumption|].
  apply andb_prop in Hf as [Hx Hf].
  apply IH; [assumption|].
  apply add_nonneg; [assumption | apply mul_self_nonneg; assumption].
Qed.

Lemma is_zero_cases x : PrimFloat.is_zero x = true -> x = zero \/ x = neg_zero.
Proof.
  unfold PrimFloat.is_zero. rewrite FloatAxioms.eqb_spec.
  change (Prim2SF zero) with (S754_zero false). unfold SFeqb.
  intros H. rewrite <- (SF2Prim_Prim2SF x).
  destruct (Prim2SF x) as [s|s| |s m e]; simpl in H; try discriminate.
  - destruct s; [right | left]; reflexivity.
  - destruct s; discriminate.
  - destruct s; discriminate.
Qed.

Lemma fold_squares_zero frame :
  forallb PrimFloat.is_zero frame = true ->
  fold_left (fun a x => (a + x * x)%float) frame 0%float = 0%float.
Proof.
  induction frame as [|x frame IH]; intros Hf; simpl in *; [reflexivity|].
  apply andb_prop in Hf as [Hx Hf].
  destruct (is_zero_cases x Hx) as [-> | ->]; apply IH; assumption.
Qed.

Lemma bufferSize_float :
  exists m e, Prim2SF (JSNum.of_nat bufferSize) = S754_finite false m e.
Proof. eexists. eexists. vm_compute. reflexivity. Qed.

Lemma five_float : exists m e, Prim2SF 5%float = S754_finite false m e.
Proof. eexists. eexists. vm_compute. reflexivity. Qed.

Lemma scaled_rms_nonneg frame :
  length frame = bufferSize -> forallb is_number frame = true ->
  nonneg (rms frame * 5)%float = true.
Proof.
  intros Hlen Hnum.
  destruct bufferSize_float as (m & e & Hn), five_float as (m5 & e5 & H5).
  eapply mul_nonneg_finite; [|exact H5].
  unfold rms. apply sqrt_nonneg. rewrite Hlen.
  eapply div_nonneg_finite; [|exact Hn].
  apply fold_squares_nonneg; [assumption | reflexivity].
Qed.

(** C8. For every captured frame (4096 samples) none of whose samples is
    NaN, the published loudness is [Math.min(1, rms * 5)] with [rms] the
    root mean square of the samples; it lies between 0 and 1; and a frame of
    zeros gives loudness 0. *)
Theorem loudness_bounded (frame : list float) :
  length frame = bufferSize ->
  forallb is_number frame = true ->
  loudness frame = Math_min 1 (rms frame * 5)%float
  /\ (0 <=? loudness frame)%float = true
  /\ (loudness frame <=? 1)%float = true
  /\ (forallb PrimFloat.is_zero frame = true -> loudness frame = 0%float)
  /\ (forall st, volume (ui (onaudioprocess frame st)) = loudness frame).
Proof.
  intros Hlen Hnum.
  pose proof (scaled_rms_nonneg frame Hlen Hnum) as Hv.
  pose proof (nonneg_is_number _ Hv) as Hvn.
  assert (H1 : is_number 1%float = true) by reflexivity.
  split; [apply loudness_rms|].
  rewrite loudness_rms.
  split; [|split; [|split]].
  - destruct (Math_min_cases 1 (rms frame * 5)%float H1 Hvn) as [-> | ->].
    + reflexivity.
    + apply zero_leb_nonneg, Hv.
  - apply Math_min_leb_l; assumption.
  - intros Hz. unfold rms, sum_squares.
    rewrite (fold_squares_zero frame Hz), Hlen. vm_compute. reflexivity.
  - intros st. unfold onaudioprocess.
    destruct (session (loop (setVolume (loudness frame) st))); cbn;
      apply loudness_rms.
Qed.

(** A frame of quarter-scale samples: its loudness is within bounds. *)
Lemma loudness_bounded_witness :
  (0 <=? loudness (repeat 0.25%float 4096))%float = true
  /\ (loudness (repeat 0.25%float 4096) <=? 1)%float = true.
Proof.
  destruct (loudness_bounded (repeat 0.25%float 4096)) as (_ & H0 & H1 & _).
  - vm_compute. reflexivity.
  - vm_compute. reflexivity.
  - split; assumption.
Defined.

(** A frame one of whose samples is NaN: the sum of squares is NaN, and so
    is the loudness, which is then neither at least 0 nor at most 1. *)
Lemma nan_sample_out_of_bounds :
  length (nan :: repeat 0.25%float 4095) = bufferSize
  /\ is_nan (loudness (nan :: repeat 0.25%float 4095)) = true
  /\ (0 <=? loudness (nan :: repeat 0.25%float 4095))%float = false
  /\ (loudness (nan :: repeat 0.25%float 4095) <=? 1)%float = false.
Proof.
  split; [vm_compute; reflexivity|]. split; [vm_compute; reflexivity|].
  split; vm_compute; reflexivity.
Qed.

Example loudness_quarter : loudness (repeat 0.25%float 4096) = 1%float.
Proof. vm_compute. reflexivity. Qed.

Example loudness_eighth_of_full_scale :
  loudness (repeat 0.125%float 4096) = 0.625%float.
Proof. vm_compute. reflexivity. Qed.

End VolumeMeter.

(* ===================================================================== *)
(** * The playback scheduler *)
(* ===================================================================== *)

Module Scheduler.
Import JS JSNum JSNumFacts Hook Playback.

Lemma is_finite_spec x :
  is_finite x = true ->
  exists s, Prim2SF x = S754_zero s \/ exists m e, Prim2SF x = S754_finite s m e.
Proof.
  unfold is_finite, is_infinity, is_nan.
  rewrite !FloatAxioms.eqb_spec, abs_spec.
  change (Prim2SF infinity) with (S754_infinity false).
  unfold SFeqb.
  destruct (Prim2SF x) as [s|s| |s m e]; simpl; intros H.
  - exists s. now left.
  - destruct s; discriminate.
  - discriminate.
  - exists s. right. now exists m, e.
Qed.

Lemma add_number_finite x d :
  is_number x = true -> is_finite d = true -> is_number (x + d) = true.
Proof.
  intros Hx Hd. apply is_number_spec. apply is_number_spec in Hx.
  rewrite FloatAxioms.add_spec. unfold SF64add, SFadd.
  destruct (is_finite_spec d Hd) as [sd [Hz | (md & ed & Hf)]].
  - rewrite Hz. destruct (Prim2SF x) as [s|s| |s m e]; try congruence.
    destruct s, sd; discriminate.
  - rewrite Hf. destruct (Prim2SF x) as [s|s| |s m e]; try congruence.
    match goal with |- binary_normalize _ _ ?z ?e0 ?b <> _ =>
      destruct z as [|q|q]; simpl; try discriminate;
      intros E;
      [ pose proof (binary_round_signed prec emax false q e0) as R
      | pose proof (binary_round_signed prec emax true q e0) as R ];
      rewrite E in R; discriminate
    end.
Qed.

(** What one chunk does to the timeline. *)
Lemma play_spec clock d st :
  started (audio_ (play (clock, d) st))
  = started (audio_ st) ++ [(nextSource (audio_ st), Math_max (cursor st) clock, d)]
  /\ cursor (play (clock, d) st) = (Math_max (cursor st) clock + d)%float.
Proof. split; reflexivity. Qed.

Lemma play_number chunk st :
  well_formed chunk = true -> is_number (cursor st) = true ->
  is_number (cursor (play chunk st)) = true.
Proof.
  destruct chunk as [clock d]. unfold well_formed. simpl.
  intros H Hc. apply andb_prop in H as [Hclock Hd].
  destruct (play_spec clock d st) as [_ ->].
  apply add_number_finite; [|assumption].
  apply Math_max_is_number; assumption.
Qed.

Lemma playAll_number chunks :
  forall st, forallb well_formed chunks = true -> is_number (cursor st) = true ->
    is_number (cursor (playAll chunks st)) = true.
Proof.
  induction chunks as [|c chunks IH]; intros st Hw Hc; simpl in *; [assumption|].
  apply andb_prop in Hw as [Hc0 Hw].
  apply IH; [assumption|]. apply play_number; assumption.
Qed.

Lemma playAll_snoc chunks c st :
  playAll (chunks ++ [c]) st = play c (playAll chunks st).
Proof. unfold playAll. rewrite fold_left_app. reflexivity. Qed.

Lemma firstn_S_snoc {A} (l : list A) k x :
  nth_error l k = Some x -> firstn (S k) l = firstn k l ++ [x].
Proof.
  revert k. induction l as [|y l IH]; intros [|k] H; simpl in *; try discriminate.
  - now injection H as ->.
  - f_equal. apply IH, H.
Qed.

Lemma forallb_firstn {A} (f : A -> bool) l k :
  forallb f l = true -> forallb f (firstn k l) = true.
Proof.
  revert k. induction l as [|y l IH]; intros [|k] H; simpl in *; try reflexivity.
  apply andb_prop in H as [-> H]. simpl. apply IH, H.
Qed.

(** The scheduler on chunks that are decoded one at a time, in arrival
    order, the k-th with clock reading [clock] and duration [d]: it is
    started at the larger of the cursor and
    the clock, hence not before the clock's current time and not before the
    end (start plus duration) of the chunk before it, and the cursor then
    stands exactly one duration after that start. *)
Theorem playback_gapless_ordered (chunks : list (float * float)) (st : State)
    (k : nat) (clock d : float) :
  is_number (cursor st) = true ->
  forallb well_formed chunks = true ->
  nth_error chunks k = Some (clock, d) ->
  let before := playAll (firstn k chunks) st in
  let after := playAll (firstn (S k) chunks) st in
  exists source start,
    started (audio_ after) = started (audio_ before) ++ [(source, start, d)]
    /\ start = Math_max (cursor before) clock
    /\ (clock <=? start)%float = true
    /\ (cursor before <=? start)%float = true
    /\ cursor after = (start + d)%float
    /\ (forall k' clock' d', k = S k' -> nth_error chunks k' = Some (clock', d') ->
         exists source' start',
           last (started (audio_ before)) = Some (source', start', d')
           /\ cursor before = (start' + d')%float
           /\ (start' + d' <=? start)%float = true).
Proof.
  intros Hc Hw Hk before after.
  assert (Hafter : after = play (clock, d) before).
  { unfold after, before. rewrite (firstn_S_snoc _ _ _ Hk). apply playAll_snoc. }
  assert (Hnum : is_number (cursor before) = true).
  { apply playAll_number; [apply forallb_firstn|]; assumption. }
  assert (Hclock : is_number clock = true).
  { apply nth_error_In in Hk. rewrite forallb_forall in Hw.
    apply Hw in Hk. unfold well_formed in Hk. simpl in Hk.
    apply andb_prop in Hk as [Hk _]. exact Hk. }
  destruct (play_spec clock d before) as [Hs Hcur].
  exists (nextSource (audio_ before)), (Math_max (cursor before) clock).
  rewrite Hafter.
  split; [exact Hs|]. split; [reflexivity|].
  split; [apply Math_max_leb_r; assumption|].
  split; [apply Math_max_leb_l; assumption|].
  split; [exact Hcur|].
  intros k' clock' d' -> Hk'.
  assert (Hbefore : before = play (clock', d') (playAll (firstn k' chunks) st)).
  { unfold before. rewrite (firstn_S_snoc _ _ _ Hk'). apply playAll_snoc. }
  destruct (play_spec clock' d' (playAll (firstn k' chunks) st)) as [Hs' Hcur'].
  exists (nextSource (audio_ (playAll (firstn k' chunks) st))),
         (Math_max (cursor (playAll (firstn k' chunks) st)) clock').
  rewrite Hbefore at 1. rewrite Hs', last_snoc.
  split; [reflexivity|].
  rewrite <- Hbefore in Hcur'. rewrite <- Hcur'.
  split; [reflexivity|].
  apply Math_max_leb_l; assumption.
Qed.

Lemma playback_gapless_ordered_witness :
  exists source start,
    started (audio_ (playAll (firstn 2 threeChunks) unmounted))
    = started (audio_ (playAll (firstn 1 threeChunks) unmounted)) ++ [(source, start, 0.5%float)]
    /\ (0.625 <=? start)%float = true
    /\ (cursor (playAll (firstn 1 threeChunks) unmounted) <=? start)%float = true.
Proof.
  destruct (playback_gapless_ordered threeChunks unmounted 1 0.625%float 0.5%float)
    as (source & start & H1 & _ & H3 & H4 & _).
  - reflexivity.
  - vm_compute. reflexivity.
  - reflexivity.
  - exists source, start. split; [exact H1 | split; assumption].
Defined.

Example threeChunks_schedule :
  map (fun e => (e.1.2, e.2)) (started (audio_ (playAll threeChunks unmounted)))
  = [(0.5, 0.25); (0.75, 0.5); (2, 0.125)]%float.
Proof. vm_compute. reflexivity. Qed.

End Scheduler.

(* ===================================================================== *)
(** * The backend's replies *)
(* ===================================================================== *)

Module BackendFacts.
Import JS Hook Protocol.

Section Replies.

Variable ToString : value -> string.

Local Abbreviation handle := (Server.handle ToString).

Ltac server_eval :=
  unfold Server.handle, Server.on_message, Server.finish, Server.resume, Server.reply,
    Server.bind, Server.lift, Server.ret, Server.throw, Server.send, Server.getEvents,
    Server.getEmails, Server.pushEvent, Server.setPage, field, get, is_str;
  cbn.

Lemma request_fields requestId name args :
  exists rest,
    wire (actionRequest requestId name args)
    = JObj (("type", JStr "action") :: ("id", JStr requestId) :: ("tool", JStr name) :: rest)
    /\ lookup_field "args" rest = match args with JUndef => JUndef | _ => wire args end.
Proof.
  destruct args; eexists; (split; [reflexivity|]); reflexivity.
Qed.


(** The backend has no branch for a tool outside the catalog: it answers
    with the initial [{status: 'success'}]. *)
Lemma unknown_tool_reply dateNow shot requestId name args st :
  requestId <> "" -> ~ In name catalog ->
  handle dateNow shot (request requestId name args) st
  = (st, toolResult requestId Server.success :: screenshots shot).
Proof.
  intros Hid Hname.
  destruct (request_fields requestId name args) as (rest & Hw & _).
  unfold request. rewrite Hw. server_eval.
  assert (E : forall lit, In lit catalog -> String.eqb name lit = false).
  { intros lit Hin. apply String.eqb_neq. intros ->. contradiction. }
  rewrite !E by (simpl; tauto). server_eval.
  rewrite (proj2 (String.eqb_neq requestId "") Hid). server_eval.
  destruct st as [ev em pg]. destruct shot; reflexivity.
Qed.




Lemma wire_strings l : map (fun x => match x with JUndef => JNull | _ => wire x end) (map JStr l) = map JStr l.
Proof. induction l as [|x l IH]; simpl; [reflexivity | now rewrite IH]. Qed.

(** A booking over the bridge: the new event is appended to the backend's
    collection and the reply carries the request's id and
    [{status: 'success', bookedEvent}]. *)
Lemma bookMeeting_reply dateNow shot requestId title time attendees st :
  requestId <> "" ->
  let args := JObj [("title", JStr title); ("time", JStr time); ("attendees", JStr attendees)] in
  let e := newEvent dateNow title time attendees in
  handle dateNow shot (request requestId "bookMeeting" args) st
  = ({| Server.currentEvents := Server.currentEvents st ++ [e];
        Server.currentEmails := Server.currentEmails st;
        Server.page := Server.ViewCalendar (Server.currentEvents st ++ [e]) |},
     [JObj [("type", JStr "log");
            ("message", JStr ("Booked meeting: "
                              +:+ (if String.eqb title "" then "New Meeting" else title)))];
      JObj [("type", JStr "tool_result"); ("id", JStr requestId);
            ("result", JObj [("status", JStr "success"); ("bookedEvent", e)])]]
     ++ screenshots shot).
Proof.
  intros Hid args e. subst e. unfold request, args, newEvent.
  pose proof (proj2 (String.eqb_neq requestId "") Hid) as Hr.
  server_eval. unfold Server.attendeesOf, or_else, truthy.
  destruct (String.eqb title ""), (String.eqb time ""), (String.eqb attendees "");
    cbn; unfold truthy; rewrite Hr; cbn; rewrite ?wire_strings;
    destruct shot; reflexivity.
Qed.

End Replies.
End BackendFacts.

(* ===================================================================== *)
(** * The activity log *)
(* ===================================================================== *)

Module HookTactics.
Import Hook.

(** Reduce the projections of an updated state, and nothing else. *)
Ltac proj :=
  cbn [ui audio_ bridge loop on_ui on_audio on_bridge on_loop
       connected volume logs browserState
       set_connected set_volume set_logs set_browserState
       isConnected url page isLoading screenshot calendarEvents emails
       set_isConnected set_url set_page set_isLoading set_screenshot navigate
       mediaStream inputCtx outputCtx processor currentTime nextStartTime sources
       nextSource started
       set_mediaStream set_contexts set_processor set_currentTime set_nextStartTime
       set_sources set_started set_nextSource
       sockets attempts browserWs reconnectTimeout pendingRequests bridgeOut
       set_sockets set_attempts set_browserWs set_reconnectTimeout set_pendingRequests
       set_bridgeOut
       now timers nextTimer promises nextPromise randCalls settling resolved dispatched
       session sessionOut
       set_now set_timers set_nextTimer set_promises set_nextPromise set_randCalls
       set_settling set_resolved set_dispatched set_session set_sessionOut
       fst snd tid due action].

Ltac proj_in H :=
  cbn [ui audio_ bridge loop on_ui on_audio on_bridge on_loop
       connected volume logs browserState
       set_connected set_volume set_logs set_browserState
       isConnected url page isLoading screenshot calendarEvents emails
       set_isConnected set_url set_page set_isLoading set_screenshot navigate
       mediaStream inputCtx outputCtx processor currentTime nextStartTime sources
       nextSource started
       set_mediaStream set_contexts set_processor set_currentTime set_nextStartTime
       set_sources set_started set_nextSource
       sockets attempts browserWs reconnectTimeout pendingRequests bridgeOut
       set_sockets set_attempts set_browserWs set_reconnectTimeout set_pendingRequests
       set_bridgeOut
       now timers nextTimer promises nextPromise randCalls settling resolved dispatched
       session sessionOut
       set_now set_timers set_nextTimer set_promises set_nextPromise set_randCalls
       set_settling set_resolved set_dispatched set_session set_sessionOut
       fst snd tid due action] in H.

(** Unfold the primitive updates, then reduce the projections. *)
Ltac flat :=
  unfold addLog, setBrowserState, setConnected, setVolume, sendToSession, setReadyState,
    setNow, unregister, resolve, newPromise, setTimeout, clearTimeout, pending_delete,
    enqueue_finish, onSourceEnded;
  proj.

(** Unfold the handlers down to field updates. *)
Ltac handlers :=
  unfold handler, fire, onTimeout, onSimulate, simulate, onDecoded, onSourceEnded,
    onUserMedia, connect, disconnect, onaudioprocess, session_onmessage,
    session_onopen, session_onclose, session_onerror, ws_onopen, ws_onclose,
    ws_onmessage, connectToBrowser, tool_loop, audio_part, enqueue_begin,
    enqueue_finish, executeTool, pending_get, pending_delete, sendToSession,
    resolve, unregister, newPromise, setTimeout, clearTimeout, setReadyState,
    setNow, setConnected, setVolume, setBrowserState.

End HookTactics.

Module ActivityLog.
Import JS JSNum Hook HookTactics.

Section Log.

Variable ToString : value -> string.
Variable mathRandomId : nat -> string.
Variable webSocketThrows : nat -> bool.

Local Abbreviation step := (Hook.step ToString mathRandomId webSocketThrows).
Local Abbreviation run := (Hook.run ToString mathRandomId webSocketThrows).
Local Abbreviation handler := (Hook.handler ToString mathRandomId webSocketThrows).
Local Abbreviation drain := (Hook.drain mathRandomId).
Local Abbreviation mounted := (Hook.mounted webSocketThrows).

Definition bounded (st : State) : Prop := (length (logs (ui st)) <= 5)%nat.

Lemma slice_last4_length {A} (l : list A) : (length (slice_last4 l) <= 4)%nat.
Proof. unfold slice_last4. rewrite length_skipn. lia. Qed.

Lemma slice_last4_suffix {A} (l : list A) :
  exists dropped, l = dropped ++ slice_last4 l.
Proof. exists (firstn (length l - 4) l). unfold slice_last4. symmetry. apply firstn_skipn. Qed.

Lemma addLog_bounded m ty st : bounded (addLog m ty st).
Proof.
  unfold bounded, addLog. proj. rewrite length_app. simpl.
  pose proof (slice_last4_length (logs (ui st))). lia.
Qed.

Lemma bounded_same st st' : logs (ui st') = logs (ui st) -> bounded st -> bounded st'.
Proof. unfold bounded. now intros ->. Qed.

(** Every function of the hook changes the log through [addLog] only. *)
Ltac log_tac :=
  repeat first
    [ assumption
    | apply addLog_bounded
    | match goal with
      | |- bounded (if ?c then _ else _) => destruct c
      | |- bounded (match ?x with _ => _ end) => destruct x
      | |- bounded (let '(_, _) := ?x in _) => destruct x
      | |- bounded _ => (eapply bounded_same; [proj; reflexivity|])
      end ].

Lemma executeTool_bounded name args k st :
  bounded (executeTool mathRandomId name args k st).
Proof.
  unfold executeTool.
  destruct (openSocket _); unfold newPromise, setTimeout;
    (eapply bounded_same; [proj; reflexivity|]); apply addLog_bounded.
Qed.

Lemma tool_loop_bounded calls a st :
  bounded st -> bounded (tool_loop mathRandomId calls a st).
Proof.
  intros H. unfold tool_loop. destruct calls; [|apply executeTool_bounded].
  unfold audio_part, enqueue_begin, newPromise. log_tac.
Qed.

Lemma settle_bounded pv st : bounded st -> bounded (settle mathRandomId pv st).
Proof.
  intros H. unfold settle. destruct (promises (loop st) !! pv.1) as [k|]; [|assumption].
  destruct k; unfold run_kont; [|unfold unregister; log_tac ..].
  apply tool_loop_bounded. unfold sendToSession, unregister. log_tac.
Qed.

Lemma drain_bounded st : bounded st -> bounded (drain st).
Proof.
  intros H. unfold Hook.drain.
  assert (H0 : bounded (on_loop (set_settling []) st)) by log_tac.
  revert H0. generalize (on_loop (set_settling []) st).
  induction (settling (loop st)) as [|pv l IH]; intros s Hs; simpl; [assumption|].
  apply IH, settle_bounded, Hs.
Qed.

Lemma handler_bounded ev st st' :
  bounded st -> handler ev st = Some st' -> bounded st'.
Proof.
  intros H E. destruct ev; simpl in E.
  - destruct (find _ _) as [tm|]; [|discriminate]. injection E as <-.
    destruct (action tm); unfold fire.
    + unfold connectToBrowser, setTimeout, clearTimeout. log_tac.
    + unfold onTimeout, resolve, setBrowserState, clearTimeout. log_tac.
    + unfold onSimulate, simulate, resolve, unregister, setBrowserState, clearTimeout.
      repeat match goal with
             | |- context [if ?c then _ else _] => destruct c
             | |- context [match get ?a ?k with _ => _ end] => destruct (get a k)
             end; log_tac.
  - destruct (sockets _ !! s) as [[]|]; try discriminate. injection E as <-.
    unfold ws_onopen. log_tac.
  - destruct (sockets _ !! s) as [[]|]; try discriminate; injection E as <-;
      unfold ws_onclose, setTimeout, setBrowserState, setReadyState; log_tac.
  - destruct (sockets _ !! s) as [[]|]; try discriminate. injection E as <-.
    unfold ws_onmessage, pending_delete, resolve, setBrowserState.
    repeat match goal with
           | |- bounded (match ?x with _ => _ end) => destruct x
           | |- bounded (if ?c then _ else _) => destruct c
           end; log_tac.
  - injection E as <-. unfold connect, newPromise. log_tac.
  - destruct (promises _ !! p) as [[]|]; try discriminate. injection E as <-.
    unfold onUserMedia, setConnected, unregister. log_tac.
  - destruct (session _); [|discriminate]. injection E as <-.
    unfold session_onopen. log_tac.
  - destruct (session _); [|discriminate]. injection E as <-.
    unfold session_onmessage. destruct (toolCall m); [| assumption |].
    + apply (tool_loop_bounded [] (audio m) st H).
    + apply tool_loop_bounded, H.
  - destruct (session _); [|discriminate]. injection E as <-.
    unfold session_onclose. log_tac.
  - destruct (session _); [|discriminate]. injection E as <-.
    unfold session_onerror. log_tac.
  - destruct (processor _); [|discriminate]. injection E as <-.
    unfold onaudioprocess, sendToSession, setVolume. log_tac.
  - injection E as <-. log_tac.
  - destruct (promises _ !! p) as [[]|]; try discriminate. injection E as <-.
    unfold onDecoded, enqueue_finish, unregister. log_tac.
  - injection E as <-. unfold onSourceEnded. log_tac.
  - injection E as <-. unfold disconnect. log_tac.
Qed.

Lemma step_bounded te st st' : bounded st -> step te st = Some st' -> bounded st'.
Proof.
  unfold Hook.step. intros H E.
  destruct (deliverable _ _ _); [|discriminate].
  destruct (handler te.2 (setNow te.1 st)) as [s|] eqn:Eh; [|discriminate].
  injection E as <-. apply drain_bounded.
  eapply handler_bounded; [|exact Eh]. unfold setNow. log_tac.
Qed.

Lemma run_bounded evs : forall st st', bounded st -> run evs st = Some st' -> bounded st'.
Proof.
  induction evs as [|te evs IH]; intros st st' H E; simpl in E.
  - now injection E as <-.
  - destruct (step te st) as [s|] eqn:Es; [|discriminate].
    eapply IH; [|exact E]. eapply step_bounded; eassumption.
Qed.

Lemma mounted_bounded : bounded mounted.
Proof.
  unfold Hook.mounted, connectToBrowser, setTimeout.
  assert (bounded unmounted) by (unfold bounded; simpl; lia). log_tac.
Qed.

(** [prev.slice(-4)] is the whole list while it has at most four entries,
    and its last four entries from then on. *)
Lemma slice_last4_exact {A} (l : list A) :
  length (slice_last4 l) = Nat.min 4 (length l)
  /\ (forall i, (i < Nat.min 4 (length l))%nat ->
        nth_error (slice_last4 l) i = nth_error l (length l - Nat.min 4 (length l) + i)).
Proof.
  unfold slice_last4. split; [rewrite length_skipn; lia|].
  intros i Hi. rewrite nth_error_skipn. f_equal. lia.
Qed.

(** C10. [addLog] keeps exactly the four most recent earlier entries (all
    of them when there are fewer), in their order, and appends the new one,
    which is then the last: the new log is the old one without its first
    [length - 4] entries, followed by the new entry.  And whatever the hook
    has gone through since it mounted, the log holds at most five
    entries. *)
Theorem log_bounded :
  (forall m ty st,
      logs (ui (addLog m ty st))
      = slice_last4 (logs (ui st))
        ++ [{| timestamp := now (loop st); message := m; type := ty |}]
      /\ (exists older,
            logs (ui st) = older ++ slice_last4 (logs (ui st))
            /\ length older = (length (logs (ui st)) - 4)%nat)
      /\ length (slice_last4 (logs (ui st))) = Nat.min 4 (length (logs (ui st)))
      /\ (forall i, (i < Nat.min 4 (length (logs (ui st))))%nat ->
            nth_error (logs (ui (addLog m ty st))) i
            = nth_error (logs (ui st))
                (length (logs (ui st)) - Nat.min 4 (length (logs (ui st))) + i))
      /\ ((length (logs (ui st)) <= 4)%nat ->
            logs (ui (addLog m ty st))
            = logs (ui st) ++ [{| timestamp := now (loop st); message := m; type := ty |}])
      /\ length (logs (ui (addLog m ty st)))
         = Nat.min 5 (S (length (logs (ui st))))
      /\ last (logs (ui (addLog m ty st)))
         = Some {| timestamp := now (loop st); message := m; type := ty |})
  /\ (forall evs st, run evs mounted = Some st -> (length (logs (ui st)) <= 5)%nat).
Proof.
  split.
  - intros m ty st.
    assert (E : logs (ui (addLog m ty st))
                = slice_last4 (logs (ui st))
                  ++ [{| timestamp := now (loop st); message := m; type := ty |}])
      by reflexivity.
    destruct (slice_last4_exact (logs (ui st))) as [Hlen Hnth].
    split; [exact E|]. split.
    { exists (firstn (length (logs (ui st)) - 4) (logs (ui st))). split.
      - unfold slice_last4. symmetry. apply firstn_skipn.
      - rewrite length_firstn. lia. }
    split; [exact Hlen|]. split.
    { intros i Hi. rewrite E, nth_error_app1 by lia. apply Hnth, Hi. }
    split.
    { intros Hle. rewrite E. unfold slice_last4.
      replace (length (logs (ui st)) - 4)%nat with 0%nat by lia. reflexivity. }
    split; [rewrite E, length_app, Hlen; simpl; lia|].
    rewrite E. apply last_snoc.
  - intros evs st E. eapply run_bounded; [apply mounted_bounded | exact E].
Qed.

End Log.
End ActivityLog.

(* ===================================================================== *)
(** * The event loop: invariants and the claims about the bridge *)
(* ===================================================================== *)

Module EventLoop.
Import JS JSNum Hook HookTactics Protocol.

Section Loop.

Variable ToString : value -> string.
Variable mathRandomId : nat -> string.
Variable webSocketThrows : nat -> bool.

Local Abbreviation step := (Hook.step ToString mathRandomId webSocketThrows).
Local Abbreviation run := (Hook.run ToString mathRandomId webSocketThrows).
Local Abbreviation handler := (Hook.handler ToString mathRandomId webSocketThrows).
Local Abbreviation fire := (Hook.fire ToString mathRandomId webSocketThrows).
Local Abbreviation drain := (Hook.drain mathRandomId).
Local Abbreviation settle := (Hook.settle mathRandomId).
Local Abbreviation executeTool := (Hook.executeTool mathRandomId).
Local Abbreviation tool_loop := (Hook.tool_loop mathRandomId).
Local Abbreviation mounted := (Hook.mounted webSocketThrows).

Lemma run_snoc evs te st :
  run (evs ++ [te]) st
  = match run evs st with Some st' => step te st' | None => None end.
Proof.
  revert st. induction evs as [|e evs IH]; intros st; simpl.
  - destruct (step te st); reflexivity.
  - destruct (step e st); [apply IH | reflexivity].
Qed.

(** ** Timers *)

Record TimersOK (st : State) : Prop := {
  t_next : (1 <= nextTimer (loop st))%nat;
  t_tid : forall tm, In tm (timers (loop st)) ->
            (1 <= tid tm < nextTimer (loop st))%nat;
  t_uniq : forall tm tm', In tm (timers (loop st)) -> In tm' (timers (loop st)) ->
            tid tm = tid tm' -> tm = tm';
  t_due : forall tm, In tm (timers (loop st)) -> now (loop st) <= due tm;
  t_ref : forall id, reconnectTimeout (bridge st) = Some id ->
            (id < nextTimer (loop st))%nat
            /\ forall tm, In tm (timers (loop st)) -> tid tm = id -> action tm = TReconnect
}.

Lemma TimersOK_same st st' :
  timers (loop st') = timers (loop st) ->
  nextTimer (loop st') = nextTimer (loop st) ->
  now (loop st') = now (loop st) ->
  reconnectTimeout (bridge st') = reconnectTimeout (bridge st) ->
  TimersOK st -> TimersOK st'.
Proof.
  intros Ht Hn Hw Hr [H0 H1 H2 H3 H4].
  split; rewrite ?Ht, ?Hn, ?Hw, ?Hr; assumption.
Qed.

Ltac same_timers :=
  proj;
  match goal with
  | H : TimersOK ?s |- TimersOK _ => apply (TimersOK_same s); [proj; reflexivity .. | exact H]
  end.

Lemma TimersOK_setTimeout act delay st :
  0 <= delay -> TimersOK st -> TimersOK (setTimeout act delay st).2.
Proof.
  intros Hd [H0 H1 H2 H3 H4]. unfold setTimeout. split; proj.
  - lia.
  - intros tm [Hin | [<- | []]]%in_app_or; [apply H1 in Hin; lia | proj; lia].
  - intros tm tm' [Hin | [<- | []]]%in_app_or [Hin' | [<- | []]]%in_app_or; proj.
    + now apply H2.
    + apply H1 in Hin. lia.
    + apply H1 in Hin'. lia.
    + reflexivity.
  - intros tm [Hin | [<- | []]]%in_app_or; [now apply H3 | proj; lia].
  - intros id Hid. destruct (H4 id Hid) as [Hlt Hre]. split; [lia|].
    intros tm [Hin | [<- | []]]%in_app_or; [now apply Hre | proj; lia].
Qed.

Lemma TimersOK_clearTimeout id st : TimersOK st -> TimersOK (clearTimeout id st).
Proof.
  intros [H0 H1 H2 H3 H4]. unfold clearTimeout. split; proj.
  - assumption.
  - intros tm [Hin _]%filter_In. now apply H1.
  - intros tm tm' [Hin _]%filter_In [Hin' _]%filter_In. now apply H2.
  - intros tm [Hin _]%filter_In. now apply H3.
  - intros i Hi. destruct (H4 i Hi) as [Hlt Hre]. split; [assumption|].
    intros tm [Hin _]%filter_In. now apply Hre.
Qed.

(** [reconnectTimeoutRef.current = setTimeout(connectToBrowser, 3000)] *)
Definition scheduleReconnect (st : State) : State :=
  on_bridge (set_reconnectTimeout (Some (setTimeout TReconnect 3000 st).1))
            (setTimeout TReconnect 3000 st).2.

Lemma TimersOK_scheduleReconnect st : TimersOK st -> TimersOK (scheduleReconnect st).
Proof.
  intros H. pose proof (TimersOK_setTimeout TReconnect 3000 st ltac:(lia) H)
    as [H0 H1 H2 H3 H4].
  unfold scheduleReconnect. split; try assumption.
  proj. intros id [= <-]. unfold setTimeout. proj. split; [lia|].
  intros tm [Hin | [<- | []]]%in_app_or; [|reflexivity].
  intros E. destruct H as [_ Ht _ _ _]. apply Ht in Hin. lia.
Qed.

Lemma TimersOK_setNow t st :
  (forall tm, In tm (timers (loop st)) -> t <= due tm) ->
  TimersOK st -> TimersOK (setNow t st).
Proof.
  intros Ht [H0 H1 H2 H3 H4]. unfold setNow. split; proj; assumption.
Qed.

Lemma TimersOK_executeTool name args k st :
  TimersOK st -> TimersOK (executeTool name args k st).
Proof.
  intros H. unfold Hook.executeTool.
  destruct (openSocket _); unfold newPromise; proj;
    apply TimersOK_setTimeout; try lia; unfold addLog, setBrowserState; same_timers.
Qed.

Lemma TimersOK_tool_loop calls a st :
  TimersOK st -> TimersOK (tool_loop calls a st).
Proof.
  intros H. unfold Hook.tool_loop. destruct calls; [|now apply TimersOK_executeTool].
  unfold audio_part, enqueue_begin, newPromise.
  destruct a; try assumption. destruct (_ && _); [|assumption].
  same_timers.
Qed.

Lemma TimersOK_settle pv st : TimersOK st -> TimersOK (settle pv st).
Proof.
  intros H. unfold Hook.settle.
  destruct (promises (loop st) !! pv.1) as [k|]; [|assumption].
  destruct k; unfold run_kont, unregister; [|same_timers ..].
  apply TimersOK_tool_loop. unfold sendToSession. same_timers.
Qed.

Lemma fold_settle (P : State -> Prop) l :
  (forall pv st, P st -> P (settle pv st)) ->
  forall st, P st -> P (fold_left (fun s pv => settle pv s) l st).
Proof.
  intros HP. induction l as [|pv l IH]; intros st H; simpl; [assumption|].
  apply IH, HP, H.
Qed.

Lemma TimersOK_drain st : TimersOK st -> TimersOK (drain st).
Proof.
  intros H. unfold Hook.drain. apply fold_settle; [apply TimersOK_settle|].
  same_timers.
Qed.

Lemma find_timer id l tm :
  find (fun tm => Nat.eqb (tid tm) id) l = Some tm -> In tm l /\ tid tm = id.
Proof.
  intros H. apply find_some in H as [Hin Heq]. split; [assumption|].
  now apply Nat.eqb_eq.
Qed.

Lemma TimersOK_connectToBrowser st :
  TimersOK st -> TimersOK (connectToBrowser webSocketThrows st).
Proof.
  intros H. unfold connectToBrowser. destruct (webSocketThrows _).
  - apply (TimersOK_scheduleReconnect (on_bridge (set_attempts _) st)).
    same_timers.
  - same_timers.
Qed.

Lemma TimersOK_handler ev st st' :
  TimersOK st -> handler ev st = Some st' -> TimersOK st'.
Proof.
  intros H E. destruct ev; simpl in E.
  - destruct (find _ _) as [tm|]; [|discriminate]. injection E as <-.
    pose proof (TimersOK_clearTimeout id st H) as Hc.
    destruct (action tm); unfold Hook.fire.
    + now apply TimersOK_connectToBrowser.
    + unfold onTimeout. destruct (_ !! _); [|assumption].
      unfold resolve, setBrowserState. same_timers.
    + unfold onSimulate, simulate, resolve, unregister, setBrowserState, addLog.
      repeat match goal with
             | |- context [if ?c then _ else _] => destruct c
             | |- context [match get ?a ?k with _ => _ end] => destruct (get a k)
             end; same_timers.
  - destruct (sockets _ !! s) as [[]|]; try discriminate. injection E as <-.
    unfold ws_onopen.
    assert (H' : TimersOK (addLog "Connected to Browser Engine" success
                   (setBrowserState (set_isConnected true) (setReadyState s OPEN st))))
      by (unfold addLog, setBrowserState, setReadyState; same_timers).
    destruct (reconnectTimeout _) as [id|]; [|assumption].
    destruct (Nat.eqb id 0); [assumption|]. now apply TimersOK_clearTimeout.
  - assert (H' : TimersOK (scheduleReconnect
                   (setBrowserState (set_isConnected false) (setReadyState s CLOSED st)))).
    { apply TimersOK_scheduleReconnect. unfold setBrowserState, setReadyState.
      same_timers. }
    destruct (sockets _ !! s) as [[]|]; try discriminate; injection E as <-; exact H'.
  - destruct (sockets _ !! s) as [[]|]; try discriminate. injection E as <-.
    unfold ws_onmessage, pending_delete, resolve, setBrowserState, addLog.
    repeat match goal with
           | |- TimersOK (match ?x with _ => _ end) => destruct x
           | |- TimersOK (if ?c then _ else _) => destruct c
           end; try assumption; same_timers.
  - injection E as <-. unfold connect, newPromise, addLog.
    destruct (String.eqb _ _); same_timers.
  - destruct (promises _ !! p) as [[]|]; try discriminate. injection E as <-.
    unfold onUserMedia, setConnected, unregister, addLog.
    destruct o; [|destruct (_ || _)]; same_timers.
  - destruct (session _); [|discriminate]. injection E as <-.
    unfold session_onopen, setConnected, addLog. destruct (_ && _); same_timers.
  - destruct (session _); [|discriminate]. injection E as <-.
    unfold session_onmessage. destruct (toolCall m); [| assumption |].
    + apply (TimersOK_tool_loop [] (audio m) st H).
    + apply TimersOK_tool_loop, H.
  - destruct (session _); [|discriminate]. injection E as <-.
    unfold session_onclose, setConnected, addLog. same_timers.
  - destruct (session _); [|discriminate]. injection E as <-.
    unfold session_onerror, addLog. same_timers.
  - destruct (processor _); [|discriminate]. injection E as <-.
    unfold onaudioprocess, sendToSession, setVolume.
    destruct (session _); same_timers.
  - injection E as <-. same_timers.
  - destruct (promises _ !! p) as [[]|]; try discriminate. injection E as <-.
    unfold onDecoded, enqueue_finish, unregister. destruct duration; same_timers.
  - injection E as <-. unfold onSourceEnded. same_timers.
  - injection E as <-. unfold disconnect, setConnected, addLog. same_timers.
Qed.

Lemma deliverable_due t ev st tm :
  deliverable t ev st = true -> In tm (timers (loop st)) -> t <= due tm.
Proof.
  unfold deliverable. intros [_ H]%andb_prop Hin.
  assert (G : forallb (fun tm => t <? due tm) (timers (loop st)) = true -> t <= due tm).
  { intros F. rewrite forallb_forall in F. apply F in Hin. lia. }
  destruct ev; try (now apply G).
  destruct (find _ _) as [tm0|]; [|discriminate].
  apply andb_prop in H as [Hd F]. rewrite forallb_forall in F. apply F in Hin. lia.
Qed.

Lemma TimersOK_step te st st' : TimersOK st -> step te st = Some st' -> TimersOK st'.
Proof.
  unfold Hook.step. intros H E.
  destruct (deliverable _ _ _) eqn:D; [|discriminate].
  destruct (handler te.2 (setNow te.1 st)) as [s|] eqn:Eh; [|discriminate].
  injection E as <-. apply TimersOK_drain.
  eapply TimersOK_handler; [|exact Eh].
  apply TimersOK_setNow; [|assumption].
  intros tm. now apply deliverable_due with (ev := te.2).
Qed.

Lemma TimersOK_mounted : TimersOK mounted.
Proof.
  apply TimersOK_connectToBrowser. split; simpl; try lia; try contradiction.
  discriminate.
Qed.

Lemma TimersOK_run evs : forall st st', TimersOK st -> run evs st = Some st' -> TimersOK st'.
Proof.
  induction evs as [|te evs IH]; intros st st' H E; simpl in E.
  - now injection E as <-.
  - destruct (step te st) as [s|] eqn:Es; [|discriminate].
    eapply IH; [|exact E]. eapply TimersOK_step; eassumption.
Qed.

(** ** Microtasks *)

Definition quiet (st : State) : Prop := settling (loop st) = [].

Lemma quiet_same st st' : settling (loop st') = settling (loop st) -> quiet st -> quiet st'.
Proof. unfold quiet. now intros ->. Qed.

Ltac same_quiet :=
  proj;
  match goal with
  | H : quiet ?s |- quiet _ => apply (quiet_same s); [proj; reflexivity | exact H]
  end.

Lemma quiet_tool_loop calls a st : quiet st -> quiet (tool_loop calls a st).
Proof.
  intros H. unfold Hook.tool_loop, Hook.executeTool, audio_part, enqueue_begin,
    newPromise, setTimeout, addLog, setBrowserState.
  destruct calls; [destruct a; try assumption; destruct (_ && _); [|assumption]
                  | destruct (openSocket _)]; same_quiet.
Qed.

Lemma quiet_settle pv st : quiet st -> quiet (settle pv st).
Proof.
  intros H. unfold Hook.settle.
  destruct (promises (loop st) !! pv.1) as [k|]; [|assumption].
  destruct k; unfold run_kont, unregister; [|same_quiet ..].
  apply quiet_tool_loop. unfold sendToSession. same_quiet.
Qed.

Lemma quiet_drain st : quiet (drain st).
Proof.
  unfold Hook.drain. apply fold_settle; [apply quiet_settle | reflexivity].
Qed.

Lemma quiet_step te st st' : step te st = Some st' -> quiet st'.
Proof.
  unfold Hook.step. destruct (deliverable _ _ _); [|discriminate].
  destruct (handler _ _); [|discriminate]. intros [= <-]. apply quiet_drain.
Qed.

Lemma quiet_run evs : forall st st', quiet st -> run evs st = Some st' -> quiet st'.
Proof.
  induction evs as [|te evs IH]; intros st st' H E; simpl in E.
  - now injection E as <-.
  - destruct (step te st) as [s|] eqn:Es; [|discriminate].
    eapply IH; [|exact E]. eapply quiet_step; eassumption.
Qed.

Lemma quiet_mounted : quiet mounted.
Proof.
  unfold Hook.mounted, connectToBrowser, setTimeout.
  destruct (webSocketThrows _); reflexivity.
Qed.

(** ** The bridge and its reconnect timer *)

Definition isReconnect (tm : Timer) : bool :=
  match action tm with TReconnect => true | _ => false end.

Definition reconnectTimers (st : State) : list Timer :=
  List.filter isReconnect (timers (loop st)).

Definition closedSocket (o : option ReadyState) : Prop := o = None \/ o = Some CLOSED.

Definition allClosed (st : State) : Prop :=
  forall s, closedSocket (sockets (bridge st) !! s).

(** A socket is alive and no reconnect timer is. *)
Definition linked (st : State) : Prop :=
  exists s r,
    sockets (bridge st) !! s = Some r /\ r <> CLOSED
    /\ browserWs (bridge st) = Some s
    /\ (forall s', s' <> s -> closedSocket (sockets (bridge st) !! s'))
    /\ reconnectTimers st = [].

(** No socket is alive and exactly one reconnect timer is, the one the ref
    holds. *)
Definition retrying (st : State) : Prop :=
  allClosed st
  /\ exists tm, reconnectTimers st = [tm]
                /\ reconnectTimeout (bridge st) = Some (tid tm).

Record BridgeOK (st : State) : Prop := {
  b_fresh : forall s, (attempts (bridge st) <= s)%nat -> sockets (bridge st) !! s = None;
  b_mode : linked st \/ retrying st
}.

Lemma BridgeOK_same st st' :
  sockets (bridge st') = sockets (bridge st) ->
  attempts (bridge st') = attempts (bridge st) ->
  browserWs (bridge st') = browserWs (bridge st) ->
  reconnectTimeout (bridge st') = reconnectTimeout (bridge st) ->
  reconnectTimers st' = reconnectTimers st ->
  BridgeOK st -> BridgeOK st'.
Proof.
  intros Hs Ha Hw Hr Ht [H1 H2].
  split; unfold linked, retrying, allClosed in *; rewrite ?Hs, ?Ha, ?Hw, ?Hr, ?Ht; assumption.
Qed.

Ltac same_bridge :=
  proj;
  match goal with
  | H : BridgeOK ?s |- BridgeOK _ =>
      apply (BridgeOK_same s);
      [ proj; reflexivity | proj; reflexivity | proj; reflexivity | proj; reflexivity
      | unfold reconnectTimers; proj; rewrite ?List.filter_app; simpl; rewrite ?app_nil_r;
        reflexivity
      | exact H ]
  end.

Lemma BridgeOK_tool_loop calls a st : BridgeOK st -> BridgeOK (tool_loop calls a st).
Proof.
  intros H. unfold Hook.tool_loop, Hook.executeTool, audio_part, enqueue_begin,
    newPromise, setTimeout, addLog, setBrowserState.
  destruct calls; [destruct a; try assumption; destruct (_ && _); [|assumption]
                  | destruct (openSocket _)]; same_bridge.
Qed.

Lemma BridgeOK_settle pv st : BridgeOK st -> BridgeOK (settle pv st).
Proof.
  intros H. unfold Hook.settle.
  destruct (promises (loop st) !! pv.1) as [k|]; [|assumption].
  destruct k; unfold run_kont, unregister; [|same_bridge ..].
  apply BridgeOK_tool_loop. unfold sendToSession. same_bridge.
Qed.

Lemma BridgeOK_drain st : BridgeOK st -> BridgeOK (drain st).
Proof.
  intros H. unfold Hook.drain. apply fold_settle; [apply BridgeOK_settle|]. same_bridge.
Qed.

Lemma filter_comm {A} (f g : A -> bool) l :
  List.filter f (List.filter g l) = List.filter g (List.filter f l).
Proof.
  induction l as [|x l IH]; simpl; [reflexivity|].
  destruct (g x) eqn:G, (f x) eqn:F; simpl; rewrite ?G, ?F, IH; reflexivity.
Qed.

Lemma filter_all {A} (f : A -> bool) l :
  (forall x, In x l -> f x = true) -> List.filter f l = l.
Proof.
  induction l as [|x l IH]; intros H; simpl; [reflexivity|].
  rewrite (H x) by now left. f_equal. apply IH. intros y Hy. apply H. now right.
Qed.

Lemma reconnectTimers_clear id st :
  reconnectTimers (clearTimeout id st)
  = List.filter (fun tm => negb (Nat.eqb (tid tm) id)) (reconnectTimers st).
Proof. unfold reconnectTimers, clearTimeout. proj. apply filter_comm. Qed.

(** Removing a timer that is not a reconnect timer leaves those alone. *)
Lemma reconnectTimers_clear_other id tm st :
  TimersOK st -> In tm (timers (loop st)) -> tid tm = id -> isReconnect tm = false ->
  reconnectTimers (clearTimeout id st) = reconnectTimers st.
Proof.
  intros Hok Hin Hid Hno. rewrite reconnectTimers_clear. apply filter_all.
  intros tm' [Hin' Hre]%filter_In. apply negb_true_iff, Nat.eqb_neq. intros E.
  assert (tm' = tm) by (apply (t_uniq st Hok); [assumption .. | congruence]).
  subst tm'. congruence.
Qed.

(** The first attempt, and every later one: with no socket alive and no
    reconnect timer pending, [connectToBrowser] leaves exactly one of the
    two. *)
Lemma BridgeOK_connectToBrowser st :
  (forall s, (attempts (bridge st) <= s)%nat -> sockets (bridge st) !! s = None) ->
  allClosed st -> reconnectTimers st = [] ->
  BridgeOK (connectToBrowser webSocketThrows st).
Proof.
  intros Hfresh Hclosed Hnone. unfold connectToBrowser, setTimeout.
  destruct (webSocketThrows _); split; proj.
  - intros s Hs. apply Hfresh. lia.
  - right. split; [exact Hclosed|].
    unfold reconnectTimers in *. proj. rewrite List.filter_app, Hnone. simpl.
    eexists. split; reflexivity.
  - intros s Hs. rewrite lookup_insert_ne by lia. apply Hfresh. lia.
  - left. exists (attempts (bridge st)), CONNECTING. proj.
    split; [apply lookup_insert_eq|]. split; [discriminate|].
    split; [reflexivity|]. split; [|exact Hnone].
    intros s' Hs'. rewrite lookup_insert_ne by congruence. apply Hclosed.
Qed.

(** An alive socket is the one socket the bridge is linked through. *)
Lemma alive_linked s r st :
  BridgeOK st -> sockets (bridge st) !! s = Some r -> r <> CLOSED ->
  browserWs (bridge st) = Some s
  /\ (forall s', s' <> s -> closedSocket (sockets (bridge st) !! s'))
  /\ reconnectTimers st = [].
Proof.
  intros [_ [(s0 & r0 & H0 & Hr0 & Hw & Hothers & Hnone) | [Hclosed _]]] Hs Hr.
  - destruct (decide (s = s0)) as [-> | Hne]; [now repeat split|].
    destruct (Hothers s Hne) as [E | E]; rewrite E in Hs; congruence.
  - destruct (Hclosed s) as [E | E]; rewrite E in Hs; congruence.
Qed.

Lemma BridgeOK_close s st :
  BridgeOK st ->
  (exists r, sockets (bridge st) !! s = Some r /\ r <> CLOSED) ->
  BridgeOK (ws_onclose (setReadyState s CLOSED st))
  /\ exists tm, reconnectTimers (ws_onclose (setReadyState s CLOSED st)) = [tm]
       /\ reconnectTimeout (bridge (ws_onclose (setReadyState s CLOSED st))) = Some (tid tm)
       /\ due tm = now (loop st) + 3000.
Proof.
  intros H (r & Hs & Hr).
  destruct (alive_linked s r st H Hs Hr) as (Hw & Hothers & Hnone).
  assert (Ht : reconnectTimers (ws_onclose (setReadyState s CLOSED st))
               = [{| tid := nextTimer (loop st); due := now (loop st) + 3000;
                     action := TReconnect |}]).
  { unfold reconnectTimers in *. unfold ws_onclose, setTimeout, setBrowserState,
      setReadyState. proj. rewrite List.filter_app, Hnone. reflexivity. }
  split.
  - split.
    + intros s'. unfold ws_onclose, setTimeout, setBrowserState, setReadyState. proj.
      intros Hs'.
      assert (s < attempts (bridge st))%nat.
      { destruct (Nat.lt_ge_cases s (attempts (bridge st))) as [|Hge]; [assumption|].
        rewrite (b_fresh st H s Hge) in Hs. discriminate. }
      rewrite lookup_insert_ne by lia. now apply (b_fresh st H).
    + right. split.
      * intros s'. unfold ws_onclose, setTimeout, setBrowserState, setReadyState. proj.
        destruct (decide (s' = s)) as [-> | Hne].
        -- rewrite lookup_insert_eq. now right.
        -- rewrite lookup_insert_ne by congruence. now apply Hothers.
      * eexists. split; [exact Ht | reflexivity].
  - eexists. split; [exact Ht|]. split; reflexivity.
Qed.

Lemma BridgeOK_open s st :
  BridgeOK st -> sockets (bridge st) !! s = Some CONNECTING ->
  BridgeOK (ws_onopen (setReadyState s OPEN st))
  /\ reconnectTimers (ws_onopen (setReadyState s OPEN st)) = [].
Proof.
  intros H Hs.
  destruct (alive_linked s CONNECTING st H Hs ltac:(discriminate)) as (Hw & Hothers & Hnone).
  assert (Ht : reconnectTimers (ws_onopen (setReadyState s OPEN st)) = []).
  { unfold ws_onopen. proj.
    destruct (reconnectTimeout _) as [id|]; [destruct (Nat.eqb id 0)|];
      rewrite ?reconnectTimers_clear; unfold reconnectTimers in *;
      unfold addLog, setBrowserState, setReadyState; proj; rewrite Hnone; reflexivity. }
  split; [|exact Ht]. split.
  - intros s' Hs'.
    assert (s < attempts (bridge st))%nat.
    { destruct (Nat.lt_ge_cases s (attempts (bridge st))) as [|Hge]; [assumption|].
      rewrite (b_fresh st H s Hge) in Hs. discriminate. }
    assert (E : sockets (bridge (ws_onopen (setReadyState s OPEN st)))
                = <[s := OPEN]> (sockets (bridge st))).
    { unfold ws_onopen. proj.
      destruct (reconnectTimeout _) as [id|]; [destruct (Nat.eqb id 0)|]; reflexivity. }
    assert (Ea : attempts (bridge (ws_onopen (setReadyState s OPEN st)))
                 = attempts (bridge st)).
    { unfold ws_onopen. proj.
      destruct (reconnectTimeout _) as [id|]; [destruct (Nat.eqb id 0)|]; reflexivity. }
    rewrite E. rewrite Ea in Hs'. rewrite lookup_insert_ne by lia. now apply (b_fresh st H).
  - left. exists s, OPEN.
    assert (E : bridge (ws_onopen (setReadyState s OPEN st))
                = set_sockets (<[s := OPEN]> (sockets (bridge st))) (bridge st)).
    { unfold ws_onopen. proj.
      destruct (reconnectTimeout _) as [id|]; [destruct (Nat.eqb id 0)|]; reflexivity. }
    rewrite E. proj.
    split; [apply lookup_insert_eq|]. split; [discriminate|]. split; [exact Hw|].
    split; [|exact Ht].
    intros s' Hs'. rewrite lookup_insert_ne by congruence. now apply Hothers.
Qed.

Lemma BridgeOK_clear_other id tm st :
  TimersOK st -> BridgeOK st ->
  In tm (timers (loop st)) -> tid tm = id -> isReconnect tm = false ->
  BridgeOK (clearTimeout id st).
Proof.
  intros Hok H Hin Hid Hno.
  apply (BridgeOK_same st); try reflexivity; [|assumption].
  now apply reconnectTimers_clear_other with (tm := tm).
Qed.

(** The reconnect timer fires: the next attempt. *)
Lemma BridgeOK_reconnect id tm st :
  BridgeOK st -> In tm (timers (loop st)) -> tid tm = id -> action tm = TReconnect ->
  BridgeOK (connectToBrowser webSocketThrows (clearTimeout id st)).
Proof.
  intros H Hin Hid Hact.
  assert (Hre : In tm (reconnectTimers st)).
  { apply filter_In. split; [assumption|]. unfold isReconnect. now rewrite Hact. }
  destruct H as [Hfresh [(s & r & _ & _ & _ & _ & Hnone) | (Hclosed & tm0 & Hone & Href)]].
  - rewrite Hnone in Hre. contradiction.
  - apply BridgeOK_connectToBrowser.
    + exact Hfresh.
    + exact Hclosed.
    + rewrite reconnectTimers_clear, Hone. rewrite Hone in Hre.
      destruct Hre as [<- | []]. simpl. rewrite Hid, Nat.eqb_refl. reflexivity.
Qed.

Lemma BridgeOK_handler ev st st' :
  TimersOK st -> BridgeOK st -> handler ev st = Some st' -> BridgeOK st'.
Proof.
  intros Hok H E. destruct ev; simpl in E.
  - destruct (find _ _) as [tm|] eqn:Ef; [|discriminate]. injection E as <-.
    apply find_timer in Ef as [Hin Hid].
    destruct (action tm) eqn:Ea; unfold Hook.fire.
    + now apply BridgeOK_reconnect with (tm := tm).
    + assert (Hc : BridgeOK (clearTimeout id st)).
      { apply BridgeOK_clear_other with (tm := tm); try assumption.
        unfold isReconnect. now rewrite Ea. }
      unfold onTimeout. destruct (_ !! _); [|assumption].
      unfold resolve, setBrowserState. same_bridge.
    + assert (Hc : BridgeOK (clearTimeout id st)).
      { apply BridgeOK_clear_other with (tm := tm); try assumption.
        unfold isReconnect. now rewrite Ea. }
      unfold onSimulate, simulate, resolve, unregister, setBrowserState, addLog.
      repeat match goal with
             | |- context [if ?c then _ else _] => destruct c
             | |- context [match get ?a ?k with _ => _ end] => destruct (get a k)
             end; same_bridge.
  - destruct (sockets _ !! s) as [[]|] eqn:Es; try discriminate. injection E as <-.
    now apply BridgeOK_open.
  - assert (Hc : forall r, sockets (bridge st) !! s = Some r -> r <> CLOSED ->
                   BridgeOK (ws_onclose (setReadyState s CLOSED st))).
    { intros r Hs Hr. apply BridgeOK_close; [assumption | now exists r]. }
    destruct (sockets _ !! s) as [[]|] eqn:Es; try discriminate; injection E as <-;
      eapply Hc; try reflexivity; discriminate.
  - destruct (sockets _ !! s) as [[]|]; try discriminate. injection E as <-.
    unfold ws_onmessage, pending_delete, resolve, setBrowserState, addLog.
    repeat match goal with
           | |- BridgeOK (match ?x with _ => _ end) => destruct x
           | |- BridgeOK (if ?c then _ else _) => destruct c
           end; try assumption; same_bridge.
  - injection E as <-. unfold connect, newPromise, addLog.
    destruct (String.eqb _ _); same_bridge.
  - destruct (promises _ !! p) as [[]|]; try discriminate. injection E as <-.
    unfold onUserMedia, setConnected, unregister, addLog.
    destruct o; [|destruct (_ || _)]; same_bridge.
  - destruct (session _); [|discriminate]. injection E as <-.
    unfold session_onopen, setConnected, addLog. destruct (_ && _); same_bridge.
  - destruct (session _); [|discriminate]. injection E as <-.
    unfold session_onmessage. destruct (toolCall m); [| assumption |].
    + apply (BridgeOK_tool_loop [] (audio m) st H).
    + apply BridgeOK_tool_loop, H.
  - destruct (session _); [|discriminate]. injection E as <-.
    unfold session_onclose, setConnected, addLog. same_bridge.
  - destruct (session _); [|discriminate]. injection E as <-.
    unfold session_onerror, addLog. same_bridge.
  - destruct (processor _); [|discriminate]. injection E as <-.
    unfold onaudioprocess, sendToSession, setVolume.
    destruct (session _); same_bridge.
  - injection E as <-. same_bridge.
  - destruct (promises _ !! p) as [[]|]; try discriminate. injection E as <-.
    unfold onDecoded, enqueue_finish, unregister. destruct duration; same_bridge.
  - injection E as <-. unfold onSourceEnded. same_bridge.
  - injection E as <-. unfold disconnect, setConnected, addLog. same_bridge.
Qed.

Lemma BridgeOK_setNow t st : BridgeOK st -> BridgeOK (setNow t st).
Proof. intros H. unfold setNow. same_bridge. Qed.

Lemma BridgeOK_step te st st' :
  TimersOK st -> BridgeOK st -> step te st = Some st' -> BridgeOK st'.
Proof.
  unfold Hook.step. intros Hok H E.
  destruct (deliverable _ _ _) eqn:D; [|discriminate].
  destruct (handler te.2 (setNow te.1 st)) as [s|] eqn:Eh; [|discriminate].
  injection E as <-. apply BridgeOK_drain.
  eapply BridgeOK_handler; [| |exact Eh].
  - apply TimersOK_setNow; [|assumption].
    intros tm. now apply deliverable_due with (ev := te.2).
  - now apply BridgeOK_setNow.
Qed.

Lemma BridgeOK_mounted : BridgeOK mounted.
Proof.
  apply BridgeOK_connectToBrowser.
  - intros s _. apply lookup_empty.
  - intros s. left. apply lookup_empty.
  - reflexivity.
Qed.

(** Every state the mounted hook can reach. *)
Lemma reachable_ok evs :
  forall st, run evs mounted = Some st -> TimersOK st /\ BridgeOK st /\ quiet st.
Proof.
  induction evs as [|te evs IH] using rev_ind; intros st E.
  - injection E as <-. split; [apply TimersOK_mounted|].
    split; [apply BridgeOK_mounted | apply quiet_mounted].
  - rewrite run_snoc in E. destruct (run evs mounted) as [s|]; [|discriminate].
    destruct (IH s eq_refl) as (Ht & Hb & Hq).
    split; [eapply TimersOK_step; eassumption|].
    split; [eapply BridgeOK_step; eassumption | eapply quiet_step; eassumption].
Qed.

(** With no resolution waiting, the microtask phase changes nothing but the
    (already empty) queue. *)
Lemma drain_quiet st : quiet st -> drain st = on_loop (set_settling []) st.
Proof. unfold quiet, Hook.drain. now intros ->. Qed.

Lemma step_handler t ev st st' :
  step (t, ev) st = Some st' ->
  exists h, handler ev (setNow t st) = Some h /\ st' = drain h
            /\ deliverable t ev st = true.
Proof.
  unfold Hook.step. simpl. destruct (deliverable t ev st); [|discriminate].
  destruct (handler ev (setNow t st)) as [h|]; [|discriminate].
  intros [= <-]. now exists h.
Qed.

(** C6. In every state the mounted hook can reach: a close event of a
    bridge socket (a socket that failed to open closes too) marks the bridge
    disconnected and leaves exactly one reconnect timer, due a fixed 3
    seconds later, whatever happened before; an open event marks the bridge
    connected and leaves no reconnect timer pending; and an attempt that
    fails while the socket is being created again leaves exactly one
    reconnect timer due 3 seconds later. *)
Theorem reconnect_after_close (evs : list (Z * Event)) (st st' : State) (t : Z) (s : nat) :
  run evs mounted = Some st ->
  (step (t, EvWsClose s) st = Some st' ->
     isConnected (browserState (ui st')) = false
     /\ exists tm, reconnectTimers st' = [tm]
                   /\ due tm = t + 3000
                   /\ reconnectTimeout (bridge st') = Some (tid tm))
  /\ (step (t, EvWsOpen s) st = Some st' ->
        isConnected (browserState (ui st')) = true
        /\ reconnectTimers st' = [])
  /\ (forall id tm,
        step (t, EvTimer id) st = Some st' ->
        In tm (timers (loop st)) -> tid tm = id -> action tm = TReconnect ->
        webSocketThrows (attempts (bridge st)) = true ->
        exists tm', reconnectTimers st' = [tm']
                    /\ due tm' = t + 3000
                    /\ reconnectTimeout (bridge st') = Some (tid tm')).
Proof.
  intros Hrun. destruct (reachable_ok evs st Hrun) as (Hok & Hb & Hq).
  pose proof (BridgeOK_setNow t st Hb) as Hb'.
  assert (Hq' : quiet (setNow t st)) by (unfold setNow; same_quiet).
  split; [|split].
  - intros (h & Eh & -> & _)%step_handler. simpl in Eh.
    assert (Hh : h = ws_onclose (setReadyState s CLOSED (setNow t st))
                 /\ exists r, sockets (bridge (setNow t st)) !! s = Some r /\ r <> CLOSED).
    { destruct (sockets _ !! s) as [[]|] eqn:Es; try discriminate;
        injection Eh as <-; (split; [reflexivity|]); eexists; (split; [reflexivity|]);
        discriminate. }
    destruct Hh as [-> Halive].
    destruct (BridgeOK_close s (setNow t st) Hb' Halive) as (_ & tm & H1 & H2 & H3).
    rewrite drain_quiet by (unfold ws_onclose, setTimeout, setBrowserState, setReadyState;
                            same_quiet).
    split; [reflexivity|]. exists tm. split; [exact H1|]. split; [exact H3 | exact H2].
  - intros (h & Eh & -> & _)%step_handler. simpl in Eh.
    destruct (sockets _ !! s) as [[]|] eqn:Es; try discriminate. injection Eh as <-.
    destruct (BridgeOK_open s (setNow t st) Hb' Es) as (_ & H1).
    assert (Hq'' : quiet (ws_onopen (setReadyState s OPEN (setNow t st)))).
    { unfold ws_onopen.
      destruct (reconnectTimeout _) as [id|]; [destruct (Nat.eqb id 0)|];
        unfold clearTimeout, addLog, setBrowserState, setReadyState; same_quiet. }
    rewrite drain_quiet by exact Hq''.
    split; [|exact H1].
    unfold ws_onopen.
    destruct (reconnectTimeout _) as [id|]; [destruct (Nat.eqb id 0)|]; reflexivity.
  - intros id tm (h & Eh & -> & _)%step_handler Hin Hid Hact Hthrows. simpl in Eh.
    destruct (find _ _) as [tm0|] eqn:Ef; [|discriminate]. injection Eh as <-.
    apply find_timer in Ef as [Hin0 Hid0].
    assert (tm0 = tm).
    { apply (t_uniq st Hok); [exact Hin0 | exact Hin | congruence]. }
    subst tm0. rewrite Hact. unfold Hook.fire.
    assert (Hnone : reconnectTimers (clearTimeout id (setNow t st)) = []).
    { assert (Hre : In tm (reconnectTimers st)).
      { apply filter_In. split; [assumption|]. unfold isReconnect. now rewrite Hact. }
      rewrite reconnectTimers_clear.
      destruct Hb as [_ [(s0 & r & _ & _ & _ & _ & Hn) | (_ & tm1 & Hone & _)]].
      - rewrite Hn in Hre. contradiction.
      - change (reconnectTimers (setNow t st)) with (reconnectTimers st).
        rewrite Hone in *. destruct Hre as [<- | []]. simpl.
        rewrite Hid, Nat.eqb_refl. reflexivity. }
    assert (Hc : connectToBrowser webSocketThrows (clearTimeout id (setNow t st))
                 = scheduleReconnect
                     (on_bridge (set_attempts (S (attempts (bridge st))))
                        (clearTimeout id (setNow t st)))).
    { unfold connectToBrowser, scheduleReconnect, clearTimeout, setNow. proj.
      rewrite Hthrows. reflexivity. }
    rewrite Hc.
    rewrite drain_quiet by (unfold scheduleReconnect, setTimeout, clearTimeout; same_quiet).
    unfold reconnectTimers in *. unfold scheduleReconnect, setTimeout, clearTimeout, setNow.
    unfold clearTimeout, setNow in Hnone. proj_in Hnone. proj.
    rewrite List.filter_app, Hnone. simpl. eexists. split; [reflexivity|].
    split; reflexivity.
Qed.

(** ** Promises and pending requests *)

Record PromOK (st : State) : Prop := {
  p_prom : forall p k, promises (loop st) !! p = Some k -> (p < nextPromise (loop st))%nat;
  p_res : forall p v, In (p, v) (resolved (loop st)) -> (p < nextPromise (loop st))%nat;
  p_ids : map (fun d => d.1.2) (dispatched (loop st))
          = map mathRandomId (seq 0 (randCalls (loop st)));
  p_disp : forall p rid t0, In (p, rid, t0) (dispatched (loop st)) ->
             (p < nextPromise (loop st))%nat;
  p_disp_uniq : forall p rid t0 rid' t0',
      In (p, rid, t0) (dispatched (loop st)) -> In (p, rid', t0') (dispatched (loop st)) ->
      rid = rid' /\ t0 = t0';
  p_timeout : forall tm rid p, In tm (timers (loop st)) -> action tm = TTimeout rid p ->
      exists t0, In (p, rid, t0) (dispatched (loop st)) /\ due tm = t0 + 5000;
  p_pending : forall rid p, pendingRequests (bridge st) !! rid = Some p ->
      exists t0, In (p, rid, t0) (dispatched (loop st));
  p_sim : forall tm n a p, In tm (timers (loop st)) -> action tm = TSimulate n a p ->
      (p < nextPromise (loop st))%nat
      /\ forall rid t0, ~ In (p, rid, t0) (dispatched (loop st))
}.

Lemma PromOK_same st st' :
  promises (loop st') = promises (loop st) ->
  nextPromise (loop st') = nextPromise (loop st) ->
  resolved (loop st') = resolved (loop st) ->
  dispatched (loop st') = dispatched (loop st) ->
  randCalls (loop st') = randCalls (loop st) ->
  timers (loop st') = timers (loop st) ->
  pendingRequests (bridge st') = pendingRequests (bridge st) ->
  PromOK st -> PromOK st'.
Proof.
  intros E1 E2 E3 E4 E5 E6 E7 [H1 H2 H3 H4 H5 H6 H7 H8].
  split; rewrite ?E1, ?E2, ?E3, ?E4, ?E5, ?E6, ?E7; assumption.
Qed.

Ltac same_prom :=
  proj;
  match goal with
  | H : PromOK ?s |- PromOK _ => apply (PromOK_same s); [proj; reflexivity .. | exact H]
  end.

(** Peel one state update that leaves promises, timers and requests alone. *)
Ltac peel :=
  match goal with
  | |- PromOK (addLog _ _ ?x) => apply (PromOK_same x); [reflexivity ..|]
  | |- PromOK (setBrowserState _ ?x) => apply (PromOK_same x); [reflexivity ..|]
  | |- PromOK (setConnected _ ?x) => apply (PromOK_same x); [reflexivity ..|]
  | |- PromOK (setVolume _ ?x) => apply (PromOK_same x); [reflexivity ..|]
  | |- PromOK (sendToSession _ ?x) => apply (PromOK_same x); [reflexivity ..|]
  | |- PromOK (setReadyState _ _ ?x) => apply (PromOK_same x); [reflexivity ..|]
  | |- PromOK (setNow _ ?x) => apply (PromOK_same x); [reflexivity ..|]
  | |- PromOK (on_ui _ ?x) => apply (PromOK_same x); [reflexivity ..|]
  | |- PromOK (on_audio _ ?x) => apply (PromOK_same x); [reflexivity ..|]
  end.

Lemma PromOK_newPromise k st : PromOK st -> PromOK (newPromise k st).2.
Proof.
  intros [H1 H2 H3 H4 H5 H6 H7 H8]. unfold newPromise. split; proj; try assumption.
  - intros p k' Hp. destruct (decide (p = nextPromise (loop st))) as [-> | Hne]; [lia|].
    rewrite lookup_insert_ne in Hp by congruence. apply H1 in Hp. lia.
  - intros p v Hp. apply H2 in Hp. lia.
  - intros p rid t0 Hp. apply H4 in Hp. lia.
  - intros tm n a p Hin Ha. destruct (H8 tm n a p Hin Ha) as [Hlt Hno]. split; [lia | exact Hno].
Qed.

Lemma PromOK_unregister p st : PromOK st -> PromOK (unregister p st).
Proof.
  intros [H1 H2 H3 H4 H5 H6 H7 H8]. unfold unregister. split; proj; try assumption.
  intros q k Hq. destruct (decide (q = p)) as [-> | Hne].
  - rewrite lookup_delete_eq in Hq. discriminate.
  - rewrite lookup_delete_ne in Hq by congruence. now apply H1 in Hq.
Qed.

Lemma PromOK_resolve p v st :
  (p < nextPromise (loop st))%nat -> PromOK st -> PromOK (resolve p v st).
Proof.
  intros Hp [H1 H2 H3 H4 H5 H6 H7 H8]. unfold resolve. split; proj; try assumption.
  intros q w [Hin | [[= <- <-] | []]]%in_app_or; [now apply H2 in Hin | assumption].
Qed.

Lemma PromOK_clearTimeout id st : PromOK st -> PromOK (clearTimeout id st).
Proof.
  intros [H1 H2 H3 H4 H5 H6 H7 H8]. unfold clearTimeout. split; proj; try assumption.
  - intros tm rid p [Hin _]%filter_In. now apply H6.
  - intros tm n a p [Hin _]%filter_In. now apply H8.
Qed.

Lemma PromOK_setTimeout_reconnect delay st :
  PromOK st -> PromOK (setTimeout TReconnect delay st).2.
Proof.
  intros [H1 H2 H3 H4 H5 H6 H7 H8]. unfold setTimeout. split; proj; try assumption.
  - intros tm rid p [Hin | [<- | []]]%in_app_or; [now apply H6 | discriminate].
  - intros tm n a p [Hin | [<- | []]]%in_app_or; [now apply H8 | discriminate].
Qed.

Lemma PromOK_scheduleReconnect st : PromOK st -> PromOK (scheduleReconnect st).
Proof.
  intros H. apply (PromOK_same (setTimeout TReconnect 3000 st).2); try reflexivity.
  now apply PromOK_setTimeout_reconnect.
Qed.

Lemma PromOK_pending_delete rid st :
  PromOK st ->
  PromOK (on_bridge (fun b => set_pendingRequests (delete rid (pendingRequests b)) b) st).
Proof.
  intros [H1 H2 H3 H4 H5 H6 H7 H8]. split; proj; try assumption.
  intros r p Hr. destruct (decide (r = rid)) as [-> | Hne].
  - rewrite lookup_delete_eq in Hr. discriminate.
  - rewrite lookup_delete_ne in Hr by congruence. now apply H7.
Qed.

Lemma seq_snoc a n : seq a (S n) = seq a n ++ [(a + n)%nat].
Proof. apply seq_S. Qed.

Lemma PromOK_executeTool name args k st :
  PromOK st -> PromOK (executeTool name args k st).
Proof.
  intros H. unfold Hook.executeTool.
  assert (H0 : PromOK (setBrowserState (set_isLoading true)
                  (addLog ("Executing: " +:+ name) tool st))) by (repeat peel; exact H).
  revert H0. generalize (setBrowserState (set_isLoading true)
                           (addLog ("Executing: " +:+ name) tool st)).
  clear H st. intros st [H1 H2 H3 H4 H5 H6 H7 H8].
  destruct (openSocket st) as [s|]; unfold newPromise, setTimeout; split; proj.
  - intros p k' Hp. destruct (decide (p = nextPromise (loop st))) as [-> | Hne]; [lia|].
    rewrite lookup_insert_ne in Hp by congruence. apply H1 in Hp. lia.
  - intros p v Hp. apply H2 in Hp. lia.
  - rewrite map_app, H3, seq_snoc, map_app. reflexivity.
  - intros p rid t0 [Hin | [[= <- <- <-] | []]]%in_app_or; [apply H4 in Hin|]; lia.
  - intros p rid t0 rid' t0' [Hin | [[= <- <- <-] | []]]%in_app_or
                             [Hin' | [E | []]]%in_app_or.
    + now apply (H5 p rid t0 rid' t0').
    + injection E as <- <- <-. apply H4 in Hin. lia.
    + apply H4 in Hin'. lia.
    + injection E as <- <-. now split.
  - intros tm rid p [Hin | [<- | []]]%in_app_or Ha.
    + destruct (H6 tm rid p Hin Ha) as (t0 & Hd & Hdue).
      exists t0. split; [apply in_or_app; now left | exact Hdue].
    + proj_in Ha. injection Ha as <- <-. exists (now (loop st)).
      split; [apply in_or_app; right; now left | reflexivity].
  - intros rid p Hr. destruct (decide (rid = mathRandomId (randCalls (loop st)))) as [-> | Hne].
    + rewrite lookup_insert_eq in Hr. injection Hr as <-.
      exists (now (loop st)). apply in_or_app. right. now left.
    + rewrite lookup_insert_ne in Hr by congruence.
      destruct (H7 rid p Hr) as (t0 & Hd). exists t0. apply in_or_app. now left.
  - intros tm n a p [Hin | [<- | []]]%in_app_or Ha; [|discriminate].
    destruct (H8 tm n a p Hin Ha) as [Hlt Hno]. split; [lia|].
    intros rid t0 [Hd | [E | []]]%in_app_or; [now apply (Hno rid t0)|].
    injection E as E _ _. lia.
  - intros p k' Hp. destruct (decide (p = nextPromise (loop st))) as [-> | Hne]; [lia|].
    rewrite lookup_insert_ne in Hp by congruence. apply H1 in Hp. lia.
  - intros p v Hp. apply H2 in Hp. lia.
  - exact H3.
  - intros p rid t0 Hin. apply H4 in Hin. lia.
  - exact H5.
  - intros tm rid p [Hin | [<- | []]]%in_app_or Ha; [now apply (H6 tm) | discriminate].
  - exact H7.
  - intros tm n a p [Hin | [<- | []]]%in_app_or Ha.
    + destruct (H8 tm n a p Hin Ha) as [Hlt Hno]. split; [lia | exact Hno].
    + proj_in Ha. injection Ha as _ _ <-. split; [lia|].
      intros rid t0 Hd. apply H4 in Hd. lia.
Qed.

Lemma PromOK_tool_loop calls a st : PromOK st -> PromOK (tool_loop calls a st).
Proof.
  intros H. unfold Hook.tool_loop. destruct calls; [|now apply PromOK_executeTool].
  unfold audio_part, enqueue_begin. destruct a; try assumption.
  destruct (_ && _); [|assumption].
  apply PromOK_newPromise. peel. exact H.
Qed.

Lemma PromOK_settle pv st : PromOK st -> PromOK (settle pv st).
Proof.
  intros H. unfold Hook.settle.
  destruct (promises (loop st) !! pv.1) as [k|]; [|assumption].
  destruct k; unfold run_kont; try now apply PromOK_unregister.
  apply PromOK_tool_loop. peel. now apply PromOK_unregister.
Qed.

Lemma PromOK_drain st : PromOK st -> PromOK (drain st).
Proof.
  intros H. unfold Hook.drain. apply fold_settle; [apply PromOK_settle|]. same_prom.
Qed.

Lemma PromOK_connectToBrowser st :
  PromOK st -> PromOK (connectToBrowser webSocketThrows st).
Proof.
  intros H. unfold connectToBrowser. destruct (webSocketThrows _).
  - apply (PromOK_scheduleReconnect (on_bridge (set_attempts _) st)). same_prom.
  - same_prom.
Qed.

Lemma PromOK_onTimeout rid p st :
  (p < nextPromise (loop st))%nat -> PromOK st -> PromOK (onTimeout rid p st).
Proof.
  intros Hp H. unfold onTimeout. destruct (_ !! _); [|assumption].
  peel. apply PromOK_resolve; [exact Hp|]. now apply PromOK_pending_delete.
Qed.

Lemma PromOK_simulate name args st :
  PromOK st -> PromOK (simulate ToString name args st).1.
Proof.
  intros H. unfold simulate.
  repeat match goal with
         | |- context [if ?c then _ else _] => destruct c
         | |- context [match get ?a ?k with _ => _ end] => destruct (get a k)
         end; simpl; repeat peel; exact H.
Qed.

Lemma simulate_nextPromise name args st :
  nextPromise (loop (simulate ToString name args st).1) = nextPromise (loop st).
Proof.
  unfold simulate.
  repeat match goal with
         | |- context [if ?c then _ else _] => destruct c
         | |- context [match get ?a ?k with _ => _ end] => destruct (get a k)
         end; reflexivity.
Qed.

Lemma PromOK_onSimulate name args p st :
  (p < nextPromise (loop st))%nat -> PromOK st ->
  PromOK (onSimulate ToString name args p st).
Proof.
  intros Hp H. unfold onSimulate.
  pose proof (PromOK_simulate name args st H) as Hs.
  pose proof (simulate_nextPromise name args st) as Hn.
  destruct (simulate ToString name args st) as [s [r|]]; simpl in *.
  - apply PromOK_resolve; [lia | exact Hs].
  - now apply PromOK_unregister.
Qed.

Lemma PromOK_ws_onmessage payload st :
  PromOK st -> PromOK (ws_onmessage ToString payload st).
Proof.
  intros H. unfold ws_onmessage.
  destruct payload as [data|]; [|assumption].
  destruct (get data "type") as [ty|]; [|assumption].
  destruct (is_str ty "screenshot"); [peel; exact H|].
  destruct (is_str ty "url_change"); [peel; exact H|].
  destruct (is_str ty "log"); [peel; exact H|].
  destruct (_ && _); [|assumption].
  destruct (pending_get _ st) as [p|] eqn:Ep; [|assumption].
  unfold pending_get in Ep. unfold pending_delete.
  destruct (field data "id") as [| | | |rid| |]; try discriminate.
  apply PromOK_pending_delete. apply PromOK_resolve; [|exact H].
  destruct (p_pending st H rid p Ep) as (t0 & Hd). now apply (p_disp st H p rid t0).
Qed.

Lemma PromOK_handler ev st st' :
  PromOK st -> handler ev st = Some st' -> PromOK st'.
Proof.
  intros H E. destruct ev; simpl in E.
  - destruct (find _ _) as [tm|] eqn:Ef; [|discriminate]. injection E as <-.
    apply find_timer in Ef as [Hin Hid].
    pose proof (PromOK_clearTimeout id st H) as Hc.
    destruct (action tm) eqn:Ea; unfold Hook.fire.
    + now apply PromOK_connectToBrowser.
    + apply PromOK_onTimeout; [|exact Hc].
      destruct (p_timeout st H tm requestId promise Hin Ea) as (t0 & Hd & _).
      now apply (p_disp st H promise requestId t0).
    + apply PromOK_onSimulate; [|exact Hc].
      now destruct (p_sim st H tm name args promise Hin Ea).
  - destruct (sockets _ !! s) as [[]|]; try discriminate. injection E as <-.
    unfold ws_onopen.
    assert (H' : PromOK (addLog "Connected to Browser Engine" success
                   (setBrowserState (set_isConnected true) (setReadyState s OPEN st))))
      by (repeat peel; exact H).
    destruct (reconnectTimeout _) as [id|]; [|assumption].
    destruct (Nat.eqb id 0); [assumption|]. now apply PromOK_clearTimeout.
  - assert (H' : PromOK (scheduleReconnect
                   (setBrowserState (set_isConnected false) (setReadyState s CLOSED st)))).
    { apply PromOK_scheduleReconnect. repeat peel. exact H. }
    destruct (sockets _ !! s) as [[]|]; try discriminate; injection E as <-; exact H'.
  - destruct (sockets _ !! s) as [[]|]; try discriminate. injection E as <-.
    now apply PromOK_ws_onmessage.
  - injection E as <-. unfold connect.
    destruct (String.eqb _ _); [peel; exact H|].
    apply PromOK_newPromise. peel. exact H.
  - destruct (promises _ !! p) as [[]|]; try discriminate. injection E as <-.
    assert (H' : PromOK (unregister p st)) by now apply PromOK_unregister.
    unfold onUserMedia.
    destruct o; [|destruct (_ || _)]; repeat peel; try exact H'.
    apply (PromOK_same (unregister p st)); try reflexivity. exact H'.
  - destruct (session _); [|discriminate]. injection E as <-.
    unfold session_onopen. destruct (_ && _); repeat peel; exact H.
  - destruct (session _); [|discriminate]. injection E as <-.
    unfold session_onmessage. destruct (toolCall m); [| assumption |].
    + apply (PromOK_tool_loop [] (audio m) st H).
    + apply PromOK_tool_loop, H.
  - destruct (session _); [|discriminate]. injection E as <-.
    unfold session_onclose. repeat peel. exact H.
  - destruct (session _); [|discriminate]. injection E as <-.
    unfold session_onerror. peel. exact H.
  - destruct (processor _); [|discriminate]. injection E as <-.
    unfold onaudioprocess. destruct (session _); repeat peel; exact H.
  - injection E as <-. peel. exact H.
  - destruct (promises _ !! p) as [[]|]; try discriminate. injection E as <-.
    unfold onDecoded, enqueue_finish.
    destruct duration; repeat peel; now apply PromOK_unregister.
  - injection E as <-. unfold onSourceEnded. peel. exact H.
  - injection E as <-. unfold disconnect. repeat peel. exact H.
Qed.

Lemma PromOK_step te st st' : PromOK st -> step te st = Some st' -> PromOK st'.
Proof.
  unfold Hook.step. intros H E.
  destruct (deliverable _ _ _); [|discriminate].
  destruct (handler te.2 (setNow te.1 st)) as [s|] eqn:Eh; [|discriminate].
  injection E as <-. apply PromOK_drain.
  eapply PromOK_handler; [|exact Eh]. peel. exact H.
Qed.

Lemma PromOK_mounted : PromOK mounted.
Proof.
  apply PromOK_connectToBrowser. split; simpl; try contradiction; try reflexivity.
  - intros p k Hp. rewrite lookup_empty in Hp. discriminate.
  - intros rid p Hp. rewrite lookup_empty in Hp. discriminate.
Qed.

Lemma reachable_prom evs : forall st, run evs mounted = Some st -> PromOK st.
Proof.
  induction evs as [|te evs IH] using rev_ind; intros st E.
  - injection E as <-. apply PromOK_mounted.
  - rewrite run_snoc in E. destruct (run evs mounted) as [s|]; [|discriminate].
    eapply PromOK_step; [apply IH; reflexivity | exact E].
Qed.

(** ** Exactly-once resolution of bridge requests *)

(** How many times the resolve function of promise [p] has been called. *)
Definition count (p : nat) (st : State) : nat :=
  length (List.filter (fun e => Nat.eqb e.1 p) (resolved (loop st))).

(** Pairwise distinct strings. *)
Fixpoint distinctb (l : list string) : bool :=
  match l with
  | [] => true
  | x :: rest => negb (existsb (String.eqb x) rest) && distinctb rest
  end.

(** The request ids drawn so far are pairwise distinct. *)
Definition distinct (st : State) : Prop :=
  distinctb (map mathRandomId (seq 0 (randCalls (loop st)))) = true.

Definition inFlight (st : State) (p : nat) (rid : string) (t0 : Z) : Prop :=
  pendingRequests (bridge st) !! rid = Some p
  /\ (exists tm, In tm (timers (loop st)) /\ action tm = TTimeout rid p
                 /\ due tm = t0 + 5000)
  /\ count p st = 0%nat.

Definition settled (st : State) (p : nat) (rid : string) : Prop :=
  pendingRequests (bridge st) !! rid = None /\ count p st = 1%nat.

Definition Exact (st : State) : Prop :=
  forall p rid t0, In (p, rid, t0) (dispatched (loop st)) ->
    inFlight st p rid t0 \/ settled st p rid.

Lemma distinctb_app_l l l' : distinctb (l ++ l') = true -> distinctb l = true.
Proof.
  induction l as [|x l IH]; simpl; [reflexivity|].
  intros [Hx Hl]%andb_prop. rewrite (IH Hl), andb_true_r.
  apply negb_true_iff. apply negb_true_iff in Hx.
  rewrite existsb_app in Hx. now apply orb_false_elim in Hx as [-> _].
Qed.

Lemma distinctb_map_eq {A} (f : A -> string) l x y :
  distinctb (map f l) = true -> In x l -> In y l -> f x = f y -> x = y.
Proof.
  induction l as [|z l IH]; simpl; [contradiction|].
  intros [Hz Hl]%andb_prop [-> | Hx] [-> | Hy] E; try reflexivity.
  - exfalso. apply negb_true_iff in Hz.
    assert (existsb (String.eqb (f x)) (map f l) = true); [|congruence].
    apply existsb_exists. exists (f y). split; [now apply in_map|].
    now apply String.eqb_eq.
  - exfalso. apply negb_true_iff in Hz.
    assert (existsb (String.eqb (f y)) (map f l) = true); [|congruence].
    apply existsb_exists. exists (f x). split; [now apply in_map|].
    now apply String.eqb_eq.
  - now apply IH.
Qed.

Lemma distinct_mono st st' :
  (randCalls (loop st) <= randCalls (loop st'))%nat -> distinct st' -> distinct st.
Proof.
  unfold distinct. intros Hle H.
  replace (randCalls (loop st')) with (randCalls (loop st)
                                       + (randCalls (loop st') - randCalls (loop st)))%nat in H
    by lia.
  rewrite seq_app, map_app in H. now apply distinctb_app_l in H.
Qed.

(** Two dispatches with the same request id are the same dispatch. *)
Lemma same_request st p p' rid t0 t0' :
  PromOK st -> distinct st ->
  In (p, rid, t0) (dispatched (loop st)) -> In (p', rid, t0') (dispatched (loop st)) ->
  p = p' /\ t0 = t0'.
Proof.
  intros Hok Hd Hin Hin'. unfold distinct in Hd. rewrite <- (p_ids st Hok) in Hd.
  assert (E : (p, rid, t0) = (p', rid, t0')).
  { eapply distinctb_map_eq; [exact Hd | exact Hin | exact Hin' | reflexivity]. }
  injection E as -> ->. now split.
Qed.

Lemma Exact_same st st' :
  pendingRequests (bridge st') = pendingRequests (bridge st) ->
  timers (loop st') = timers (loop st) ->
  resolved (loop st') = resolved (loop st) ->
  dispatched (loop st') = dispatched (loop st) ->
  Exact st -> Exact st'.
Proof.
  intros E1 E2 E3 E4 H p rid t0. unfold inFlight, settled, count.
  rewrite E1, E2, E3, E4. apply H.
Qed.

Ltac peelx :=
  match goal with
  | |- Exact (addLog _ _ ?x) => apply (Exact_same x); [reflexivity ..|]
  | |- Exact (setBrowserState _ ?x) => apply (Exact_same x); [reflexivity ..|]
  | |- Exact (setConnected _ ?x) => apply (Exact_same x); [reflexivity ..|]
  | |- Exact (setVolume _ ?x) => apply (Exact_same x); [reflexivity ..|]
  | |- Exact (sendToSession _ ?x) => apply (Exact_same x); [reflexivity ..|]
  | |- Exact (setReadyState _ _ ?x) => apply (Exact_same x); [reflexivity ..|]
  | |- Exact (setNow _ ?x) => apply (Exact_same x); [reflexivity ..|]
  | |- Exact (unregister _ ?x) => apply (Exact_same x); [reflexivity ..|]
  | |- Exact (on_ui _ ?x) => apply (Exact_same x); [reflexivity ..|]
  | |- Exact (on_audio _ ?x) => apply (Exact_same x); [reflexivity ..|]
  | |- Exact (newPromise _ ?x).2 => apply (Exact_same x); [reflexivity ..|]
  end.

(** More timers do no harm. *)
Lemma Exact_setTimeout act delay st : Exact st -> Exact (setTimeout act delay st).2.
Proof.
  intros H p rid t0 Hin. destruct (H p rid t0 Hin) as [(Hp & (tm & Htm & Ha & Hd) & Hc) | Hs].
  - left. split; [exact Hp|]. split; [|exact Hc].
    exists tm. split; [|now split]. unfold setTimeout. proj. apply in_or_app. now left.
  - right. exact Hs.
Qed.

(** Removing timers that are no safety timeouts does no harm. *)
Lemma Exact_clearTimeout id st :
  (forall tm rid p, In tm (timers (loop st)) -> tid tm = id -> action tm <> TTimeout rid p) ->
  Exact st -> Exact (clearTimeout id st).
Proof.
  intros Hno H p rid t0 Hin. destruct (H p rid t0 Hin) as [(Hp & (tm & Htm & Ha & Hd) & Hc) | Hs].
  - left. split; [exact Hp|]. split; [|exact Hc].
    exists tm. split; [|now split]. unfold clearTimeout. proj.
    apply filter_In. split; [exact Htm|]. apply negb_true_iff, Nat.eqb_neq.
    intros E. now apply (Hno tm rid p Htm E).
  - right. exact Hs.
Qed.

Lemma count_resolve p q v st :
  count q (resolve p v st) = (count q st + if Nat.eqb p q then 1 else 0)%nat.
Proof.
  unfold count, resolve. proj. rewrite List.filter_app, length_app. simpl.
  destruct (Nat.eqb p q); reflexivity.
Qed.

(** A promise that no bridge request owns resolves: the requests do not
    notice. *)
Lemma Exact_resolve_other p v st :
  (forall rid t0, ~ In (p, rid, t0) (dispatched (loop st))) ->
  Exact st -> Exact (resolve p v st).
Proof.
  intros Hno H q rid t0 Hin.
  assert (Hne : Nat.eqb p q = false).
  { apply Nat.eqb_neq. intros ->. now apply (Hno rid t0). }
  unfold inFlight, settled. rewrite count_resolve, Hne, Nat.add_0_r. apply (H q rid t0 Hin).
Qed.

(** ** The number of ids drawn never decreases *)

Definition drawn (st : State) : nat := randCalls (loop st).

Ltac crack :=
  repeat match goal with
         | |- context [match ?x with _ => _ end] =>
             lazymatch x with
             | context [match _ with _ => _ end] => fail
             | _ => destruct x
             end
         end.

Lemma drawn_executeTool name args k st : (drawn st <= drawn (executeTool name args k st))%nat.
Proof.
  unfold drawn, Hook.executeTool, newPromise, setTimeout, addLog, setBrowserState.
  destruct (openSocket _); flat; lia.
Qed.

Lemma drawn_tool_loop calls a st : (drawn st <= drawn (tool_loop calls a st))%nat.
Proof.
  unfold Hook.tool_loop. destruct calls; [|apply drawn_executeTool].
  unfold drawn, audio_part, enqueue_begin, newPromise.
  destruct a; try lia. destruct (_ && _); flat; lia.
Qed.

Lemma drawn_settle pv st : (drawn st <= drawn (settle pv st))%nat.
Proof.
  unfold Hook.settle. destruct (promises (loop st) !! pv.1) as [k|]; [|lia].
  destruct k; unfold run_kont; try (unfold drawn, unregister; flat; lia).
  etransitivity; [|apply drawn_tool_loop]. unfold drawn, sendToSession, unregister. flat. lia.
Qed.

Lemma drawn_drain st : (drawn st <= drawn (drain st))%nat.
Proof.
  unfold Hook.drain.
  change (drawn st) with (drawn (on_loop (set_settling []) st)).
  generalize (on_loop (set_settling []) st).
  induction (settling (loop st)) as [|pv l IH]; intros s; simpl; [lia|].
  etransitivity; [apply (drawn_settle pv s) | apply IH].
Qed.

Lemma drawn_simulate name args st : drawn (simulate ToString name args st).1 = drawn st.
Proof.
  unfold simulate.
  repeat match goal with
         | |- context [if ?c then _ else _] => destruct c
         | |- context [match get ?a ?k with _ => _ end] => destruct (get a k)
         end; reflexivity.
Qed.

Lemma drawn_handler ev st st' : handler ev st = Some st' -> (drawn st <= drawn st')%nat.
Proof.
  intros E. destruct ev; simpl in E.
  - destruct (find _ _) as [tm|]; [|discriminate]. injection E as <-.
    destruct (action tm); unfold Hook.fire.
    + unfold drawn, connectToBrowser, setTimeout, clearTimeout.
      destruct (webSocketThrows _); flat; lia.
    + unfold drawn, onTimeout, resolve, setBrowserState, clearTimeout.
      destruct (_ !! _); flat; lia.
    + unfold onSimulate.
      pose proof (drawn_simulate name args (clearTimeout id st)) as Hs.
      destruct (simulate _ _ _ _) as [s [r|]]; simpl in Hs;
        unfold drawn, resolve, unregister, clearTimeout in *; proj; proj_in Hs; lia.
  - destruct (sockets _ !! s) as [[]|]; try discriminate. injection E as <-.
    unfold drawn, ws_onopen.
    destruct (reconnectTimeout _) as [i|]; [destruct (Nat.eqb i 0)|]; flat; lia.
  - destruct (sockets _ !! s) as [[]|]; try discriminate; injection E as <-;
      unfold drawn, ws_onclose, setTimeout, setBrowserState, setReadyState; flat; lia.
  - destruct (sockets _ !! s) as [[]|]; try discriminate. injection E as <-.
    unfold drawn, ws_onmessage, pending_delete, resolve, setBrowserState, addLog.
    crack; flat; lia.
  - injection E as <-. unfold drawn, connect, newPromise, addLog.
    destruct (String.eqb _ _); flat; lia.
  - destruct (promises _ !! p) as [[]|]; try discriminate. injection E as <-.
    unfold drawn, onUserMedia, setConnected, unregister, addLog.
    destruct o; [|destruct (_ || _)]; flat; lia.
  - destruct (session _); [|discriminate]. injection E as <-.
    unfold drawn, session_onopen, setConnected, addLog. destruct (_ && _); flat; lia.
  - destruct (session _); [|discriminate]. injection E as <-.
    unfold session_onmessage. destruct (toolCall m); [| lia |].
    + apply (drawn_tool_loop [] (audio m) st).
    + apply drawn_tool_loop.
  - destruct (session _); [|discriminate]. injection E as <-.
    unfold drawn, session_onclose, setConnected, addLog. flat. lia.
  - destruct (session _); [|discriminate]. injection E as <-.
    unfold drawn, session_onerror, addLog. flat. lia.
  - destruct (processor _); [|discriminate]. injection E as <-.
    unfold drawn, onaudioprocess, sendToSession, setVolume. destruct (session _); flat; lia.
  - injection E as <-. unfold drawn. flat. lia.
  - destruct (promises _ !! p) as [[]|]; try discriminate. injection E as <-.
    unfold drawn, onDecoded, enqueue_finish, unregister. destruct duration; flat; lia.
  - injection E as <-. unfold drawn, onSourceEnded. flat. lia.
  - injection E as <-. unfold drawn, disconnect, setConnected, addLog. flat. lia.
Qed.

Lemma drawn_step te st st' : step te st = Some st' -> (drawn st <= drawn st')%nat.
Proof.
  unfold Hook.step. destruct (deliverable _ _ _); [|discriminate].
  destruct (handler te.2 (setNow te.1 st)) as [h|] eqn:Eh; [|discriminate].
  intros [= <-]. etransitivity; [|apply drawn_drain].
  apply drawn_handler in Eh. exact Eh.
Qed.

(** ** The three ways a request changes state *)

Lemma count_fresh p st :
  (forall v, ~ In (p, v) (resolved (loop st))) -> count p st = 0%nat.
Proof.
  intros H. unfold count.
  destruct (List.filter _ _) as [|[q v] l] eqn:E; [reflexivity|].
  assert (Hin : In (q, v) (List.filter (fun e => Nat.eqb e.1 p) (resolved (loop st))))
    by (rewrite E; now left).
  apply filter_In in Hin as [Hin Hq]. simpl in Hq. apply Nat.eqb_eq in Hq. subst q.
  destruct (H v Hin).
Qed.

(** A matching reply arrives. *)
Lemma Exact_reply rid p v st :
  PromOK st -> distinct st -> Exact st ->
  pendingRequests (bridge st) !! rid = Some p ->
  Exact (pending_delete (JStr rid) (resolve p v st)).
Proof.
  intros Hok Hd H Hp q r t0 Hin.
  change (In (q, r, t0) (dispatched (loop st))) in Hin.
  destruct (p_pending st Hok rid p Hp) as (tp & Hdp).
  unfold inFlight, settled.
  change (pendingRequests (bridge (pending_delete (JStr rid) (resolve p v st))))
    with (delete rid (pendingRequests (bridge st))).
  change (timers (loop (pending_delete (JStr rid) (resolve p v st))))
    with (timers (loop st)).
  change (count q (pending_delete (JStr rid) (resolve p v st)))
    with (count q (resolve p v st)).
  rewrite count_resolve.
  destruct (decide (r = rid)) as [-> | Hne].
  - destruct (same_request st q p rid t0 tp Hok Hd Hin Hdp) as [-> ->].
    right. rewrite lookup_delete_eq, Nat.eqb_refl. split; [reflexivity|].
    destruct (H p rid tp Hdp) as [(_ & _ & ->) | [Hnone _]]; [reflexivity | congruence].
  - assert (Hq : Nat.eqb p q = false).
    { apply Nat.eqb_neq. intros ->.
      destruct (p_disp_uniq st Hok q r t0 rid tp Hin Hdp) as [E _]. congruence. }
    rewrite Hq, Nat.add_0_r, lookup_delete_ne by congruence. apply (H q r t0 Hin).
Qed.

(** The safety timeout of a request fires. *)
Lemma Exact_timeout id tm rid p st :
  TimersOK st -> PromOK st -> distinct st -> Exact st ->
  In tm (timers (loop st)) -> tid tm = id -> action tm = TTimeout rid p ->
  Exact (onTimeout rid p (clearTimeout id st)).
Proof.
  intros Ht Hok Hd H Htm Hid Ha q r t0 Hin.
  assert (Hin0 : In (q, r, t0) (dispatched (loop st))).
  { unfold onTimeout in Hin. destruct (_ !! _) in Hin; exact Hin. }
  clear Hin.
  destruct (p_timeout st Hok tm rid p Htm Ha) as (tp & Hdp & Hdue).
  (* the timer of another request survives *)
  assert (Hkeep : forall tm', In tm' (timers (loop st)) -> action tm' = TTimeout r q ->
                    r <> rid -> In tm' (timers (loop (clearTimeout id st)))).
  { intros tm' Hin' Ha' Hne. unfold clearTimeout. proj. apply filter_In.
    split; [exact Hin'|]. apply negb_true_iff, Nat.eqb_neq. intros E.
    assert (tm' = tm) by (apply (t_uniq st Ht); [assumption .. | congruence]).
    subst tm'. congruence. }
  unfold onTimeout.
  change (pendingRequests (bridge (clearTimeout id st))) with (pendingRequests (bridge st)).
  destruct (decide (r = rid)) as [-> | Hne].
  - destruct (same_request st q p rid t0 tp Hok Hd Hin0 Hdp) as [-> ->].
    destruct (H p rid tp Hdp) as [(Hp & _ & Hc) | [Hnone Hc]].
    + rewrite Hp. right. unfold settled.
      change (pendingRequests (bridge (setBrowserState (set_isLoading false)
                (resolve p timedOut
                   (on_bridge (fun b => set_pendingRequests (delete rid (pendingRequests b)) b)
                      (clearTimeout id st))))))
        with (delete rid (pendingRequests (bridge st))).
      change (count p (setBrowserState (set_isLoading false)
                (resolve p timedOut
                   (on_bridge (fun b => set_pendingRequests (delete rid (pendingRequests b)) b)
                      (clearTimeout id st)))))
        with (count p (resolve p timedOut st)).
      rewrite lookup_delete_eq, count_resolve, Nat.eqb_refl, Hc. now split.
    + rewrite Hnone. right. split; assumption.
  - assert (Hq : Nat.eqb p q = false).
    { apply Nat.eqb_neq. intros ->.
      destruct (p_disp_uniq st Hok q r t0 rid tp Hin0 Hdp) as [E _]. congruence. }
    destruct (pendingRequests (bridge st) !! rid) as [p'|] eqn:Ep.
    + unfold inFlight, settled.
      change (pendingRequests (bridge (setBrowserState (set_isLoading false)
                (resolve p timedOut
                   (on_bridge (fun b => set_pendingRequests (delete rid (pendingRequests b)) b)
                      (clearTimeout id st))))))
        with (delete rid (pendingRequests (bridge st))).
      change (count q (setBrowserState (set_isLoading false)
                (resolve p timedOut
                   (on_bridge (fun b => set_pendingRequests (delete rid (pendingRequests b)) b)
                      (clearTimeout id st)))))
        with (count q (resolve p timedOut st)).
      change (timers (loop (setBrowserState (set_isLoading false)
                (resolve p timedOut
                   (on_bridge (fun b => set_pendingRequests (delete rid (pendingRequests b)) b)
                      (clearTimeout id st))))))
        with (timers (loop (clearTimeout id st))).
      rewrite count_resolve, Hq, Nat.add_0_r, lookup_delete_ne by congruence.
      destruct (H q r t0 Hin0) as [(Hp & (tm' & Hin' & Ha' & Hd') & Hc) | Hs].
      * left. split; [exact Hp|]. split; [|exact Hc].
        exists tm'. split; [now apply Hkeep | now split].
      * right. exact Hs.
    + destruct (H q r t0 Hin0) as [(Hp & (tm' & Hin' & Ha' & Hd') & Hc) | Hs].
      * left. split; [exact Hp|]. split; [|exact Hc].
        exists tm'. split; [now apply Hkeep | now split].
      * right. exact Hs.
Qed.

(** A tool is dispatched. *)
Lemma Exact_executeTool name args k st :
  PromOK st -> distinct (executeTool name args k st) -> Exact st ->
  Exact (executeTool name args k st).
Proof.
  intros Hok Hd H.
  pose proof (PromOK_executeTool name args k st Hok) as Hok'.
  revert Hd Hok'. unfold Hook.executeTool.
  assert (H0 : Exact (setBrowserState (set_isLoading true)
                  (addLog ("Executing: " +:+ name) tool st))) by (repeat peelx; exact H).
  assert (Hok0 : PromOK (setBrowserState (set_isLoading true)
                  (addLog ("Executing: " +:+ name) tool st))) by (repeat peel; exact Hok).
  revert H0 Hok0. generalize (setBrowserState (set_isLoading true)
                                (addLog ("Executing: " +:+ name) tool st)).
  clear H Hok st. intros st H Hok.
  destruct (openSocket st) as [s|].
  - unfold newPromise. cbv beta iota zeta. intros Hd Hok' q r t0 Hin.
    set (st' := (setTimeout _ _ _).2) in *.
    assert (Hnew : In (nextPromise (loop st), mathRandomId (randCalls (loop st)), now (loop st))
                      (dispatched (loop st'))).
    { unfold st', setTimeout. proj. apply in_or_app. right. now left. }
    assert (Ecount : forall x, count x st' = count x st) by reflexivity.
    assert (Epend : pendingRequests (bridge st')
                    = <[mathRandomId (randCalls (loop st)) := nextPromise (loop st)]>
                        (pendingRequests (bridge st))) by reflexivity.
    assert (Etimers : timers (loop st')
                      = timers (loop st)
                        ++ [{| tid := nextTimer (loop st); due := now (loop st) + 5000;
                               action := TTimeout (mathRandomId (randCalls (loop st)))
                                                  (nextPromise (loop st)) |}]) by reflexivity.
    assert (Edisp : dispatched (loop st')
                    = dispatched (loop st)
                      ++ [(nextPromise (loop st), mathRandomId (randCalls (loop st)),
                           now (loop st))]) by reflexivity.
    unfold inFlight, settled. rewrite Ecount, Epend, Etimers.
    rewrite Edisp in Hin. apply in_app_or in Hin as [Hold | [E | []]].
    + assert (Hne : r <> mathRandomId (randCalls (loop st))).
      { intros ->.
        assert (Hin' : In (q, mathRandomId (randCalls (loop st)), t0) (dispatched (loop st')))
          by (rewrite Edisp; apply in_or_app; now left).
        destruct (same_request st' _ _ _ _ _ Hok' Hd Hin' Hnew) as [-> _].
        apply (p_disp st Hok) in Hold. lia. }
      rewrite lookup_insert_ne by congruence.
      destruct (H q r t0 Hold) as [(Hp & (tm' & Hin' & Ha' & Hd') & Hc) | Hs].
      * left. split; [exact Hp|]. split; [|exact Hc].
        exists tm'. split; [apply in_or_app; now left | now split].
      * right. exact Hs.
    + injection E as <- <- <-. left. rewrite lookup_insert_eq.
      split; [reflexivity|]. split.
      * eexists. split; [apply in_or_app; right; now left|]. split; reflexivity.
      * apply count_fresh. intros v Hv. apply (p_res st Hok) in Hv. lia.
  - intros _ _. apply Exact_setTimeout.
    apply (Exact_same st); try reflexivity. exact H.
Qed.

(** ** Exactly once, as long as the ids drawn are distinct *)

Definition Sound (st : State) : Prop := PromOK st /\ (distinct st -> Exact st).

Lemma Sound_tool_loop calls a st : Sound st -> Sound (tool_loop calls a st).
Proof.
  intros [Hok H]. split; [now apply PromOK_tool_loop|]. intros Hd.
  assert (Hd0 : distinct st) by (eapply distinct_mono; [apply drawn_tool_loop | exact Hd]).
  revert Hd. unfold Hook.tool_loop. destruct calls.
  - intros _. unfold audio_part, enqueue_begin. destruct a; auto.
    destruct (_ && _); auto.
  - intros Hd. apply Exact_executeTool; auto.
Qed.

Lemma Sound_settle pv st : Sound st -> Sound (settle pv st).
Proof.
  intros H. unfold Hook.settle.
  destruct (promises (loop st) !! pv.1) as [k|]; [|assumption].
  assert (H' : Sound (unregister pv.1 st)).
  { destruct H as [Hok H]. split; [now apply PromOK_unregister|].
    intros Hd. peelx. apply H. exact Hd. }
  destruct k; unfold run_kont; try exact H'.
  apply Sound_tool_loop. destruct H' as [Hok' H'']. split; [peel; exact Hok'|].
  intros Hd. peelx. apply H''. exact Hd.
Qed.

Lemma Sound_drain st : Sound st -> Sound (drain st).
Proof.
  intros [Hok H]. unfold Hook.drain. apply fold_settle; [apply Sound_settle|].
  split; [same_prom|]. intros Hd. apply (Exact_same st); try reflexivity. apply H. exact Hd.
Qed.

Lemma Exact_scheduleReconnect st : Exact st -> Exact (scheduleReconnect st).
Proof.
  intros H. apply (Exact_same (setTimeout TReconnect 3000 st).2); try reflexivity.
  now apply Exact_setTimeout.
Qed.

Lemma Exact_connectToBrowser st : Exact st -> Exact (connectToBrowser webSocketThrows st).
Proof.
  intros H. unfold connectToBrowser. destruct (webSocketThrows _).
  - apply (Exact_scheduleReconnect (on_bridge (set_attempts _) st)).
    apply (Exact_same st); try reflexivity. exact H.
  - apply (Exact_same st); try reflexivity. exact H.
Qed.

Lemma Exact_simulate name args st : Exact st -> Exact (simulate ToString name args st).1.
Proof.
  intros H. unfold simulate.
  repeat match goal with
         | |- context [if ?c then _ else _] => destruct c
         | |- context [match get ?a ?k with _ => _ end] => destruct (get a k)
         end; simpl; repeat peelx; exact H.
Qed.

Lemma simulate_dispatched name args st :
  dispatched (loop (simulate ToString name args st).1) = dispatched (loop st).
Proof.
  unfold simulate.
  repeat match goal with
         | |- context [if ?c then _ else _] => destruct c
         | |- context [match get ?a ?k with _ => _ end] => destruct (get a k)
         end; reflexivity.
Qed.

(** The timer found under an id is the only timer with that id. *)
Lemma fired_only tm id st :
  TimersOK st -> In tm (timers (loop st)) -> tid tm = id ->
  (forall rid p, action tm <> TTimeout rid p) ->
  forall tm' rid p, In tm' (timers (loop st)) -> tid tm' = id -> action tm' <> TTimeout rid p.
Proof.
  intros Ht Hin Hid Hno tm' rid p Hin' Hid'.
  assert (tm' = tm) by (apply (t_uniq st Ht); [assumption .. | congruence]).
  subst tm'. apply Hno.
Qed.

Lemma Exact_handler ev st st' :
  TimersOK st -> PromOK st -> distinct st -> Exact st ->
  (forall m, ev <> EvSessionMessage m) ->
  handler ev st = Some st' -> Exact st'.
Proof.
  intros Ht Hok Hd H Hev E. destruct ev; simpl in E.
  - destruct (find _ _) as [tm|] eqn:Ef; [|discriminate]. injection E as <-.
    apply find_timer in Ef as [Hin Hid].
    destruct (action tm) eqn:Ea; unfold Hook.fire.
    + apply Exact_connectToBrowser. apply Exact_clearTimeout; [|exact H].
      apply (fired_only tm id st Ht Hin Hid). intros rid p. rewrite Ea. discriminate.
    + now apply Exact_timeout with (tm := tm).
    + assert (Hc : Exact (clearTimeout id st)).
      { apply Exact_clearTimeout; [|exact H].
        apply (fired_only tm id st Ht Hin Hid). intros rid p. rewrite Ea. discriminate. }
      unfold onSimulate.
      pose proof (Exact_simulate name args (clearTimeout id st) Hc) as Hs.
      pose proof (simulate_dispatched name args (clearTimeout id st)) as Hdisp.
      destruct (simulate _ _ _ _) as [s [r|]]; simpl in Hs, Hdisp.
      * apply Exact_resolve_other; [|exact Hs]. rewrite Hdisp.
        now destruct (p_sim st Hok tm name args promise Hin Ea).
      * peelx. exact Hs.
  - destruct (sockets _ !! s) as [[]|]; try discriminate. injection E as <-.
    unfold ws_onopen.
    assert (H' : Exact (addLog "Connected to Browser Engine" success
                   (setBrowserState (set_isConnected true) (setReadyState s OPEN st))))
      by (repeat peelx; exact H).
    destruct (reconnectTimeout _) as [id|] eqn:Er; [|assumption].
    destruct (Nat.eqb id 0); [assumption|]. apply Exact_clearTimeout; [|exact H'].
    intros tm rid p Hin Hid. destruct (t_ref st Ht id Er) as [_ Hre].
    rewrite (Hre tm Hin Hid). discriminate.
  - assert (H' : Exact (scheduleReconnect
                   (setBrowserState (set_isConnected false) (setReadyState s CLOSED st)))).
    { apply Exact_scheduleReconnect. repeat peelx. exact H. }
    destruct (sockets _ !! s) as [[]|]; try discriminate; injection E as <-; exact H'.
  - destruct (sockets _ !! s) as [[]|]; try discriminate. injection E as <-.
    unfold ws_onmessage.
    destruct payload as [data|]; [|assumption].
    destruct (get data "type") as [ty|]; [|assumption].
    destruct (is_str ty "screenshot"); [peelx; exact H|].
    destruct (is_str ty "url_change"); [peelx; exact H|].
    destruct (is_str ty "log"); [peelx; exact H|].
    destruct (_ && _); [|assumption].
    destruct (pending_get _ st) as [p|] eqn:Ep; [|assumption].
    unfold pending_get in Ep.
    destruct (field data "id") as [| | | |rid| |]; try discriminate.
    now apply Exact_reply.
  - injection E as <-. unfold connect.
    destruct (String.eqb _ _); repeat peelx; exact H.
  - destruct (promises _ !! p) as [[]|]; try discriminate. injection E as <-.
    unfold onUserMedia.
    destruct o; [|destruct (_ || _)]; repeat peelx;
      try (apply (Exact_same st); try reflexivity); exact H.
  - destruct (session _); [|discriminate]. injection E as <-.
    unfold session_onopen. destruct (_ && _); repeat peelx; exact H.
  - now destruct (Hev m).
  - destruct (session _); [|discriminate]. injection E as <-.
    unfold session_onclose. repeat peelx. exact H.
  - destruct (session _); [|discriminate]. injection E as <-.
    unfold session_onerror. peelx. exact H.
  - destruct (processor _); [|discriminate]. injection E as <-.
    unfold onaudioprocess. destruct (session _); repeat peelx; exact H.
  - injection E as <-. peelx. exact H.
  - destruct (promises _ !! p) as [[]|]; try discriminate. injection E as <-.
    unfold onDecoded, enqueue_finish.
    destruct duration; repeat peelx; exact H.
  - injection E as <-. unfold onSourceEnded. peelx. exact H.
  - injection E as <-. unfold disconnect. repeat peelx. exact H.
Qed.

Lemma Sound_handler ev st st' :
  TimersOK st -> Sound st -> handler ev st = Some st' -> Sound st'.
Proof.
  intros Ht [Hok H] E. split; [eapply PromOK_handler; eassumption|]. intros Hd'.
  assert (Hd : distinct st) by (eapply distinct_mono; [eapply drawn_handler|]; eassumption).
  destruct (match ev with EvSessionMessage m => Some m | _ => None end) as [m|] eqn:Em.
  - destruct ev; try discriminate. injection Em as ->. simpl in E.
    destruct (session _); [|discriminate]. injection E as <-.
    revert Hd'. unfold session_onmessage. destruct (toolCall m); auto.
    + apply (Sound_tool_loop [] (audio m) st). now split.
    + apply (Sound_tool_loop calls (audio m) st). now split.
  - eapply Exact_handler; try eassumption; auto.
    intros m ->. discriminate.
Qed.

Lemma Sound_step te st st' : TimersOK st -> Sound st -> step te st = Some st' -> Sound st'.
Proof.
  unfold Hook.step. intros Ht H E.
  destruct (deliverable _ _ _) eqn:D; [|discriminate].
  destruct (handler te.2 (setNow te.1 st)) as [s|] eqn:Eh; [|discriminate].
  injection E as <-. apply Sound_drain.
  eapply Sound_handler; [| |exact Eh].
  - apply TimersOK_setNow; [|assumption].
    intros tm. now apply deliverable_due with (ev := te.2).
  - destruct H as [Hok H]. split; [peel; exact Hok|]. intros Hd. peelx. apply H. exact Hd.
Qed.

Lemma Sound_mounted : Sound mounted.
Proof.
  split; [apply PromOK_mounted|]. intros _. apply Exact_connectToBrowser.
  intros p rid t0 [].
Qed.

(** Every request the hook has sent over the bridge is in flight or
    settled, as long as the ids drawn are distinct. *)
Lemma reachable_sound evs : forall st, run evs mounted = Some st -> Sound st.
Proof.
  induction evs as [|te evs IH] using rev_ind; intros st E.
  - injection E as <-. apply Sound_mounted.
  - rewrite run_snoc in E. destruct (run evs mounted) as [s|] eqn:Es; [|discriminate].
    eapply Sound_step; [| apply IH; reflexivity | exact E].
    now destruct (reachable_ok evs s Es).
Qed.

(** ** What the microtasks leave alone, and what only grows *)

Lemma resolved_tool_loop calls a st :
  resolved (loop (tool_loop calls a st)) = resolved (loop st).
Proof.
  unfold Hook.tool_loop, Hook.executeTool, audio_part, enqueue_begin.
  destruct calls; [destruct a; try reflexivity; destruct (_ && _); reflexivity|].
  destruct (openSocket _); reflexivity.
Qed.

Lemma resolved_settle pv st : resolved (loop (settle pv st)) = resolved (loop st).
Proof.
  unfold Hook.settle. destruct (promises (loop st) !! pv.1) as [k|]; [|reflexivity].
  destruct k; unfold run_kont; try reflexivity. now rewrite resolved_tool_loop.
Qed.

Lemma resolved_drain st : resolved (loop (drain st)) = resolved (loop st).
Proof.
  unfold Hook.drain.
  change (resolved (loop st)) with (resolved (loop (on_loop (set_settling []) st))).
  generalize (on_loop (set_settling []) st).
  induction (settling (loop st)) as [|pv l IH]; intros s; simpl; [reflexivity|].
  now rewrite IH, resolved_settle.
Qed.

Definition keeps (st st' : State) : Prop :=
  forall d, In d (dispatched (loop st)) -> In d (dispatched (loop st')).

Lemma keeps_same st st' : dispatched (loop st') = dispatched (loop st) -> keeps st st'.
Proof. intros E d. now rewrite E. Qed.

Lemma keeps_trans a b c : keeps a b -> keeps b c -> keeps a c.
Proof. intros H1 H2 d Hd. apply H2, H1, Hd. Qed.

Lemma keeps_tool_loop calls a st : keeps st (tool_loop calls a st).
Proof.
  unfold Hook.tool_loop, Hook.executeTool, audio_part, enqueue_begin.
  destruct calls; [destruct a; try (now apply keeps_same); destruct (_ && _);
                   now apply keeps_same|].
  destruct (openSocket _); [|now apply keeps_same].
  intros d Hd. unfold newPromise, setTimeout, addLog, setBrowserState. proj.
  apply in_or_app. now left.
Qed.

Lemma keeps_settle pv st : keeps st (settle pv st).
Proof.
  unfold Hook.settle. destruct (promises (loop st) !! pv.1) as [k|]; [|now apply keeps_same].
  destruct k; unfold run_kont; try now apply keeps_same.
  eapply keeps_trans; [|apply keeps_tool_loop]. now apply keeps_same.
Qed.

Lemma keeps_drain st : keeps st (drain st).
Proof.
  unfold Hook.drain.
  apply keeps_trans with (b := on_loop (set_settling []) st); [now apply keeps_same|].
  generalize (on_loop (set_settling []) st).
  induction (settling (loop st)) as [|pv l IH]; intros s; simpl; [now apply keeps_same|].
  eapply keeps_trans; [apply keeps_settle | apply IH].
Qed.

Lemma keeps_handler ev st st' : handler ev st = Some st' -> keeps st st'.
Proof.
  intros E. destruct ev; simpl in E.
  - destruct (find _ _) as [tm|]; [|discriminate]. injection E as <-.
    destruct (action tm); unfold Hook.fire.
    + unfold connectToBrowser. destruct (webSocketThrows _); now apply keeps_same.
    + unfold onTimeout. destruct (_ !! _); now apply keeps_same.
    + unfold onSimulate.
      pose proof (simulate_dispatched name args (clearTimeout id st)) as Hs.
      destruct (simulate _ _ _ _) as [s [r|]]; simpl in Hs; apply keeps_same; exact Hs.
  - destruct (sockets _ !! s) as [[]|]; try discriminate. injection E as <-.
    unfold ws_onopen.
    destruct (reconnectTimeout _) as [i|]; [destruct (Nat.eqb i 0)|]; now apply keeps_same.
  - destruct (sockets _ !! s) as [[]|]; try discriminate; injection E as <-;
      now apply keeps_same.
  - destruct (sockets _ !! s) as [[]|]; try discriminate. injection E as <-.
    unfold ws_onmessage, pending_delete. crack; now apply keeps_same.
  - injection E as <-. unfold connect. destruct (String.eqb _ _); now apply keeps_same.
  - destruct (promises _ !! p) as [[]|]; try discriminate. injection E as <-.
    unfold onUserMedia. destruct o; [|destruct (_ || _)]; now apply keeps_same.
  - destruct (session _); [|discriminate]. injection E as <-.
    unfold session_onopen. destruct (_ && _); now apply keeps_same.
  - destruct (session _); [|discriminate]. injection E as <-.
    unfold session_onmessage. destruct (toolCall m); [| now apply keeps_same |].
    + apply (keeps_tool_loop [] (audio m) st).
    + apply keeps_tool_loop.
  - destruct (session _); [|discriminate]. injection E as <-. now apply keeps_same.
  - destruct (session _); [|discriminate]. injection E as <-. now apply keeps_same.
  - destruct (processor _); [|discriminate]. injection E as <-.
    unfold onaudioprocess. destruct (session _); now apply keeps_same.
  - injection E as <-. now apply keeps_same.
  - destruct (promises _ !! p) as [[]|]; try discriminate. injection E as <-.
    unfold onDecoded. destruct duration; now apply keeps_same.
  - injection E as <-. now apply keeps_same.
  - injection E as <-. now apply keeps_same.
Qed.

Lemma keeps_step te st st' : step te st = Some st' -> keeps st st'.
Proof.
  unfold Hook.step. destruct (deliverable _ _ _); [|discriminate].
  destruct (handler te.2 (setNow te.1 st)) as [h|] eqn:Eh; [|discriminate].
  intros [= <-]. eapply keeps_trans; [|apply keeps_drain].
  apply keeps_handler in Eh. exact Eh.
Qed.

(** ** The bridge request, from dispatch to resolution *)

Definition timeoutTimer (st : State) (id : nat) (rid : string) (p : nat) : Prop :=
  exists tm, In tm (timers (loop st)) /\ tid tm = id /\ action tm = TTimeout rid p.

Lemma reply_handler rid r p st :
  rid <> "" -> pendingRequests (bridge st) !! rid = Some p ->
  ws_onmessage ToString (Some (toolResultMessage rid r)) st
  = pending_delete (JStr rid) (resolve p r st).
Proof.
  intros Hid Hp. unfold ws_onmessage, toolResultMessage, pending_get, field, get, truthy.
  cbn [lookup_field is_str String.eqb Ascii.eqb Bool.eqb andb orb].
  rewrite (proj2 (String.eqb_neq rid "") Hid). cbn [negb andb]. now rewrite Hp.
Qed.

Lemma late_reply_handler rid r st :
  pendingRequests (bridge st) !! rid = None ->
  ws_onmessage ToString (Some (toolResultMessage rid r)) st = st.
Proof.
  intros Hp. unfold ws_onmessage, toolResultMessage, pending_get, field, get.
  cbn [lookup_field is_str String.eqb Ascii.eqb Bool.eqb andb orb].
  rewrite Hp. now destruct (truthy (JStr rid)).
Qed.

(** C1, as the code has it. For every request sent over the connected
    bridge, provided the ids drawn so far are pairwise distinct: the resolve
    function is called at most once, and exactly once as soon as more than 5
    seconds have passed; a reply carrying the (non-empty) id that arrives
    while the request is unresolved arrives within the 5 seconds, resolves
    the promise with the result it carries and removes the entry; the safety
    timeout of an unresolved request fires 5 seconds after the dispatch,
    resolves the promise with [{status: 'error', message: 'Browser timed
    out'}], removes the entry and clears the loading indicator; and a reply
    or a timeout that comes after the resolution resolves nothing. *)
Theorem resolves_exactly_once (evs : list (Z * Event)) (st : State)
    (p : nat) (rid : string) (t0 : Z) :
  run evs mounted = Some st ->
  distinct st ->
  In (p, rid, t0) (dispatched (loop st)) ->
  ((count p st = 0%nat /\ inFlight st p rid t0)
   \/ (count p st = 1%nat /\ pendingRequests (bridge st) !! rid = None))
  /\ (t0 + 5000 < now (loop st) -> count p st = 1%nat)
  /\ (forall t s r st',
        rid <> "" -> count p st = 0%nat ->
        step (t, EvWsMessage s (Some (toolResultMessage rid r))) st = Some st' ->
        t < t0 + 5000
        /\ resolved (loop st') = resolved (loop st) ++ [(p, r)]
        /\ In (p, rid, t0) (dispatched (loop st'))
        /\ exists h, handler (EvWsMessage s (Some (toolResultMessage rid r))) (setNow t st)
                     = Some h
                     /\ st' = drain h
                     /\ pendingRequests (bridge h) !! rid = None)
  /\ (forall t id st',
        count p st = 0%nat -> timeoutTimer st id rid p ->
        step (t, EvTimer id) st = Some st' ->
        t = t0 + 5000
        /\ resolved (loop st') = resolved (loop st) ++ [(p, timedOut)]
        /\ In (p, rid, t0) (dispatched (loop st'))
        /\ exists h, handler (EvTimer id) (setNow t st) = Some h
                     /\ st' = drain h
                     /\ pendingRequests (bridge h) !! rid = None
                     /\ isLoading (browserState (ui h)) = false)
  /\ (forall t s r st',
        count p st = 1%nat ->
        step (t, EvWsMessage s (Some (toolResultMessage rid r))) st = Some st' ->
        resolved (loop st') = resolved (loop st))
  /\ (forall t id st',
        count p st = 1%nat -> timeoutTimer st id rid p ->
        step (t, EvTimer id) st = Some st' ->
        resolved (loop st') = resolved (loop st)).
Proof.
  intros Hrun Hd Hin.
  destruct (reachable_ok evs st Hrun) as (Ht & Hb & Hq).
  destruct (reachable_sound evs st Hrun) as [Hok Hex].
  pose proof (Hex Hd p rid t0 Hin) as Hstate.
  assert (Hzero : count p st = 0%nat -> inFlight st p rid t0).
  { intros Hc. destruct Hstate as [Hf | [_ Hc']]; [exact Hf | congruence]. }
  assert (Hone : count p st = 1%nat -> pendingRequests (bridge st) !! rid = None).
  { intros Hc. destruct Hstate as [(_ & _ & Hc') | [Hn _]]; [congruence | exact Hn]. }
  split; [|split; [|split; [|split; [|split]]]].
  - destruct Hstate as [Hf | [Hn Hc]]; [left | right]; [|now split].
    split; [now destruct Hf as (_ & _ & Hc) | exact Hf].
  - intros Hlate. destruct Hstate as [(_ & (tm & Htm & _ & Hdue) & _) | [_ Hc]]; [|exact Hc].
    apply (t_due st Ht) in Htm. lia.
  - intros t s r st' Hid Hc Hstep.
    destruct (Hzero Hc) as (Hp & (tm & Htm & _ & Hdue) & _).
    pose proof (keeps_step _ _ _ Hstep (p, rid, t0) Hin) as Hkept.
    destruct (step_handler _ _ _ _ Hstep) as (h & Eh & -> & Hdel).
    split.
    { unfold deliverable in Hdel. apply andb_prop in Hdel as [_ Hall].
      rewrite forallb_forall in Hall. apply Hall in Htm. lia. }
    pose proof Eh as Eh'. unfold Hook.handler in Eh. cbv beta iota in Eh.
    destruct (sockets _ !! s) as [[]|]; try discriminate.
    apply (f_equal (fun o => match o with Some x => x | None => h end)) in Eh.
    cbv beta iota in Eh. subst h.
    rewrite (reply_handler rid r p (setNow t st) Hid Hp) in *.
    split; [rewrite resolved_drain; reflexivity|]. split; [exact Hkept|].
    eexists. split; [exact Eh'|]. split; [reflexivity|].
    unfold pending_delete. proj. apply lookup_delete_eq.
  - intros t id st' Hc (tm & Htm & Hid & Ha) Hstep.
    destruct (Hzero Hc) as (Hp & _ & _).
    pose proof (keeps_step _ _ _ Hstep (p, rid, t0) Hin) as Hkept.
    destruct (step_handler _ _ _ _ Hstep) as (h & Eh & -> & Hdel).
    pose proof Eh as Eh'. unfold Hook.handler in Eh. cbv beta iota in Eh.
    destruct (find _ _) as [tm0|] eqn:Ef; [|discriminate]. injection Eh as <-.
    pose proof Ef as Ef'. apply find_timer in Ef' as [Hin0 Hid0].
    assert (tm0 = tm) by (apply (t_uniq st Ht); [assumption .. | congruence]). subst tm0.
    split.
    { unfold deliverable in Hdel. apply andb_prop in Hdel as [_ Hdel].
      change (timers (loop st)) with (timers (loop (setNow t st))) in Hdel.
      rewrite Ef in Hdel. apply andb_prop in Hdel as [Hdue _].
      destruct (p_timeout st Hok tm rid p Htm Ha) as (t0' & Hin' & Hdue').
      destruct (p_disp_uniq st Hok p rid t0 rid t0' Hin Hin') as [_ <-]. lia. }
    rewrite Ha in *. unfold Hook.fire, onTimeout in *.
    change (pendingRequests (bridge (clearTimeout id (setNow t st))))
      with (pendingRequests (bridge st)) in *.
    rewrite Hp in *.
    split; [rewrite resolved_drain; reflexivity|]. split; [exact Hkept|].
    eexists. split; [exact Eh'|]. split; [reflexivity|].
    split; [|reflexivity]. flat. apply lookup_delete_eq.
  - intros t s r st' Hc Hstep.
    destruct (step_handler _ _ _ _ Hstep) as (h & Eh & -> & _). unfold Hook.handler in Eh. cbv beta iota in Eh.
    destruct (sockets _ !! s) as [[]|]; try discriminate.
    apply (f_equal (fun o => match o with Some x => x | None => h end)) in Eh.
    cbv beta iota in Eh. subst h.
    rewrite late_reply_handler by (apply Hone, Hc).
    now rewrite resolved_drain.
  - intros t id st' Hc (tm & Htm & Hid & Ha) Hstep.
    destruct (step_handler _ _ _ _ Hstep) as (h & Eh & -> & _). unfold Hook.handler in Eh. cbv beta iota in Eh.
    destruct (find _ _) as [tm0|] eqn:Ef; [|discriminate]. injection Eh as <-.
    apply find_timer in Ef as [Hin0 Hid0].
    assert (tm0 = tm) by (apply (t_uniq st Ht); [assumption .. | congruence]). subst tm0.
    rewrite Ha. unfold Hook.fire, onTimeout.
    change (pendingRequests (bridge (clearTimeout id (setNow t st))))
      with (pendingRequests (bridge st)).
    rewrite (Hone Hc). now rewrite resolved_drain.
Qed.

(** ** Several calls in one tool-call event *)

Lemma executeTool_bridge name args k st s :
  openSocket st = Some s ->
  let st' := executeTool name args k st in
  let rid := mathRandomId (randCalls (loop st)) in
  let p := nextPromise (loop st) in
  bridgeOut (bridge st') = bridgeOut (bridge st) ++ [(s, wire (actionRequest rid name args))]
  /\ dispatched (loop st') = dispatched (loop st) ++ [(p, rid, now (loop st))]
  /\ sessionOut (loop st') = sessionOut (loop st)
  /\ pendingRequests (bridge st') = <[rid := p]> (pendingRequests (bridge st))
  /\ promises (loop st') = <[p := k]> (promises (loop st))
  /\ sockets (bridge st') = sockets (bridge st)
  /\ browserWs (bridge st') = browserWs (bridge st)
  /\ settling (loop st') = settling (loop st)
  /\ nextPromise (loop st') = S p
  /\ randCalls (loop st') = S (randCalls (loop st)).
Proof.
  intros Hs. unfold Hook.executeTool.
  change (openSocket (setBrowserState (set_isLoading true)
                        (addLog ("Executing: " +:+ name) tool st)))
    with (openSocket st).
  rewrite Hs. repeat split; reflexivity.
Qed.

Lemma openSocket_same st st' :
  sockets (bridge st') = sockets (bridge st) ->
  browserWs (bridge st') = browserWs (bridge st) ->
  openSocket st' = openSocket st.
Proof. intros E1 E2. unfold openSocket. now rewrite E1, E2. Qed.

Lemma audio_part_keeps a st :
  bridgeOut (bridge (audio_part a st)) = bridgeOut (bridge st)
  /\ dispatched (loop (audio_part a st)) = dispatched (loop st)
  /\ sessionOut (loop (audio_part a st)) = sessionOut (loop st).
Proof.
  unfold audio_part. destruct a; try (repeat split; reflexivity).
  destruct (_ && _); repeat split; reflexivity.
Qed.

(** The first call of a tool-call event over the open bridge, and the reply
    to it: handling the event dispatches the first call only; in the turn in which that call resolves, the
    response tagged with the call's own id and name and carrying the value
    it resolved with is handed to the session, and only then is the next
    call (if any) dispatched. *)
Theorem calls_dispatched_in_turn (evs : list (Z * Event)) (st st1 st2 : State)
    (t t' : Z) (m : LiveServerMessage) (fc : FunctionCall) (rest : list FunctionCall)
    (s s' : nat) (v : value) :
  let rid := mathRandomId (randCalls (loop st)) in
  let p := nextPromise (loop st) in
  run evs mounted = Some st ->
  toolCall m = FunctionCalls (fc :: rest) ->
  openSocket st = Some s ->
  rid <> "" ->
  step (t, EvSessionMessage m) st = Some st1 ->
  step (t', EvWsMessage s' (Some (toolResultMessage rid v))) st1 = Some st2 ->
  bridgeOut (bridge st1)
  = bridgeOut (bridge st) ++ [(s, wire (actionRequest rid (fc_name fc) (fc_args fc)))]
  /\ dispatched (loop st1) = dispatched (loop st) ++ [(p, rid, t)]
  /\ sessionOut (loop st1) = sessionOut (loop st)
  /\ sessionOut (loop st2)
     = sessionOut (loop st) ++ [ToolResponse (fc_id fc) (fc_name fc) v]
  /\ match rest with
     | next :: _ =>
         bridgeOut (bridge st2)
         = bridgeOut (bridge st1)
           ++ [(s, wire (actionRequest (mathRandomId (S (randCalls (loop st))))
                           (fc_name next) (fc_args next)))]
         /\ dispatched (loop st2)
            = dispatched (loop st1)
              ++ [(S p, mathRandomId (S (randCalls (loop st))), t')]
     | [] =>
         bridgeOut (bridge st2) = bridgeOut (bridge st1)
         /\ dispatched (loop st2) = dispatched (loop st1)
     end.
Proof.
  intros rid p Hrun Hm Hs Hrid Hstep1 Hstep2.
  destruct (reachable_ok evs st Hrun) as (_ & _ & Hq).
  (* the tool-call event *)
  destruct (step_handler _ _ _ _ Hstep1) as (h1 & Eh1 & -> & _).
  unfold Hook.handler in Eh1. cbv beta iota in Eh1.
  destruct (session (loop (setNow t st))); [|discriminate].
  apply (f_equal (fun o => match o with Some x => x | None => h1 end)) in Eh1.
  cbv beta iota in Eh1. subst h1.
  unfold session_onmessage in *. rewrite Hm in *. unfold Hook.tool_loop in *.
  cbv beta iota in *.
  set (h1 := executeTool (fc_name fc) (fc_args fc) (KToolLoop fc rest (audio m)) (setNow t st))
    in *.
  destruct (executeTool_bridge (fc_name fc) (fc_args fc) (KToolLoop fc rest (audio m))
              (setNow t st) s Hs)
    as (B1 & B2 & B3 & B4 & B5 & B6 & B7 & B8 & B9 & B10).
  fold h1 in B1, B2, B3, B4, B5, B6, B7, B8, B9, B10.
  assert (Hq1 : quiet h1) by (unfold quiet; rewrite B8; exact Hq).
  rewrite (drain_quiet h1 Hq1) in *.
  set (st1 := on_loop (set_settling []) h1) in *.
  (* the reply *)
  destruct (step_handler _ _ _ _ Hstep2) as (h2 & Eh2 & -> & _).
  unfold Hook.handler in Eh2. cbv beta iota in Eh2.
  destruct (sockets (bridge (setNow t' st1)) !! s') as [[]|]; try discriminate.
  apply (f_equal (fun o => match o with Some x => x | None => h2 end)) in Eh2.
  cbv beta iota in Eh2. subst h2.
  assert (Hp : pendingRequests (bridge (setNow t' st1)) !! rid = Some p).
  { change (pendingRequests (bridge (setNow t' st1))) with (pendingRequests (bridge h1)).
    rewrite B4. apply lookup_insert_eq. }
  rewrite (reply_handler rid v p (setNow t' st1) Hrid Hp).
  set (h2 := pending_delete (JStr rid) (resolve p v (setNow t' st1))).
  assert (Hset : settling (loop h2) = [(p, v)]) by reflexivity.
  assert (Hk : promises (loop (on_loop (set_settling []) h2)) !! p
               = Some (KToolLoop fc rest (audio m))).
  { change (promises (loop (on_loop (set_settling []) h2))) with (promises (loop h1)).
    rewrite B5. apply lookup_insert_eq. }
  assert (Ed : drain h2
               = Hook.tool_loop mathRandomId rest (audio m)
                   (sendToSession (ToolResponse (fc_id fc) (fc_name fc) v)
                      (unregister p (on_loop (set_settling []) h2)))).
  { assert (Hk' : promises (loop h1) !! p = Some (KToolLoop fc rest (audio m))) by exact Hk.
    unfold Hook.drain. rewrite Hset. simpl. unfold Hook.settle. simpl.
    rewrite Hk'. reflexivity. }
  rewrite Ed.
  set (x := sendToSession (ToolResponse (fc_id fc) (fc_name fc) v)
              (unregister p (on_loop (set_settling []) h2))).
  assert (X1 : bridgeOut (bridge x) = bridgeOut (bridge st1)) by reflexivity.
  assert (X2 : dispatched (loop x) = dispatched (loop st1)) by reflexivity.
  assert (X3 : sessionOut (loop x)
               = sessionOut (loop st) ++ [ToolResponse (fc_id fc) (fc_name fc) v]).
  { change (sessionOut (loop x))
      with (sessionOut (loop h1) ++ [ToolResponse (fc_id fc) (fc_name fc) v]).
    now rewrite B3. }
  assert (X4 : openSocket x = Some s).
  { rewrite <- Hs. apply openSocket_same.
    - change (sockets (bridge x)) with (sockets (bridge h1)). exact B6.
    - change (browserWs (bridge x)) with (browserWs (bridge h1)). exact B7. }
  assert (X5 : randCalls (loop x) = S (randCalls (loop st))) by exact B10.
  assert (X6 : nextPromise (loop x) = S p) by exact B9.
  split; [exact B1|]. split; [exact B2|]. split; [exact B3|].
  unfold Hook.tool_loop. destruct rest as [|next rest'].
  - destruct (audio_part_keeps (audio m) x) as (A1 & A2 & A3).
    rewrite A1, A2, A3, X1, X2, X3. repeat split; reflexivity.
  - destruct (executeTool_bridge (fc_name next) (fc_args next)
                (KToolLoop next rest' (audio m)) x s X4)
      as (C1 & C2 & C3 & _).
    rewrite C1, C2, C3, X1, X2, X3, X5, X6. repeat split; reflexivity.
Qed.

End Loop.
End EventLoop.

Module ScenarioFacts.
Import JS JSNum Hook Scenarios.

Example bridge_exchange_booking :
  option_map (fun hb => (results hb.1, view hb.1, sessionOut (loop hb.1),
                         length (Server.currentEvents hb.2)))
             (overBridge bookCall)
  = Some ([JObj [("status", JStr "success");
                 ("bookedEvent",
                  JObj [("id", JStr "1736935200000"); ("title", JStr "Sync");
                        ("time", JStr "3 PM");
                        ("attendees", JArr [JStr "Ann"; JStr "Bo"])])]],
          ("dashboard", JStr "about:blank", false),
          [ToolResponse (JStr "call-1") "bookMeeting"
             (JObj [("status", JStr "success");
                    ("bookedEvent",
                     JObj [("id", JStr "1736935200000"); ("title", JStr "Sync");
                           ("time", JStr "3 PM");
                           ("attendees", JArr [JStr "Ann"; JStr "Bo"])])])],
          3%nat).
Proof. vm_compute. reflexivity. Qed.

Example simulated_booking :
  option_map (fun st => (results st, view st, bridgeOut (bridge st))) (simulated bookCall)
  = Some ([JObj [("status", JStr "success"); ("booked", JStr "Sync")]],
          ("dashboard", JStr "about:blank", true), []).
Proof. vm_compute. reflexivity. Qed.

Example simulated_calendar :
  option_map (fun st => (results st, view st)) (simulated calendarCall)
  = Some ([JObj [("events", JArr [simEvent "Team Sync (Simulated)"])]],
          ("calendar", JStr "https://calendar.agent/view", false)).
Proof. vm_compute. reflexivity. Qed.

Example simulated_unknown :
  option_map results (simulated notesCall) = Some [toolNotFound].
Proof. vm_compute. reflexivity. Qed.

Example bridge_unknown :
  option_map (fun hb => results hb.1) (overBridge notesCall)
  = Some [JObj [("status", JStr "success")]].
Proof. vm_compute. reflexivity. Qed.

End ScenarioFacts.

(* ===================================================================== *)
(** * The tools, over the bridge and simulated *)
(* ===================================================================== *)

Module Tools.
Import JS JSNum Hook Protocol BackendFacts.

Section Catalog.

Variable ToString : value -> string.
Variable mathRandomId : nat -> string.

Local Abbreviation handle := (Server.handle ToString).
Local Abbreviation simulate := (Hook.simulate ToString).
Local Abbreviation executeTool := (Hook.executeTool mathRandomId).

(** Without an open socket, dispatching sends nothing and registers
    nothing: it only starts the 800 ms timer of the simulation. *)
Lemma simulation_dispatch name args k st :
  openSocket st = None ->
  let st' := executeTool name args k st in
  bridgeOut (bridge st') = bridgeOut (bridge st)
  /\ pendingRequests (bridge st') = pendingRequests (bridge st)
  /\ dispatched (loop st') = dispatched (loop st)
  /\ timers (loop st')
     = timers (loop st)
       ++ [{| tid := nextTimer (loop st); due := now (loop st) + 800;
              action := TSimulate name args (nextPromise (loop st)) |}]
  /\ isLoading (browserState (ui st')) = true.
Proof.
  intros Hs. unfold Hook.executeTool.
  change (openSocket (setBrowserState (set_isLoading true)
                        (addLog ("Executing: " +:+ name) tool st)))
    with (openSocket st).
  rewrite Hs. repeat split; reflexivity.
Qed.

(** The simulated result of a tool depends on its name and arguments only. *)
Lemma simulation_deterministic name args st st' :
  (simulate name args st).2 = (simulate name args st').2.
Proof.
  unfold Hook.simulate.
  repeat match goal with
         | |- context [if ?c then _ else _] => destruct c
         | |- context [match get ?a ?k with _ => _ end] => destruct (get a k)
         end; reflexivity.
Qed.

Definition shows (st : State) (p url_ : string) : Prop :=
  page (browserState (ui st)) = p
  /\ url (browserState (ui st)) = JStr url_
  /\ isLoading (browserState (ui st)) = false.

(** Four of the five simulated tools navigate. *)
Lemma simulation_navigates args st :
  shows (simulate "openCalendar" args st).1 "calendar" "https://calendar.agent/view"
  /\ shows (simulate "openEmail" args st).1 "email" "https://mail.agent/inbox"
  /\ shows (simulate "checkAvailability" args st).1 "calendar" "https://calendar.agent/view"
  /\ shows (simulate "sendEmail" args st).1 "email" "https://mail.agent/sent".
Proof.
  repeat split; try reflexivity;
    unfold Hook.simulate; simpl; destruct (get args "to"); reflexivity.
Qed.

(** The simulated booking echoes the title and touches neither the view nor
    the loading indicator. *)
Lemma simulation_booking args title st :
  get args "title" = Some title ->
  (simulate "bookMeeting" args st).2
  = Some (JObj [("status", JStr "success"); ("booked", title)])
  /\ browserState (ui (simulate "bookMeeting" args st).1) = browserState (ui st).
Proof.
  intros H. unfold Hook.simulate. simpl. rewrite H. split; reflexivity.
Qed.

(** A tool outside the catalog, simulated. *)
Lemma simulation_unknown name args st :
  ~ In name catalog ->
  (simulate name args st).2 = Some toolNotFound
  /\ isLoading (browserState (ui (simulate name args st).1)) = false.
Proof.
  intros Hname.
  assert (E : forall lit, In lit catalog -> String.eqb name lit = false).
  { intros lit Hin. apply String.eqb_neq. intros ->. contradiction. }
  unfold Hook.simulate. rewrite !E by (simpl; tauto). split; reflexivity.
Qed.


End Catalog.


(** C2: the code at a tool name outside the catalog. Simulated, the
    dispatch resolves with the "Tool not found" error; over the connected
    bridge the backend has no branch for the name and answers
    [{status: 'success'}], which is what the dispatch resolves with. *)
Theorem unknown_tool_succeeds_over_bridge :
  option_map Scenarios.results (Scenarios.simulated Scenarios.notesCall)
  = Some [toolNotFound]
  /\ option_map (fun hb => Scenarios.results hb.1) (Scenarios.overBridge Scenarios.notesCall)
     = Some [JObj [("status", JStr "success")]]
  /\ JObj [("status", JStr "success")] <> toolNotFound.
Proof.
  split; [vm_compute; reflexivity|]. split; [vm_compute; reflexivity|]. discriminate.
Qed.

(** C3: the code at a booking. Over the connected bridge the dispatch
    resolves with [{status, bookedEvent}], the event being the one the
    backend appended; simulated, it resolves with [{status, booked}], which
    has no [bookedEvent]. *)
Theorem simulated_booking_has_no_bookedEvent :
  (exists e,
      option_map (fun hb => (Scenarios.results hb.1, Server.currentEvents hb.2))
                 (Scenarios.overBridge Scenarios.bookCall)
      = Some ([JObj [("status", JStr "success"); ("bookedEvent", e)]],
              Server.currentEvents Server.initial ++ [e]))
  /\ option_map Scenarios.results (Scenarios.simulated Scenarios.bookCall)
     = Some [JObj [("status", JStr "success"); ("booked", JStr "Sync")]]
  /\ get (JObj [("status", JStr "success"); ("booked", JStr "Sync")]) "bookedEvent"
     = Some JUndef.
Proof.
  split; [eexists; vm_compute; reflexivity|].
  split; [vm_compute; reflexivity | reflexivity].
Qed.

(** C7: the code at a simulated booking. Nothing is sent over the bridge
    and the canned result comes back when the 800 ms timer fires, but the
    page and the url are the ones shown before the dispatch, and the loading
    indicator set by the dispatch is still on. *)
Theorem simulated_booking_leaves_view :
  option_map Scenarios.view (Scenarios.run Scenarios.sessionUp Scenarios.mounted)
  = Some ("dashboard", JStr "about:blank", false)
  /\ option_map (fun st => (Scenarios.view st, bridgeOut (bridge st), Scenarios.results st))
                (Scenarios.simulated Scenarios.bookCall)
     = Some (("dashboard", JStr "about:blank", true), [],
             [JObj [("status", JStr "success"); ("booked", JStr "Sync")]])
  /\ option_map Scenarios.view (Scenarios.simulated Scenarios.calendarCall)
     = Some ("calendar", JStr "https://calendar.agent/view", false).
Proof.
  split; [vm_compute; reflexivity|]. split; vm_compute; reflexivity.
Qed.

End Tools.

(* ===================================================================== *)
(** * The backend, message by message *)
(* ===================================================================== *)

Module BackendReplies.
Import JS Hook Protocol.

Section Replies.
Variable ToString : value -> string.
Local Abbreviation handle := (Server.handle ToString).

Ltac backend :=
  unfold Server.handle, Server.on_message, Server.finish, Server.resume, Server.reply,
    Server.bind, Server.lift, Server.ret, Server.throw, Server.send, Server.getEvents,
    Server.getEmails, Server.pushEvent, Server.setPage.

Ltac case_one :=
  match goal with
  | |- context [match ?x with _ => _ end] =>
      lazymatch x with
      | context [match _ with _ => _ end] => fail
      | _ => destruct x eqn:?
      end
  end.

Ltac cases := repeat first [ progress cbn -[truthy field is_str get wire Server.attendeesOf List.filter hasType In length forallb notice] | case_one ].


Lemma action_type data ty :
  get data "type" = Some ty -> is_str ty "action" = true ->
  is_str (field data "type") "action" = true.
Proof. intros H1 H2. unfold field. now rewrite H1. Qed.

(** X1. Whatever message arrives, the backend never changes its emails, and
    it changes its events only by appending one event whose id is the
    current time stamp, and only while handling a [bookMeeting] action. *)
Theorem backend_store_append_only dateNow shot message st :
  let st' := (handle dateNow shot message st).1 in
  Server.currentEmails st' = Server.currentEmails st
  /\ (Server.currentEvents st' = Server.currentEvents st
      \/ exists data e,
           message = Some data
           /\ is_str (field data "type") "action" = true
           /\ is_str (field data "tool") "bookMeeting" = true
           /\ field e "id" = JStr dateNow
           /\ Server.currentEvents st' = Server.currentEvents st ++ [e]).
Proof.
  backend. cases.
  all: split; [reflexivity|].
  all: try (left; reflexivity).
  all: right; eexists; eexists; repeat split;
    first [ eapply action_type; eassumption | assumption | reflexivity ].
Qed.

(** X2. A message that is not an action (or that cannot be parsed, or that
    is [null]) is ignored: nothing is sent and nothing changes. *)
Theorem backend_ignores_other_messages dateNow shot message st :
  match message with
  | Some data => is_str (field data "type") "action" = false
  | None => True
  end ->
  handle dateNow shot message st = (st, []).
Proof.
  destruct message as [data|]; [|reflexivity].
  intros H. backend. unfold field in H.
  destruct (get data "type") as [ty|]; [|reflexivity].
  cbn -[is_str]. rewrite H. reflexivity.
Qed.


Lemma get_object v k r : get v k = Some r -> forall k', get v k' = Some (field v k').
Proof. unfold field. destruct v; intros H k'; try discriminate H; reflexivity. Qed.

(** X3. A request the handler cannot get through is dropped without a
    trace: a booking or an email without [args], or a booking whose
    [attendees] is given and is not a string, makes the handler throw before
    anything is stored or sent; no [tool_result] and no screenshot follow. *)
Theorem unanswerable_request_is_silent dateNow shot data st :
  is_str (field data "type") "action" = true ->
  answerable data = false ->
  handle dateNow shot (Some data) st = (st, []).
Proof.
  intros Ha Hbad. backend. unfold field in Ha.
  destruct (get data "type") as [ty|]; [|discriminate].
  cbn -[truthy field is_str get wire Server.attendeesOf]. rewrite Ha.
  unfold answerable in Hbad.
  destruct (is_str (field data "tool") "openCalendar"
            || is_str (field data "tool") "checkAvailability"); [discriminate|].
  destruct (is_str (field data "tool") "openEmail"); [discriminate|].
  destruct (is_str (field data "tool") "bookMeeting").
  - destruct (get (field data "args") "title") as [title|] eqn:Et; [|reflexivity].
    rewrite (get_object _ _ _ Et "time"), (get_object _ _ _ Et "attendees").
    cbn -[truthy field is_str get wire Server.attendeesOf].
    destruct (Server.attendeesOf _); [discriminate | reflexivity].
  - destruct (is_str (field data "tool") "sendEmail"); [|discriminate].
    destruct (get (field data "args") "to"); [discriminate | reflexivity].
Qed.

(** X4. One message is answered by at most one [tool_result], and only
    when it is an action that carries a truthy [id]: a request without an id
    is carried out but never answered. *)
Theorem at_most_one_tool_result dateNow shot message st :
  let out := (handle dateNow shot message st).2 in
  (length (List.filter (hasType "tool_result") out) <= 1)%nat
  /\ (forall m, In m out -> hasType "tool_result" m = true ->
        exists data, message = Some data
                     /\ is_str (field data "type") "action" = true
                     /\ truthy (field data "id") = true
                     /\ field m "id" = wire (field data "id")).
Proof.
  backend. cases.
  all: try match goal with
           | H : truthy ?x = true |- _ => destruct x eqn:?; try discriminate H
           end.
  all: split; [cbn; lia|].
  all: intros m Hin Hm; cbn in Hin.
  all: repeat match goal with
         | H : _ \/ _ |- _ => destruct H as [H|H]
         | H : False |- _ => destruct H
         end; subst m; try discriminate Hm.
  all: eexists; split; [reflexivity|]; split; [eapply action_type; eassumption|].
  all: match goal with H : field _ "id" = _ |- _ => rewrite H end.
  all: split; [assumption | reflexivity].
Qed.







(** X7. Sending an email over the bridge changes nothing on the backend:
    no email is stored, the page stays where it was and no [url_change] is
    sent; the backend logs the recipient and answers
    [{status: 'success', sentTo}]. *)
Theorem backend_email_changes_nothing dateNow shot requestId to subject body st :
  requestId <> "" ->
  handle dateNow shot
    (request requestId "sendEmail"
       (JObj [("to", JStr to); ("subject", JStr subject); ("message", JStr body)])) st
  = (st,
     [JObj [("type", JStr "log"); ("message", JStr ("Email sent to " +:+ to))];
      toolResult requestId (JObj [("status", JStr "success"); ("sentTo", JStr to)])]
     ++ screenshots shot).
Proof.
  intros Hid. unfold request, toolResult.
  pose proof (proj2 (String.eqb_neq requestId "") Hid) as Hr.
  backend. unfold truthy, field, get, is_str. cbn. rewrite Hr. cbn.
  destruct st, shot; reflexivity.
Qed.

End Replies.

Local Abbreviation handle := (Server.handle Scenarios.toStr "1736935200000" (Some "/9j/4AAQ")).

(** A screenshot message sent to the backend is not an action. *)
Lemma backend_ignores_other_messages_witness :
  handle (Some (JObj [("type", JStr "screenshot"); ("data", JStr "/9j/4AAQ")])) Server.initial
  = (Server.initial, []).
Proof. apply backend_ignores_other_messages. reflexivity. Defined.

(** A booking whose attendees are an array. *)
Lemma unanswerable_request_is_silent_witness :
  handle (Some (JObj [("type", JStr "action"); ("id", JStr "k3x9a");
                      ("tool", JStr "bookMeeting");
                      ("args", JObj [("title", JStr "Sync"); ("time", JStr "3 PM");
                                     ("attendees", JArr [JStr "Ann"])])]))
         Server.initial
  = (Server.initial, []).
Proof. apply unanswerable_request_is_silent; reflexivity. Defined.



Lemma backend_email_changes_nothing_witness :
  (handle (request "k3x9a" "sendEmail"
             (JObj [("to", JStr "Ann"); ("subject", JStr "Hi"); ("message", JStr "Hello")]))
          Server.initial).1
  = Server.initial.
Proof.
  rewrite (backend_email_changes_nothing Scenarios.toStr "1736935200000" (Some "/9j/4AAQ")
             "k3x9a" "Ann" "Hi" "Hello" Server.initial); [reflexivity | discriminate].
Defined.

End BackendReplies.

(* ===================================================================== *)
(** * Messages of the bridge, as the hook reads them *)
(* ===================================================================== *)

Module BridgeMessages.
Import JS JSNum Hook Protocol HookTactics.

Section Messages.
Variable ToString : value -> string.
Local Abbreviation ws_onmessage := (Hook.ws_onmessage ToString).

(** X8. A message of the bridge never creates or cancels a timer, never
    touches the promises and never sends anything.  It calls a resolve
    function only when it is a [tool_result] whose [id] is a non-empty
    string registered in [pendingRequests]: then it resolves that request
    with the result it carries and removes the entry.  A reply whose id is
    empty, missing, not a string or unknown resolves nothing. *)
Theorem bridge_message_resolves_registered payload st :
  let st' := ws_onmessage payload st in
  timers (loop st') = timers (loop st)
  /\ promises (loop st') = promises (loop st)
  /\ bridgeOut (bridge st') = bridgeOut (bridge st)
  /\ ((resolved (loop st') = resolved (loop st)
       /\ pendingRequests (bridge st') = pendingRequests (bridge st))
      \/ exists data rid p,
           payload = Some data
           /\ is_str (field data "type") "tool_result" = true
           /\ field data "id" = JStr rid /\ rid <> ""
           /\ pendingRequests (bridge st) !! rid = Some p
           /\ resolved (loop st') = resolved (loop st) ++ [(p, field data "result")]
           /\ pendingRequests (bridge st') = delete rid (pendingRequests (bridge st))).
Proof.
  unfold Hook.ws_onmessage.
  destruct payload as [data|]; [|repeat split; left; split; reflexivity].
  destruct (get data "type") as [ty|] eqn:Ety; [|repeat split; left; split; reflexivity].
  destruct (is_str ty "screenshot"); [repeat split; left; split; reflexivity|].
  destruct (is_str ty "url_change"); [repeat split; left; split; reflexivity|].
  destruct (is_str ty "log"); [repeat split; left; split; reflexivity|].
  destruct (is_str ty "tool_result") eqn:Etr; cbn [andb];
    [|repeat split; left; split; reflexivity].
  destruct (truthy (field data "id")) eqn:Eid; [|repeat split; left; split; reflexivity].
  unfold pending_get, pending_delete.
  destruct (field data "id") as [| | | |rid| |] eqn:Ef;
    try (repeat split; left; split; reflexivity).
  destruct (pendingRequests (bridge st) !! rid) as [p|] eqn:Ep;
    [|repeat split; left; split; reflexivity].
  repeat split. right. exists data, rid, p. repeat split; try assumption.
  - unfold field. now rewrite Ety.
  - intros ->. discriminate Eid.
Qed.
End Messages.
End BridgeMessages.

(* ===================================================================== *)
(** * The fallback simulation in the event loop *)
(* ===================================================================== *)

Module Simulation.
Import JS JSNum Hook Protocol HookTactics EventLoop.

Section Fallback.
Variable ToString : value -> string.
Variable mathRandomId : nat -> string.
Variable webSocketThrows : nat -> bool.

Local Abbreviation step := (Hook.step ToString mathRandomId webSocketThrows).
Local Abbreviation run := (Hook.run ToString mathRandomId webSocketThrows).
Local Abbreviation handler := (Hook.handler ToString mathRandomId webSocketThrows).
Local Abbreviation drain := (Hook.drain mathRandomId).
Local Abbreviation executeTool := (Hook.executeTool mathRandomId).
Local Abbreviation tool_loop := (Hook.tool_loop mathRandomId).
Local Abbreviation simulate := (Hook.simulate ToString).
Local Abbreviation mounted := (Hook.mounted webSocketThrows).

(** The simulation touches the React state only. *)
Lemma simulate_frame name args st :
  loop (simulate name args st).1 = loop st
  /\ bridge (simulate name args st).1 = bridge st
  /\ audio_ (simulate name args st).1 = audio_ st.
Proof.
  unfold Hook.simulate.
  repeat match goal with
         | |- context [if ?c then _ else _] => destruct c
         | |- context [match get ?a ?k with _ => _ end] => destruct (get a k)
         end; repeat split; reflexivity.
Qed.



(** Reading a property of missing arguments throws: the booking throws
    before it touches anything, the email after it has navigated. *)
Lemma simulate_throws name args st :
  In name ["bookMeeting"; "sendEmail"] -> In args [JUndef; JNull] ->
  (simulate name args st).2 = None
  /\ isLoading (browserState (ui (simulate name args st).1))
     = String.eqb name "bookMeeting" && isLoading (browserState (ui st)).
Proof.
  intros [<- | [<- | []]] [<- | [<- | []]]; split; reflexivity.
Qed.

(** A dispatch without an open socket: a promise and the 800 ms timer. *)
Lemma executeTool_simulated name args k st :
  openSocket st = None ->
  let st' := executeTool name args k st in
  bridge st' = bridge st
  /\ browserState (ui st') = set_isLoading true (browserState (ui st))
  /\ loop st'
     = set_nextTimer (S (nextTimer (loop st)))
         (set_timers (timers (loop st)
                      ++ [{| tid := nextTimer (loop st); due := now (loop st) + 800;
                             action := TSimulate name args (nextPromise (loop st)) |}])
            (set_nextPromise (S (nextPromise (loop st)))
               (set_promises (<[nextPromise (loop st) := k]> (promises (loop st))) (loop st)))).
Proof.
  intros Hs. unfold Hook.executeTool.
  change (openSocket (setBrowserState (set_isLoading true)
                        (addLog ("Executing: " +:+ name) tool st)))
    with (openSocket st).
  rewrite Hs. repeat split; reflexivity.
Qed.

Lemma find_fresh_timer id tm l :
  (forall tm', In tm' l -> tid tm' <> id) -> tid tm = id ->
  find (fun x => Nat.eqb (tid x) id) (l ++ [tm]) = Some tm.
Proof.
  intros Hl Hid. induction l as [|a l IH]; simpl.
  - rewrite Hid, Nat.eqb_refl. reflexivity.
  - destruct (Nat.eqb (tid a) id) eqn:E.
    + apply Nat.eqb_eq in E. exfalso. apply (Hl a); [now left | exact E].
    + apply IH. intros tm' Hin. apply Hl. now right.
Qed.

Lemma filter_fresh_timer id tm l :
  (forall tm', In tm' l -> tid tm' <> id) -> tid tm = id ->
  List.filter (fun x => negb (Nat.eqb (tid x) id)) (l ++ [tm]) = l.
Proof.
  intros Hl Hid. induction l as [|a l IH]; simpl.
  - rewrite Hid, Nat.eqb_refl. reflexivity.
  - destruct (Nat.eqb (tid a) id) eqn:E.
    + apply Nat.eqb_eq in E. exfalso. apply (Hl a); [now left | exact E].
    + simpl. f_equal. apply IH. intros tm' Hin. apply Hl. now right.
Qed.



(** X10. A simulated [bookMeeting] or [sendEmail] whose [args] is
    [undefined] or [null] throws when it reads a property of [args]: no
    response is ever handed to the session for the call, the calls after it
    in the same event are never dispatched, and no promise or timer is left
    behind.  The booking leaves the loading indicator on; the email has
    already navigated and cleared it. *)
Theorem simulated_throw_abandons_calls evs st st1 st2 t t' m fc rest :
  run evs mounted = Some st ->
  toolCall m = FunctionCalls (fc :: rest) ->
  openSocket st = None ->
  In (fc_name fc) ["bookMeeting"; "sendEmail"] ->
  In (fc_args fc) [JUndef; JNull] ->
  step (t, EvSessionMessage m) st = Some st1 ->
  step (t', EvTimer (nextTimer (loop st))) st1 = Some st2 ->
  sessionOut (loop st2) = sessionOut (loop st)
  /\ resolved (loop st2) = resolved (loop st)
  /\ bridge st2 = bridge st
  /\ promises (loop st2) = promises (loop st)
  /\ timers (loop st2) = timers (loop st)
  /\ isLoading (browserState (ui st2)) = String.eqb (fc_name fc) "bookMeeting".
Proof.
  intros Hrun Hm Hs Hname Hargs Hstep1 Hstep2.
  destruct (reachable_ok _ _ _ evs st Hrun) as (Hok & _ & Hq).
  pose proof (reachable_prom _ _ _ evs st Hrun) as Hprom.
  set (p := nextPromise (loop st)) in *. set (id := nextTimer (loop st)) in *.
  destruct (step_handler _ _ _ _ _ _ _ Hstep1) as (h1 & Eh1 & -> & _).
  unfold Hook.handler in Eh1. cbv beta iota in Eh1.
  destruct (session (loop (setNow t st))); [|discriminate].
  apply (f_equal (fun o => match o with Some x => x | None => h1 end)) in Eh1.
  cbv beta iota in Eh1. subst h1.
  unfold session_onmessage in *. rewrite Hm in *. unfold Hook.tool_loop in *.
  cbv beta iota in *.
  set (k := KToolLoop fc rest (audio m)) in *.
  set (h1 := executeTool (fc_name fc) (fc_args fc) k (setNow t st)) in *.
  destruct (executeTool_simulated (fc_name fc) (fc_args fc) k (setNow t st) Hs)
    as (B1 & B2 & B3).
  fold h1 in B1, B2, B3. unfold setNow in B1, B2, B3. proj_in B1. proj_in B2. proj_in B3.
  fold p id in B3.
  assert (Hq1 : quiet h1) by (unfold quiet; rewrite B3; exact Hq).
  rewrite (drain_quiet _ h1 Hq1) in *.
  set (s1 := on_loop (set_settling []) h1) in *.
  set (tm := {| tid := id; due := t + 800; action := TSimulate (fc_name fc) (fc_args fc) p |}).
  assert (Htimers : timers (loop (setNow t' s1)) = timers (loop st) ++ [tm])
    by (change (timers (loop (setNow t' s1))) with (timers (loop h1)); now rewrite B3).
  assert (Hfresh : forall tm', In tm' (timers (loop st)) -> tid tm' <> id).
  { intros tm' Hin. pose proof (t_tid st Hok tm' Hin). unfold id. lia. }
  destruct (step_handler _ _ _ _ _ _ _ Hstep2) as (h2 & Eh2 & -> & _).
  unfold Hook.handler in Eh2. cbv beta iota in Eh2.
  rewrite Htimers, (find_fresh_timer id tm _ Hfresh eq_refl) in Eh2.
  apply (f_equal (fun o => match o with Some x => x | None => h2 end)) in Eh2.
  cbv beta iota in Eh2. subst h2.
  cbn [action tm]. unfold Hook.fire, onSimulate.
  set (c := clearTimeout id (setNow t' s1)).
  destruct (simulate_throws (fc_name fc) (fc_args fc) c Hname Hargs) as (Hnone & Hload).
  destruct (simulate_frame (fc_name fc) (fc_args fc) c) as (F1 & F2 & F3).
  destruct (simulate (fc_name fc) (fc_args fc) c) as [c' r]. cbn [fst snd] in *.
  subst r.
  assert (Hq2 : quiet (unregister p c')).
  { unfold quiet, unregister. proj. rewrite F1. reflexivity. }
  rewrite (drain_quiet _ _ Hq2). unfold unregister. proj. rewrite F1, F2.
  change (bridge c) with (bridge h1). rewrite B1.
  change (sessionOut (loop c)) with (sessionOut (loop h1)).
  change (resolved (loop c)) with (resolved (loop h1)).
  change (promises (loop c)) with (promises (loop h1)).
  change (timers (loop c))
    with (List.filter (fun x => negb (Nat.eqb (tid x) id)) (timers (loop h1))).
  rewrite B3. proj. fold tm.
  rewrite (filter_fresh_timer id tm _ Hfresh eq_refl).
  rewrite delete_insert_id
    by (destruct (promises (loop st) !! p) as [k0|] eqn:Ep; [|reflexivity];
        pose proof (p_prom _ st Hprom p k0 Ep); unfold p in *; lia).
  repeat split; try reflexivity.
  rewrite Hload. change (browserState (ui c)) with (browserState (ui h1)). rewrite B2.
  proj. apply andb_true_r.
Qed.


End Fallback.
End Simulation.

(* ===================================================================== *)
(** * A call over the bridge and back *)
(* ===================================================================== *)

Module RoundTrip.
Import JS JSNum Hook Protocol HookTactics EventLoop BackendFacts BackendReplies.

Section Exchange.
Variable ToString : value -> string.
Variable mathRandomId : nat -> string.
Variable webSocketThrows : nat -> bool.

Local Abbreviation step := (Hook.step ToString mathRandomId webSocketThrows).
Local Abbreviation run := (Hook.run ToString mathRandomId webSocketThrows).
Local Abbreviation handler := (Hook.handler ToString mathRandomId webSocketThrows).
Local Abbreviation drain := (Hook.drain mathRandomId).
Local Abbreviation executeTool := (Hook.executeTool mathRandomId).
Local Abbreviation tool_loop := (Hook.tool_loop mathRandomId).
Local Abbreviation ws_onmessage := (Hook.ws_onmessage ToString).
Local Abbreviation mounted := (Hook.mounted webSocketThrows).










End Exchange.
End RoundTrip.

(* ===================================================================== *)
(** * Unmounting the hook *)
(* ===================================================================== *)

Module Unmount.
Import JS JSNum Hook Protocol HookTactics EventLoop Simulation.

Section Cleanup.
Variable ToString : value -> string.
Variable mathRandomId : nat -> string.
Variable webSocketThrows : nat -> bool.

Local Abbreviation step := (Hook.step ToString mathRandomId webSocketThrows).
Local Abbreviation run := (Hook.run ToString mathRandomId webSocketThrows).
Local Abbreviation handler := (Hook.handler ToString mathRandomId webSocketThrows).
Local Abbreviation drain := (Hook.drain mathRandomId).
Local Abbreviation mounted := (Hook.mounted webSocketThrows).

Lemma cleanup_keeps st :
  ui (cleanup st) = ui st
  /\ nextTimer (loop (cleanup st)) = nextTimer (loop st)
  /\ settling (loop (cleanup st)) = settling (loop st)
  /\ now (loop (cleanup st)) = now (loop st)
  /\ attempts (bridge (cleanup st)) = attempts (bridge st)
  /\ reconnectTimeout (bridge (cleanup st)) = reconnectTimeout (bridge st)
  /\ (forall tm, In tm (timers (loop (cleanup st))) -> In tm (timers (loop st))).
Proof.
  unfold cleanup.
  destruct (browserWs (bridge st)) as [s|]; [destruct (sockets (bridge st) !! s) as [[]|]|];
    unfold setReadyState; proj;
    (destruct (reconnectTimeout (bridge st)) as [id|] eqn:Er; [destruct (Nat.eqb id 0)|]);
    unfold clearTimeout; proj;
    repeat match goal with |- _ /\ _ => split end; rewrite ?Er; try reflexivity;
    intros tm Hin; try apply filter_In in Hin; tauto.
Qed.

(** The socket the hook holds is closing after the cleanup, not closed. *)
Lemma cleanup_socket s r st :
  browserWs (bridge st) = Some s -> sockets (bridge st) !! s = Some r -> r <> CLOSED ->
  exists r', sockets (bridge (cleanup st)) !! s = Some r' /\ r' <> CLOSED.
Proof.
  intros Hw Hs Hr. unfold cleanup. rewrite Hw, Hs.
  destruct r; try contradiction; unfold setReadyState; proj;
    (destruct (reconnectTimeout (bridge st)) as [id|]; [destruct (Nat.eqb id 0)|]);
    unfold clearTimeout; proj; rewrite ?lookup_insert_eq; eexists; split;
    try reflexivity; try eassumption; discriminate.
Qed.

Lemma cleanup_reconnectTimers st :
  reconnectTimers (cleanup st)
  = match reconnectTimeout (bridge st) with
    | Some id =>
        if Nat.eqb id 0 then reconnectTimers st
        else List.filter (fun tm => negb (Nat.eqb (tid tm) id)) (reconnectTimers st)
    | None => reconnectTimers st
    end.
Proof.
  unfold cleanup.
  destruct (browserWs (bridge st)) as [s|]; [destruct (sockets (bridge st) !! s) as [[]|]|];
    unfold setReadyState; proj;
    (destruct (reconnectTimeout (bridge st)) as [id|]; [destruct (Nat.eqb id 0)|]);
    rewrite ?reconnectTimers_clear; reflexivity.
Qed.

(** X13. The cleanup of the hook does not stop the reconnect loop while
    a socket is alive: it closes the socket, and the close event that
    follows sets a new reconnect timer, due 3 seconds later, which creates a
    new socket when it fires.  Only when the cleanup runs while no socket is
    alive (between a close and the retry) does it leave neither a socket nor
    a reconnect timer. *)
Theorem unmount_restarts_reconnect evs st :
  run evs mounted = Some st ->
  (forall s r t t' st1 st2,
      sockets (bridge st) !! s = Some r -> r <> CLOSED ->
      step (t, EvWsClose s) (cleanup st) = Some st1 ->
      (exists tm, reconnectTimers st1 = [tm]
                  /\ tid tm = nextTimer (loop st) /\ due tm = t + 3000)
      /\ (step (t', EvTimer (nextTimer (loop st))) st1 = Some st2 ->
            t' = t + 3000
            /\ attempts (bridge st2) = S (attempts (bridge st))
            /\ (webSocketThrows (attempts (bridge st)) = false ->
                  sockets (bridge st2) !! attempts (bridge st) = Some CONNECTING)))
  /\ (allClosed st -> allClosed (cleanup st) /\ reconnectTimers (cleanup st) = []).
Proof.
  intros Hrun. destruct (reachable_ok _ _ _ evs st Hrun) as (Hok & Hb & Hq).
  destruct (cleanup_keeps st) as (K1 & K2 & K3 & K4 & K5 & K6 & K7).
  split.
  - intros s r t t' st1 st2 Hs Hr Hstep1.
    destruct (alive_linked s r st Hb Hs Hr) as (Hw & _ & Hnone).
    destruct (cleanup_socket s r st Hw Hs Hr) as (r' & Hs' & Hr').
    assert (Hnone' : reconnectTimers (cleanup st) = []).
    { rewrite cleanup_reconnectTimers, Hnone.
      destruct (reconnectTimeout (bridge st)) as [id|]; [destruct (Nat.eqb id 0)|];
        reflexivity. }
    set (c := cleanup st) in *.
    destruct (step_handler _ _ _ _ _ _ _ Hstep1) as (h & Eh & -> & _).
    unfold Hook.handler in Eh. cbv beta iota in Eh.
    change (sockets (bridge (setNow t c))) with (sockets (bridge c)) in Eh. rewrite Hs' in Eh.
    assert (Eh' : h = ws_onclose (setReadyState s CLOSED (setNow t c)))
      by (destruct r'; try contradiction; now injection Eh as <-).
    clear Eh. subst h.
    assert (Hqc : quiet (ws_onclose (setReadyState s CLOSED (setNow t c)))).
    { unfold quiet, ws_onclose, setTimeout, setBrowserState, setReadyState, setNow. proj.
      rewrite K3. exact Hq. }
    rewrite (drain_quiet _ _ Hqc).
    set (tm := {| tid := nextTimer (loop st); due := t + 3000; action := TReconnect |}).
    set (st1 := on_loop (set_settling []) (ws_onclose (setReadyState s CLOSED (setNow t c)))).
    assert (Ht1 : timers (loop st1) = timers (loop c) ++ [tm]).
    { unfold st1, ws_onclose, setTimeout, setBrowserState, setReadyState, setNow. proj.
      rewrite K2. reflexivity. }
    split.
    + exists tm. split; [|split; reflexivity].
      unfold reconnectTimers in *. rewrite Ht1, List.filter_app, Hnone'. reflexivity.
    + intros Hstep2.
      assert (Hfresh : forall tm', In tm' (timers (loop c)) -> tid tm' <> nextTimer (loop st)).
      { intros tm' Hin. pose proof (t_tid st Hok tm' (K7 tm' Hin)). lia. }
      destruct (step_handler _ _ _ _ _ _ _ Hstep2) as (h2 & Eh2 & -> & Hdel).
      unfold Hook.handler in Eh2. cbv beta iota in Eh2.
      change (timers (loop (setNow t' st1))) with (timers (loop st1)) in Eh2.
      rewrite Ht1, (find_fresh_timer _ tm _ Hfresh eq_refl) in Eh2.
      injection Eh2 as <-.
      unfold deliverable in Hdel.
      rewrite Ht1, (find_fresh_timer _ tm _ Hfresh eq_refl) in Hdel.
      apply andb_true_iff in Hdel as [_ Hdel]. apply andb_true_iff in Hdel as [Hdue _].
      apply Z.eqb_eq in Hdue. cbn [due tm] in Hdue.
      split; [now symmetry|].
      cbn [action tm]. unfold Hook.fire.
      set (y := clearTimeout (nextTimer (loop st)) (setNow t' st1)).
      assert (Hay : attempts (bridge y) = attempts (bridge st)).
      { unfold y, st1, ws_onclose, setTimeout, setBrowserState, setReadyState, setNow,
          clearTimeout. proj. exact K5. }
      assert (Hqy : quiet (connectToBrowser webSocketThrows y)).
      { unfold quiet, connectToBrowser.
        destruct (webSocketThrows _); unfold setTimeout; proj; reflexivity. }
      rewrite (drain_quiet _ _ Hqy). unfold connectToBrowser. rewrite Hay.
      destruct (webSocketThrows (attempts (bridge st))) eqn:Et; unfold setTimeout; proj;
        rewrite ?Hay; (split; [reflexivity|]); intros E; try discriminate E.
      apply lookup_insert_eq.
  - intros Hall. split.
    + intros s. unfold cleanup.
      destruct (browserWs (bridge st)) as [s0|].
      * pose proof (Hall s0) as [H0 | H0]; rewrite H0;
          (destruct (reconnectTimeout (bridge st)) as [id|]; [destruct (Nat.eqb id 0)|]);
          apply Hall.
      * destruct (reconnectTimeout (bridge st)) as [id|]; [destruct (Nat.eqb id 0)|];
          apply Hall.
    + rewrite cleanup_reconnectTimers.
      destruct Hb as [_ [(s & r & Hs & Hr & _) | (_ & tm & Hone & Href)]].
      * destruct (Hall s) as [H0 | H0]; rewrite H0 in Hs; congruence.
      * rewrite Href, Hone.
        assert (Hin : In tm (timers (loop st))).
        { assert (H0 : In tm (reconnectTimers st)) by (rewrite Hone; now left).
          apply filter_In in H0. tauto. }
        pose proof (t_tid st Hok tm Hin) as Hid.
        destruct (Nat.eqb (tid tm) 0) eqn:E0; [apply Nat.eqb_eq in E0; lia|].
        simpl. now rewrite Nat.eqb_refl.
Qed.
End Cleanup.
End Unmount.

(* ===================================================================== *)
(** * The playback timeline in the event loop *)
(* ===================================================================== *)

Module Timeline.
Import JS JSNum Hook Playback HookTactics JSNumFacts Scheduler EventLoop.

Lemma SFleb_trans x y z : SFleb x y = true -> SFleb y z = true -> SFleb x z = true.
Proof.
  unfold SFleb, SFcompare.
  destruct x as [sx|sx| |sx mx ex], y as [sy|sy| |sy my ey], z as [sz|sz| |sz mz ez];
    try discriminate; try reflexivity;
    repeat match goal with s : bool |- _ => destruct s end;
    try discriminate; try reflexivity; intros H1 H2.
  all: destruct (Z.compare_spec ex ey), (Z.compare_spec ey ez), (Z.compare_spec ex ez);
    try discriminate; try reflexivity; try lia; subst.
  all: revert H1 H2;
    change (PosDef.Pos.compare_cont Eq mx my) with (Pos.compare mx my);
    change (PosDef.Pos.compare_cont Eq my mz) with (Pos.compare my mz);
    change (PosDef.Pos.compare_cont Eq mx mz) with (Pos.compare mx mz);
    try change (PosDef.Pos.compare_cont Eq mz mz) with (Pos.compare mz mz);
    try change (PosDef.Pos.compare_cont Eq my my) with (Pos.compare my my);
    destruct (Pos.compare_spec mx my), (Pos.compare_spec my mz), (Pos.compare_spec mx mz);
    simpl; try discriminate; try reflexivity; try lia; intros; subst; try lia.
Qed.

Lemma leb_trans a b c :
  (a <=? b)%float = true -> (b <=? c)%float = true -> (a <=? c)%float = true.
Proof. rewrite !leb_spec. apply SFleb_trans. Qed.

Section Invariant.
Variable ToString : value -> string.
Variable mathRandomId : nat -> string.
Variable webSocketThrows : nat -> bool.

Local Abbreviation step := (Hook.step ToString mathRandomId webSocketThrows).
Local Abbreviation run := (Hook.run ToString mathRandomId webSocketThrows).
Local Abbreviation handler := (Hook.handler ToString mathRandomId webSocketThrows).
Local Abbreviation drain := (Hook.drain mathRandomId).
Local Abbreviation settle := (Hook.settle mathRandomId).
Local Abbreviation executeTool := (Hook.executeTool mathRandomId).
Local Abbreviation tool_loop := (Hook.tool_loop mathRandomId).
Local Abbreviation mounted := (Hook.mounted webSocketThrows).

Record Ordered (st : State) : Prop := {
  o_clock : is_number (currentTime (audio_ st)) = true;
  o_chain : noOverlap 0 (started (audio_ st)) = true;
  o_cursor : (lastEnd 0 (started (audio_ st)) <=? cursor st)%float = true
}.

Lemma leb_number_r a b : (a <=? b)%float = true -> is_number b = true.
Proof.
  rewrite leb_spec. intros H. apply is_number_spec. intros E. rewrite E in H.
  unfold SFleb, SFcompare in H. destruct (Prim2SF a); discriminate.
Qed.

Lemma noOverlap_snoc l e : forall prev,
  noOverlap prev (l ++ [e]) = noOverlap prev l && (lastEnd prev l <=? e.1.2)%float.
Proof.
  induction l as [|x l IH]; intros prev; cbn [app noOverlap lastEnd fold_left].
  - now rewrite andb_true_r.
  - rewrite IH. unfold lastEnd. now rewrite andb_assoc.
Qed.

Lemma lastEnd_snoc l e prev : lastEnd prev (l ++ [e]) = endOf e.
Proof. unfold lastEnd. now rewrite fold_left_app. Qed.

Lemma Ordered_same st st' :
  currentTime (audio_ st') = currentTime (audio_ st) ->
  nextStartTime (audio_ st') = nextStartTime (audio_ st) ->
  started (audio_ st') = started (audio_ st) ->
  Ordered st -> Ordered st'.
Proof.
  intros E1 E2 E3 [H1 H2 H3]. split; unfold cursor in *; rewrite ?E1, ?E2, ?E3; assumption.
Qed.

Lemma Ordered_begin st : Ordered st -> Ordered (enqueue_begin st).
Proof.
  intros [H1 H2 H3]. unfold enqueue_begin, newPromise. split; unfold cursor in *; proj.
  - exact H1.
  - exact H2.
  - eapply leb_trans; [exact H3|]. apply Math_max_leb_l; [|exact H1].
    eapply leb_number_r, H3.
Qed.

Lemma Ordered_finish d st :
  is_finite d = true -> Ordered st -> Ordered (enqueue_finish d st).
Proof.
  intros Hd [H1 H2 H3]. unfold enqueue_finish. split; unfold cursor in *; proj.
  - exact H1.
  - rewrite noOverlap_snoc, H2. exact H3.
  - rewrite lastEnd_snoc. unfold endOf. cbn [fst snd]. apply leb_refl.
    apply add_number_finite; [|exact Hd]. eapply leb_number_r, H3.
Qed.

Ltac same_ord :=
  match goal with
  | H : Ordered ?s |- Ordered _ =>
      apply (Ordered_same s); [proj; reflexivity .. | exact H]
  end.

Lemma Ordered_executeTool name args k st :
  Ordered st -> Ordered (executeTool name args k st).
Proof.
  intros H. unfold Hook.executeTool.
  destruct (openSocket _); unfold newPromise, setTimeout, addLog, setBrowserState; same_ord.
Qed.

Lemma Ordered_audio_part a st : Ordered st -> Ordered (audio_part a st).
Proof.
  intros H. unfold audio_part. destruct a; try assumption.
  destruct (_ && _); [now apply Ordered_begin | assumption].
Qed.

Lemma Ordered_tool_loop calls a st : Ordered st -> Ordered (tool_loop calls a st).
Proof.
  intros H. unfold Hook.tool_loop.
  destruct calls; [now apply Ordered_audio_part | now apply Ordered_executeTool].
Qed.

Lemma Ordered_settle pv st : Ordered st -> Ordered (settle pv st).
Proof.
  intros H. unfold Hook.settle. destruct (promises (loop st) !! pv.1) as [k|]; [|assumption].
  destruct k; unfold run_kont; [|unfold unregister; same_ord ..].
  apply Ordered_tool_loop. unfold sendToSession, unregister. same_ord.
Qed.

Lemma Ordered_drain st : Ordered st -> Ordered (drain st).
Proof.
  intros H. unfold Hook.drain.
  assert (H0 : Ordered (on_loop (set_settling []) st)) by same_ord.
  revert H0. generalize (on_loop (set_settling []) st).
  induction (settling (loop st)) as [|pv l IH]; intros s Hs; simpl; [assumption|].
  apply IH, Ordered_settle, Hs.
Qed.

Lemma Ordered_handler t ev st st' :
  sane (t, ev) = true -> Ordered st -> handler ev st = Some st' -> Ordered st'.
Proof.
  intros Hsane H E. destruct ev; simpl in E.
  - destruct (find _ _) as [tm|]; [|discriminate]. injection E as <-.
    destruct (action tm); unfold Hook.fire.
    + unfold connectToBrowser. destruct (webSocketThrows _);
        unfold setTimeout, clearTimeout; same_ord.
    + unfold onTimeout. destruct (_ !! _); unfold resolve, setBrowserState, clearTimeout;
        same_ord.
    + unfold onSimulate, Hook.simulate.
      repeat match goal with
             | |- context [if ?c then _ else _] => destruct c
             | |- context [match get ?a ?k with _ => _ end] => destruct (get a k)
             end;
        unfold resolve, unregister, setBrowserState, addLog, clearTimeout; same_ord.
  - destruct (sockets _ !! s) as [[]|]; try discriminate. injection E as <-.
    unfold ws_onopen.
    repeat match goal with
           | |- context [match ?x with _ => _ end] => destruct x
           end;
      unfold clearTimeout, addLog, setBrowserState, setReadyState; same_ord.
  - destruct (sockets _ !! s) as [[]|]; try discriminate; injection E as <-;
      unfold ws_onclose, setTimeout, setBrowserState, setReadyState; same_ord.
  - destruct (sockets _ !! s) as [[]|]; try discriminate. injection E as <-.
    unfold Hook.ws_onmessage, pending_get, pending_delete.
    repeat match goal with
           | |- Ordered (match ?x with _ => _ end) => destruct x
           | |- Ordered (if ?c then _ else _) => destruct c
           end;
      try assumption; unfold resolve, setBrowserState, addLog; same_ord.
  - injection E as <-. unfold connect. destruct (String.eqb _ _);
      unfold newPromise, addLog; same_ord.
  - destruct (promises _ !! p) as [[]|]; try discriminate. injection E as <-.
    unfold onUserMedia. destruct o.
    + destruct H as [H1 H2 H3]. split; unfold cursor in *;
        unfold addLog, unregister; proj; [reflexivity | exact H2 | exact H3].
    + destruct (_ || _); unfold setConnected, addLog, unregister; same_ord.
  - destruct (session _); [|discriminate]. injection E as <-.
    unfold session_onopen. destruct (_ && _); unfold addLog, setConnected; same_ord.
  - destruct (session _); [|discriminate]. injection E as <-.
    unfold session_onmessage. destruct (toolCall m); [| assumption |].
    + now apply Ordered_audio_part.
    + now apply Ordered_tool_loop.
  - destruct (session _); [|discriminate]. injection E as <-.
    unfold session_onclose, addLog, setConnected. same_ord.
  - destruct (session _); [|discriminate]. injection E as <-.
    unfold session_onerror, addLog. same_ord.
  - destruct (processor _); [|discriminate]. injection E as <-.
    unfold onaudioprocess. destruct (session _); unfold sendToSession, setVolume; same_ord.
  - injection E as <-. destruct H as [H1 H2 H3]. split; unfold cursor in *; proj;
      [exact Hsane | exact H2 | exact H3].
  - destruct (promises _ !! p) as [[]|]; try discriminate. injection E as <-.
    unfold onDecoded. destruct duration as [d|].
    + apply Ordered_finish; [exact Hsane|]. unfold unregister. same_ord.
    + unfold unregister. same_ord.
  - injection E as <-. unfold onSourceEnded. same_ord.
  - injection E as <-. unfold disconnect, addLog, setConnected. same_ord.
Qed.

Lemma Ordered_step te st st' :
  sane te = true -> Ordered st -> step te st = Some st' -> Ordered st'.
Proof.
  destruct te as [t ev]. intros Hsane H (h & Eh & -> & _)%step_handler.
  apply Ordered_drain. eapply (Ordered_handler t); [exact Hsane | | exact Eh].
  unfold setNow. same_ord.
Qed.

Lemma Ordered_run evs :
  forall st st', forallb sane evs = true -> Ordered st -> run evs st = Some st' -> Ordered st'.
Proof.
  induction evs as [|te evs IH]; intros st st' Hs H E; simpl in E.
  - now injection E as <-.
  - cbn [forallb] in Hs. apply andb_true_iff in Hs as [Hte Hs].
    destruct (step te st) as [x|] eqn:Es; [|discriminate].
    eapply IH; [exact Hs | | exact E]. eapply Ordered_step; eassumption.
Qed.

Lemma Ordered_mounted : Ordered mounted.
Proof.
  assert (H : Ordered unmounted) by (split; reflexivity).
  unfold Hook.mounted, connectToBrowser. destruct (webSocketThrows _);
    unfold setTimeout; same_ord.
Qed.

Lemma noOverlap_nth l : forall prev i a b,
  noOverlap prev l = true ->
  nth_error l i = Some a -> nth_error l (S i) = Some b ->
  (endOf a <=? b.1.2)%float = true.
Proof.
  induction l as [|x l IH]; intros prev i a b H Ha Hb; [destruct i; discriminate|].
  cbn [noOverlap] in H. apply andb_true_iff in H as [_ H].
  destruct i as [|i].
  - injection Ha as <-. destruct l as [|y l]; [discriminate|]. injection Hb as <-.
    cbn [noOverlap] in H. now apply andb_true_iff in H as [H _].
  - eapply IH; [exact H | exact Ha | exact Hb].
Qed.

(** X14. Whatever the interleaving of audio messages, decodings, tool calls
    and reconnections, as long as clock readings are not NaN and decoded
    durations are finite: every source starts at or after the end of the
    source started before it, the cursor is at or after the end of the last
    source, and a decoding that completes starts its source at the cursor
    and moves the cursor by the duration (so sources start in the order
    their decodings complete). *)
Theorem sources_never_overlap evs st :
  forallb sane evs = true ->
  run evs mounted = Some st ->
  (forall i a b,
      nth_error (started (audio_ st)) i = Some a ->
      nth_error (started (audio_ st)) (S i) = Some b ->
      (a.1.2 + a.2 <=? b.1.2)%float = true)
  /\ (lastEnd 0 (started (audio_ st)) <=? cursor st)%float = true
  /\ (forall t p d st',
        step (t, EvDecoded p (Some d)) st = Some st' ->
        started (audio_ st')
        = started (audio_ st) ++ [(nextSource (audio_ st), cursor st, d)]
        /\ cursor st' = (cursor st + d)%float).
Proof.
  intros Hsane Hrun.
  destruct (Ordered_run evs _ st Hsane Ordered_mounted Hrun) as [H1 H2 H3].
  split; [|split].
  - intros i a b Ha Hb. exact (noOverlap_nth _ _ i a b H2 Ha Hb).
  - exact H3.
  - intros t p d st' (h & Eh & -> & _)%step_handler.
    unfold Hook.handler in Eh. cbv beta iota in Eh.
    destruct (promises _ !! p) as [[]|]; try discriminate. injection Eh as <-.
    destruct (reachable_ok _ _ _ evs st Hrun) as (_ & _ & Hq).
    rewrite drain_quiet by exact Hq. split; reflexivity.
Qed.

Lemma ltb_asym a b :
  (b <? a)%float = true ->
  (a <? b)%float = false /\ is_nan a = false /\ is_nan b = false.
Proof.
  rewrite !ltb_spec. unfold SFltb. intros H.
  destruct (SFcompare (Prim2SF b) (Prim2SF a)) as [[]|] eqn:E; try discriminate.
  rewrite (SFcompare_antisym _ _ _ E). split; [reflexivity|].
  assert (Ha : is_number a = true).
  { apply is_number_spec. intros Ea. rewrite Ea in E. unfold SFcompare in E.
    destruct (Prim2SF b); discriminate. }
  assert (Hb : is_number b = true).
  { apply is_number_spec. intros Eb. rewrite Eb in E. discriminate. }
  unfold is_number in *. split; now apply negb_true_iff.
Qed.

Lemma Math_max_behind a b : (b <? a)%float = true -> Math_max a b = a.
Proof.
  intros H. destruct (ltb_asym a b H) as (H1 & H2 & H3).
  unfold Math_max. now rewrite H2, H3, H1, H.
Qed.

Lemma idle_handler ev st h :
  schedules ev = false -> handler ev st = Some h ->
  settling (loop h) = settling (loop st) /\ cursor h = cursor st.
Proof.
  intros Hev E. unfold cursor. destruct ev; try discriminate Hev; simpl in E.
  - destruct (sockets _ !! s) as [[]|]; try discriminate. injection E as <-.
    unfold ws_onopen.
    repeat match goal with
           | |- context [match ?x with _ => _ end] => destruct x
           end; split; reflexivity.
  - destruct (sockets _ !! s) as [[]|]; try discriminate; injection E as <-;
      split; reflexivity.
  - injection E as <-. unfold connect. destruct (String.eqb _ _); split; reflexivity.
  - destruct (promises _ !! p) as [[]|]; try discriminate. injection E as <-.
    unfold onUserMedia. destruct o; [|destruct (_ || _)]; split; reflexivity.
  - destruct (session _); [|discriminate]. injection E as <-.
    unfold session_onopen. destruct (_ && _); split; reflexivity.
  - destruct (session _); [|discriminate]. injection E as <-. split; reflexivity.
  - destruct (session _); [|discriminate]. injection E as <-. split; reflexivity.
  - destruct (processor _); [|discriminate]. injection E as <-.
    unfold onaudioprocess. destruct (session _); split; reflexivity.
  - injection E as <-. split; reflexivity.
  - injection E as <-. split; reflexivity.
  - injection E as <-. split; reflexivity.
Qed.

Lemma idle_run evs :
  forallb (fun te => negb (schedules te.2)) evs = true ->
  forall st st', quiet st -> run evs st = Some st' -> cursor st' = cursor st.
Proof.
  induction evs as [|[t ev] evs IH]; intros Hevs st st' Hq E; simpl in E.
  - now injection E as <-.
  - cbn [forallb] in Hevs. apply andb_true_iff in Hevs as [Hev Hevs].
    apply negb_true_iff in Hev. cbn [snd] in Hev.
    destruct (step (t, ev) st) as [x|] eqn:Es; [|discriminate].
    pose proof (quiet_step _ _ _ _ _ _ Es) as Hqx.
    destruct (step_handler _ _ _ _ _ _ _ Es) as (h & Eh & -> & _).
    destruct (idle_handler ev (setNow t st) h Hev Eh) as (I1 & I2).
    rewrite drain_quiet in * by (unfold quiet; rewrite I1; exact Hq).
    rewrite (IH Hevs _ st' Hqx E). exact I2.
Qed.

(** X15. Nothing but the scheduler moves the playback cursor: stopping,
    connecting again, the microphone grant and the opening of the session
    leave it where the previous session left it, while the grant creates a
    fresh output context whose clock restarts at 0.  The first chunk of the
    next session therefore starts at the maximum of the old cursor and the
    new clock: at the old cursor when the clock is behind it. *)
Theorem cursor_outlives_session evs0 evs st0 st c d :
  run evs0 mounted = Some st0 ->
  forallb (fun te => negb (schedules te.2)) evs = true ->
  run evs st0 = Some st ->
  cursor st = cursor st0
  /\ started (audio_ (play (c, d) st))
     = started (audio_ st) ++ [(nextSource (audio_ st), Math_max (cursor st0) c, d)]
  /\ ((c <? cursor st0)%float = true -> Math_max (cursor st0) c = cursor st0)
  /\ (forall t p st',
        step (t, EvUserMedia p MediaGranted) st0 = Some st' ->
        currentTime (audio_ st') = 0%float /\ cursor st' = cursor st0).
Proof.
  intros Hrun0 Hevs Hrun.
  destruct (reachable_ok _ _ _ evs0 st0 Hrun0) as (_ & _ & Hq).
  pose proof (idle_run evs Hevs st0 st Hq Hrun) as Hc.
  split; [exact Hc|]. split; [|split].
  - destruct (play_spec c d st) as [-> _]. now rewrite Hc.
  - apply Math_max_behind.
  - intros t p st' (h & Eh & -> & _)%step_handler.
    unfold Hook.handler in Eh. cbv beta iota in Eh.
    destruct (promises _ !! p) as [[]|]; try discriminate. injection Eh as <-.
    rewrite drain_quiet by exact Hq. split; reflexivity.
Qed.

End Invariant.
End Timeline.

(* ===================================================================== *)
(** * The volume meter on a frame with NaN *)
(* ===================================================================== *)

Module MeterNaN.
Import JS JSNum Hook HookTactics JSNumFacts VolumeMeter.

Lemma is_nan_spec x : is_nan x = true <-> Prim2SF x = S754_nan.
Proof.
  pose proof (is_number_spec x) as H. unfold is_number in H.
  destruct (is_nan x); simpl in H; split; intros E; try reflexivity; try discriminate.
  - destruct (Prim2SF x) eqn:Ex; try reflexivity; exfalso;
      assert (false = true) by (apply H; discriminate); discriminate.
  - exfalso. apply (proj1 H); [reflexivity | exact E].
Qed.

Lemma nan_add_l a b : is_nan a = true -> is_nan (a + b) = true.
Proof.
  rewrite !is_nan_spec, FloatAxioms.add_spec. intros ->. reflexivity.
Qed.

Lemma nan_add_r a b : is_nan b = true -> is_nan (a + b) = true.
Proof.
  rewrite !is_nan_spec, FloatAxioms.add_spec. intros ->.
  destruct (Prim2SF a); reflexivity.
Qed.

Lemma nan_mul_l a b : is_nan a = true -> is_nan (a * b) = true.
Proof.
  rewrite !is_nan_spec, FloatAxioms.mul_spec. intros ->. reflexivity.
Qed.

Lemma nan_div_l a b : is_nan a = true -> is_nan (a / b) = true.
Proof.
  rewrite !is_nan_spec, FloatAxioms.div_spec. intros ->. reflexivity.
Qed.

Lemma nan_sqrt a : is_nan a = true -> is_nan (PrimFloat.sqrt a) = true.
Proof.
  rewrite !is_nan_spec, FloatAxioms.sqrt_spec. intros ->. reflexivity.
Qed.

Lemma fold_squares_nan frame :
  forall acc,
    is_nan acc = true \/ existsb is_nan frame = true ->
    is_nan (fold_left (fun a x => (a + x * x)%float) frame acc) = true.
Proof.
  induction frame as [|x frame IH]; intros acc H; cbn [fold_left existsb] in *.
  - destruct H as [H|H]; [exact H | discriminate].
  - apply IH. destruct H as [H|H].
    + left. now apply nan_add_l.
    + apply orb_true_iff in H as [H|H]; [left | now right].
      now apply nan_add_r, nan_mul_l.
Qed.

(** X16. A frame with a NaN sample: the sum of squares, the root mean
    square and the scaled value are NaN, [Math.min(1, NaN)] is NaN, and NaN
    is what [setVolume] receives. *)
Theorem nan_sample_blanks_volume frame :
  existsb is_nan frame = true ->
  is_nan (loudness frame) = true
  /\ forall st, is_nan (volume (ui (onaudioprocess frame st))) = true.
Proof.
  intros H.
  assert (E : is_nan (loudness frame) = true).
  { rewrite loudness_rms. unfold Meter.rms, Meter.sum_squares, Math_min.
    assert (Hn : is_nan (PrimFloat.sqrt
                           (fold_left (fun a x => (a + x * x)%float) frame 0%float
                            / JSNum.of_nat (length frame)) * 5)%float = true).
    { apply nan_mul_l, nan_sqrt, nan_div_l, fold_squares_nan. now right. }
    rewrite Hn, orb_true_r. reflexivity. }
  split; [exact E|]. intros st. unfold onaudioprocess.
  destruct (session _); exact E.
Qed.

(** One NaN among 4096 samples. *)
Lemma nan_sample_blanks_volume_witness :
  is_nan (loudness (repeat 0.25%float 100 ++ nan :: repeat 0.25%float 3995)) = true.
Proof.
  refine (proj1 (nan_sample_blanks_volume
                   (repeat 0.25%float 100 ++ nan :: repeat 0.25%float 3995) _)).
  vm_compute. reflexivity.
Defined.

End MeterNaN.

(* ===================================================================== *)
(** * Connecting and disconnecting the session *)
(* ===================================================================== *)

Module Session.
Import JS JSNum Hook Protocol HookTactics EventLoop.

Section Connection.
Variable ToString : value -> string.
Variable mathRandomId : nat -> string.
Variable webSocketThrows : nat -> bool.

Local Abbreviation step := (Hook.step ToString mathRandomId webSocketThrows).
Local Abbreviation run := (Hook.run ToString mathRandomId webSocketThrows).
Local Abbreviation handler := (Hook.handler ToString mathRandomId webSocketThrows).
Local Abbreviation drain := (Hook.drain mathRandomId).
Local Abbreviation simulate := (Hook.simulate ToString).
Local Abbreviation mounted := (Hook.mounted webSocketThrows).


Lemma prefix_spec sub s : String.prefix sub s = true <-> exists post, s = sub +:+ post.
Proof.
  revert s. induction sub as [|c sub IH]; intros s.
  - split; [intros _; now exists s | intros _; destruct s; reflexivity].
  - destruct s as [|c' s]; cbn;
      [split; [discriminate | intros (post & E); discriminate]|].
    destruct (Ascii.ascii_dec c c') as [<-|Hc].
    + rewrite IH. split; intros (post & E); exists post; [now rewrite E | now injection E].
    + split; [discriminate|]. intros (post & E). injection E as E _. congruence.
Qed.

Lemma includes_spec sub s :
  includes sub s = true <-> exists pre post, s = pre +:+ sub +:+ post.
Proof.
  induction s as [|c s IH]; cbn [includes].
  - rewrite orb_false_r, prefix_spec. split.
    + intros (post & E). now exists "", post.
    + intros (pre & post & E). destruct pre; [now exists post | discriminate].
  - rewrite orb_true_iff, prefix_spec, IH. split.
    + intros [(post & E) | (pre & post & E)].
      * now exists "", post.
      * exists (String c pre), post. cbn. now rewrite E.
    + intros (pre & post & E). destruct pre as [|c' pre].
      * left. now exists post.
      * right. injection E as _ E. now exists pre, post.
Qed.

(** X18. [connect] without an API key only logs 'Missing API Key'.  When
    the microphone request fails the hook is marked disconnected, no session
    is created, and the last log entry is an error: 'Microphone access
    denied...' exactly when the error is named NotAllowedError or its
    message contains 'Permission denied', and otherwise 'Failed to connect: '
    followed by the message ('Unknown error' when it is missing or empty). *)
Theorem failed_connect_opens_no_session evs st st' t :
  run evs mounted = Some st ->
  (step (t, EvConnect "") st = Some st' ->
     promises (loop st') = promises (loop st)
     /\ session (loop st') = session (loop st)
     /\ option_map message (last (logs (ui st'))) = Some "Missing API Key")
  /\ (forall p name msg,
        step (t, EvUserMedia p (MediaError name msg)) st = Some st' ->
        let denied :=
          name = "NotAllowedError"
          \/ exists s pre post, msg = Some s /\ s = pre +:+ "Permission denied" +:+ post in
        connected (ui st') = false
        /\ session (loop st') = session (loop st)
        /\ mediaStream (audio_ st') = mediaStream (audio_ st)
        /\ exists e, last (logs (ui st')) = Some e
             /\ type e = error
             /\ (denied ->
                 message e = "Microphone access denied. Please check permissions.")
             /\ (~ denied ->
                 message e
                 = "Failed to connect: "
                   +:+ match msg with
                       | Some s => if String.eqb s "" then "Unknown error" else s
                       | None => "Unknown error"
                       end)).
Proof.
  intros Hrun. destruct (reachable_ok _ _ _ evs st Hrun) as (_ & _ & Hq). split.
  - intros (h & Eh & -> & _)%step_handler. injection Eh as <-.
    rewrite drain_quiet by exact Hq. unfold connect, addLog. cbn [String.eqb]. proj.
    repeat split. now rewrite last_snoc.
  - intros p name msg (h & Eh & -> & _)%step_handler denied.
    unfold Hook.handler in Eh. cbv beta iota in Eh.
    destruct (promises _ !! p) as [[]|]; try discriminate. injection Eh as <-.
    assert (Hd : String.eqb name "NotAllowedError"
                 || match msg with
                    | Some s => includes "Permission denied" s
                    | None => false
                    end = true <-> denied).
    { unfold denied. rewrite orb_true_iff, String.eqb_eq. split.
      - intros [H|H]; [now left | right]. destruct msg as [s|]; [|discriminate].
        apply includes_spec in H as (pre & post & E). now exists s, pre, post.
      - intros [H|(s & pre & post & -> & E)]; [now left | right].
        apply includes_spec. now exists pre, post. }
    unfold onUserMedia.
    destruct (String.eqb name "NotAllowedError" || _) eqn:Ed;
      (rewrite drain_quiet by exact Hq); unfold setConnected, addLog, unregister; proj;
      (repeat match goal with |- _ /\ _ => split end; try reflexivity);
      eexists; (split; [apply last_snoc|]); (split; [reflexivity|]); cbn [message]; split;
      intros H; try reflexivity.
    + exfalso. apply H, Hd. reflexivity.
    + apply Hd in H. discriminate.
Qed.

End Connection.
End Session.

(* ===================================================================== *)
(** * Registered requests and their timeouts *)
(* ===================================================================== *)

Module Expiry.
Import JS JSNum Hook Protocol HookTactics EventLoop Simulation.

Section Pending.
Variable ToString : value -> string.
Variable mathRandomId : nat -> string.
Variable webSocketThrows : nat -> bool.

Local Abbreviation step := (Hook.step ToString mathRandomId webSocketThrows).
Local Abbreviation run := (Hook.run ToString mathRandomId webSocketThrows).
Local Abbreviation handler := (Hook.handler ToString mathRandomId webSocketThrows).
Local Abbreviation fire := (Hook.fire ToString webSocketThrows).
Local Abbreviation drain := (Hook.drain mathRandomId).
Local Abbreviation settle := (Hook.settle mathRandomId).
Local Abbreviation executeTool := (Hook.executeTool mathRandomId).
Local Abbreviation tool_loop := (Hook.tool_loop mathRandomId).
Local Abbreviation mounted := (Hook.mounted webSocketThrows).

(** A live safety timeout for the request id [rid]. *)
Definition guards (st : State) (rid : string) (tm : Timer) : Prop :=
  In tm (timers (loop st))
  /\ (exists p, action tm = TTimeout rid p)
  /\ due tm <= now (loop st) + 5000.

(** Every registered request has a live safety timeout. *)
Definition Covered (st : State) : Prop :=
  forall rid p, pendingRequests (bridge st) !! rid = Some p -> exists tm, guards st rid tm.

Lemma Covered_mono st st' :
  (forall rid tm, guards st rid tm -> guards st' rid tm) ->
  (forall rid p, pendingRequests (bridge st') !! rid = Some p ->
                 exists p', pendingRequests (bridge st) !! rid = Some p') ->
  Covered st -> Covered st'.
Proof.
  intros Hg Hp H rid p Hrid. destruct (Hp rid p Hrid) as (p' & Hrid').
  destruct (H rid p' Hrid') as (tm & Htm). exists tm. now apply Hg.
Qed.

Lemma Covered_same st st' :
  timers (loop st') = timers (loop st) ->
  now (loop st') = now (loop st) ->
  pendingRequests (bridge st') = pendingRequests (bridge st) ->
  Covered st -> Covered st'.
Proof.
  intros E1 E2 E3. apply Covered_mono.
  - intros rid tm. unfold guards. now rewrite E1, E2.
  - intros rid p. rewrite E3. eauto.
Qed.

Ltac same_cov :=
  match goal with
  | H : Covered ?s |- Covered _ =>
      apply (Covered_same s); [proj; reflexivity .. | exact H]
  end.

(** More timers, same requests. *)
Lemma Covered_setTimeout a d st : Covered st -> Covered (setTimeout a d st).2.
Proof.
  apply Covered_mono.
  - intros rid tm (H1 & H2 & H3). split; [|split]; try assumption.
    unfold setTimeout. proj. apply in_or_app. now left.
  - intros rid p. unfold setTimeout. proj. eauto.
Qed.

Lemma Covered_executeTool name args k st : Covered st -> Covered (executeTool name args k st).
Proof.
  intros H. unfold Hook.executeTool.
  set (st0 := setBrowserState (set_isLoading true) (addLog ("Executing: " +:+ name) tool st)).
  assert (H0 : Covered st0) by (unfold st0, setBrowserState, addLog; same_cov).
  destruct (openSocket st0) as [s|].
  - unfold newPromise, setTimeout. proj. intros rid p. proj.
    match goal with
    | |- context [<[?r := _]> _] => destruct (decide (rid = r)) as [->|Hne]
    end.
    + intros _. eexists. split; [|split].
      * proj. apply in_or_app. right. left. reflexivity.
      * eexists. reflexivity.
      * proj. lia.
    + rewrite lookup_insert_ne by congruence. intros Hrid.
      destruct (H rid p Hrid) as (tm & H1 & H2 & H3). exists tm. split; [|split].
      * proj. apply in_or_app. now left.
      * exact H2.
      * exact H3.
  - unfold newPromise. apply Covered_setTimeout. same_cov.
Qed.

Lemma Covered_audio_part a st : Covered st -> Covered (audio_part a st).
Proof.
  intros H. unfold audio_part. destruct a; try assumption.
  destruct (_ && _); [|assumption]. unfold enqueue_begin, newPromise. same_cov.
Qed.

Lemma Covered_tool_loop calls a st : Covered st -> Covered (tool_loop calls a st).
Proof.
  intros H. unfold Hook.tool_loop.
  destruct calls; [now apply Covered_audio_part | now apply Covered_executeTool].
Qed.

Lemma Covered_settle pv st : Covered st -> Covered (settle pv st).
Proof.
  intros H. unfold Hook.settle. destruct (promises (loop st) !! pv.1) as [k|]; [|assumption].
  destruct k; unfold run_kont; [|unfold unregister; same_cov ..].
  apply Covered_tool_loop. unfold sendToSession, unregister. same_cov.
Qed.

Lemma Covered_drain st : Covered st -> Covered (drain st).
Proof.
  intros H. unfold Hook.drain.
  assert (H0 : Covered (on_loop (set_settling []) st)) by same_cov.
  revert H0. generalize (on_loop (set_settling []) st).
  induction (settling (loop st)) as [|pv l IH]; intros s Hs; simpl; [assumption|].
  apply IH, Covered_settle, Hs.
Qed.

(** Clearing a timer that guards no registered request. *)
Lemma Covered_clearTimeout id st :
  (forall rid tm, guards st rid tm -> tid tm = id ->
                  pendingRequests (bridge st) !! rid = None) ->
  Covered st -> Covered (clearTimeout id st).
Proof.
  intros Hid H rid p Hrid. change (pendingRequests (bridge st) !! rid = Some p) in Hrid.
  destruct (H rid p Hrid) as (tm & Htm). exists tm.
  destruct Htm as (H1 & H2 & H3). split; [|split; assumption].
  unfold clearTimeout. proj. apply filter_In. split; [exact H1|].
  apply negb_true_iff, Nat.eqb_neq. intros E.
  rewrite (Hid rid tm (conj H1 (conj H2 H3)) E) in Hrid. discriminate.
Qed.

Lemma Covered_fire id tm st :
  TimersOK st -> In tm (timers (loop st)) -> tid tm = id ->
  Covered st -> Covered (fire (action tm) (clearTimeout id st)).
Proof.
  intros Hok Hin Hid H.
  assert (Hsame : forall rid tm', guards st rid tm' -> tid tm' = id -> tm' = tm).
  { intros rid tm' (H1 & _) E. apply (t_uniq st Hok); [assumption .. | congruence]. }
  destruct (action tm) as [|rid p|name args p] eqn:Ea; unfold Hook.fire.
  - assert (Hc : Covered (clearTimeout id st)).
    { apply Covered_clearTimeout; [|exact H]. intros rid tm' Hg E.
      rewrite (Hsame rid tm' Hg E) in Hg. destruct Hg as (_ & (p & Hp) & _). congruence. }
    unfold connectToBrowser. destruct (webSocketThrows _).
    + set (x := on_bridge _ _).
      assert (Hx : Covered x) by (unfold x; same_cov).
      pose proof (Covered_setTimeout TReconnect 3000 x Hx) as Hs.
      destruct (setTimeout TReconnect 3000 x) as [i y]. cbn [snd] in Hs. same_cov.
    + same_cov.
  - unfold onTimeout.
    change (pendingRequests (bridge (clearTimeout id st))) with (pendingRequests (bridge st)).
    destruct (pendingRequests (bridge st) !! rid) as [p0|] eqn:Ep.
    + intros rid' p'. unfold setBrowserState, resolve. proj. intros Hrid'.
      destruct (decide (rid' = rid)) as [->|Hne];
        [rewrite lookup_delete_eq in Hrid'; discriminate|].
      rewrite lookup_delete_ne in Hrid' by congruence.
      destruct (H rid' p' Hrid') as (tm' & H1 & (q & H2) & H3). exists tm'.
      split; [|split; [now exists q | exact H3]].
      unfold clearTimeout. proj. apply filter_In. split; [exact H1|].
      apply negb_true_iff, Nat.eqb_neq. intros E.
      assert (tm' = tm) by (apply (t_uniq st Hok); [assumption .. | congruence]).
      subst tm'. congruence.
    + apply Covered_clearTimeout; [|exact H]. intros rid' tm' Hg E.
      rewrite (Hsame rid' tm' Hg E) in Hg. destruct Hg as (_ & (q & Hq) & _).
      rewrite Ea in Hq. injection Hq as -> _. exact Ep.
  - assert (Hc : Covered (clearTimeout id st)).
    { apply Covered_clearTimeout; [|exact H]. intros rid tm' Hg E.
      rewrite (Hsame rid tm' Hg E) in Hg. destruct Hg as (_ & (q & Hq) & _). congruence. }
    unfold onSimulate.
    destruct (simulate_frame ToString name args (clearTimeout id st)) as (F1 & F2 & _).
    destruct (Hook.simulate ToString name args (clearTimeout id st)) as [c o].
    cbn [fst] in F1, F2.
    destruct o; unfold resolve, unregister;
      apply (Covered_same (clearTimeout id st)); proj; rewrite ?F1, ?F2; auto.
Qed.

Lemma Covered_handler ev st st' :
  TimersOK st -> Covered st -> handler ev st = Some st' -> Covered st'.
Proof.
  intros Hok H E. destruct ev; simpl in E.
  - destruct (find _ _) as [tm|] eqn:Ef; [|discriminate]. injection E as <-.
    apply find_timer in Ef as [Hin Hid]. now apply Covered_fire.
  - destruct (sockets _ !! s) as [[]|]; try discriminate. injection E as <-.
    unfold ws_onopen.
    set (x := addLog _ _ _).
    assert (Hx : Covered x) by (unfold x, addLog, setBrowserState, setReadyState; same_cov).
    change (reconnectTimeout (bridge x)) with (reconnectTimeout (bridge st)).
    destruct (reconnectTimeout (bridge st)) as [id|] eqn:Er; [|exact Hx].
    destruct (Nat.eqb id 0); [exact Hx|].
    apply Covered_clearTimeout; [|exact Hx].
    intros rid tm (H1 & (q & H2) & _) Eid. exfalso.
    destruct (t_ref st Hok id Er) as (_ & Href).
    rewrite (Href tm H1 Eid) in H2. discriminate.
  - destruct (sockets _ !! s) as [[]|]; try discriminate; injection E as <-;
      unfold ws_onclose;
      match goal with
      | |- Covered (let '(_, _) := setTimeout ?a ?d ?x in _) =>
          assert (Hx : Covered x) by (unfold setBrowserState, setReadyState; same_cov);
          pose proof (Covered_setTimeout a d x Hx) as Hs;
          destruct (setTimeout a d x) as [i y]; cbn [snd] in Hs; same_cov
      end.
  - destruct (sockets _ !! s) as [[]|]; try discriminate. injection E as <-.
    unfold Hook.ws_onmessage, pending_get, pending_delete.
    repeat match goal with
           | |- Covered (match ?x with _ => _ end) => destruct x eqn:?
           | |- Covered (if ?c then _ else _) => destruct c
           end;
      try assumption; try (unfold resolve, setBrowserState, addLog; same_cov).
    revert H. apply Covered_mono.
    + intros rid tm Hg. exact Hg.
    + intros rid p'. unfold resolve. proj. intros Hrid.
      apply lookup_delete_Some in Hrid as [_ Hrid]. eauto.
  - injection E as <-. unfold connect. destruct (String.eqb _ _);
      unfold newPromise, addLog; same_cov.
  - destruct (promises _ !! p) as [[]|]; try discriminate. injection E as <-.
    unfold onUserMedia. destruct o; [|destruct (_ || _)];
      unfold setConnected, addLog, unregister; same_cov.
  - destruct (session _); [|discriminate]. injection E as <-.
    unfold session_onopen. destruct (_ && _); unfold addLog, setConnected; same_cov.
  - destruct (session _); [|discriminate]. injection E as <-.
    unfold session_onmessage. destruct (toolCall m); [| assumption |].
    + now apply Covered_audio_part.
    + now apply Covered_tool_loop.
  - destruct (session _); [|discriminate]. injection E as <-.
    unfold session_onclose, addLog, setConnected. same_cov.
  - destruct (session _); [|discriminate]. injection E as <-.
    unfold session_onerror, addLog. same_cov.
  - destruct (processor _); [|discriminate]. injection E as <-.
    unfold onaudioprocess. destruct (session _); unfold sendToSession, setVolume; same_cov.
  - injection E as <-. same_cov.
  - destruct (promises _ !! p) as [[]|]; try discriminate. injection E as <-.
    unfold onDecoded. destruct duration; unfold enqueue_finish, unregister; same_cov.
  - injection E as <-. unfold onSourceEnded. same_cov.
  - injection E as <-. unfold disconnect, addLog, setConnected. same_cov.
Qed.

Lemma Covered_setNow t st : now (loop st) <= t -> Covered st -> Covered (setNow t st).
Proof.
  intros Ht. apply Covered_mono.
  - intros rid tm (H1 & H2 & H3). split; [exact H1|]. split; [exact H2|].
    unfold setNow. proj. lia.
  - intros rid p. eauto.
Qed.

Lemma Covered_step te st st' :
  TimersOK st -> Covered st -> step te st = Some st' -> Covered st'.
Proof.
  destruct te as [t ev]. intros Hok H Hstep.
  destruct (step_handler _ _ _ _ _ _ _ Hstep) as (h & Eh & -> & Hdel).
  assert (Ht : now (loop st) <= t).
  { unfold deliverable in Hdel. apply andb_true_iff in Hdel as [Hdel _]. cbn [fst] in Hdel.
    now apply Z.leb_le. }
  apply Covered_drain. eapply Covered_handler; [| |exact Eh].
  - apply TimersOK_setNow; [|exact Hok].
    intros tm Hin. eapply deliverable_due; eassumption.
  - now apply Covered_setNow.
Qed.

Lemma Covered_run evs :
  forall st st', TimersOK st -> Covered st -> run evs st = Some st' -> Covered st'.
Proof.
  induction evs as [|te evs IH]; intros st st' Hok H E; simpl in E.
  - now injection E as <-.
  - destruct (step te st) as [x|] eqn:Es; [|discriminate].
    eapply IH; [| |exact E].
    + eapply TimersOK_step; eassumption.
    + eapply Covered_step; eassumption.
Qed.

Lemma Covered_mounted : Covered mounted.
Proof.
  intros rid p. unfold Hook.mounted, connectToBrowser.
  destruct (webSocketThrows _); unfold setTimeout, unmounted; proj;
    rewrite lookup_empty; discriminate.
Qed.

(** X19. In every state the mounted hook can reach, every entry of
    [pendingRequests] has a live safety timeout for its id, due within 5
    seconds; when that timer fires, its handler leaves no entry under the
    id. *)
Theorem pending_requests_expire evs st rid p :
  run evs mounted = Some st ->
  pendingRequests (bridge st) !! rid = Some p ->
  exists tm q,
    In tm (timers (loop st))
    /\ action tm = TTimeout rid q
    /\ now (loop st) <= due tm <= now (loop st) + 5000
    /\ forall t st', step (t, EvTimer (tid tm)) st = Some st' ->
          exists h, handler (EvTimer (tid tm)) (setNow t st) = Some h
                    /\ st' = drain h
                    /\ pendingRequests (bridge h) !! rid = None.
Proof.
  intros Hrun Hrid.
  destruct (reachable_ok _ _ _ evs st Hrun) as (Hok & _ & Hq).
  pose proof (Covered_run evs _ st (TimersOK_mounted _) Covered_mounted Hrun) as Hc.
  destruct (Hc rid p Hrid) as (tm & H1 & (q & H2) & H3).
  exists tm, q. split; [exact H1|]. split; [exact H2|].
  split; [split; [apply (t_due st Hok tm H1) | exact H3]|].
  intros t st' (h & Eh & -> & _)%step_handler.
  exists h. split; [exact Eh|]. split; [reflexivity|].
  unfold Hook.handler in Eh. cbv beta iota in Eh.
  destruct (find _ _) as [tm0|] eqn:Ef; [|discriminate]. injection Eh as <-.
  apply find_timer in Ef as [Hin0 Hid0].
  assert (tm0 = tm) by (apply (t_uniq st Hok); [assumption .. | congruence]). subst tm0.
  rewrite H2. unfold Hook.fire, onTimeout.
  change (pendingRequests (bridge (clearTimeout (tid tm) (setNow t st))))
    with (pendingRequests (bridge st)).
  rewrite Hrid. unfold setBrowserState, resolve. proj. apply lookup_delete_eq.
Qed.

End Pending.
End Expiry.

(* ===================================================================== *)
(** * The connected indicator and the microphone button *)
(* ===================================================================== *)

Module Indicator.
Import JS JSNum Hook App Protocol HookTactics EventLoop.

Section Connected.
Variable ToString : value -> string.
Variable mathRandomId : nat -> string.
Variable webSocketThrows : nat -> bool.

Local Abbreviation step := (Hook.step ToString mathRandomId webSocketThrows).
Local Abbreviation run := (Hook.run ToString mathRandomId webSocketThrows).
Local Abbreviation handler := (Hook.handler ToString mathRandomId webSocketThrows).
Local Abbreviation drain := (Hook.drain mathRandomId).
Local Abbreviation settle := (Hook.settle mathRandomId).
Local Abbreviation executeTool := (Hook.executeTool mathRandomId).
Local Abbreviation tool_loop := (Hook.tool_loop mathRandomId).
Local Abbreviation mounted := (Hook.mounted webSocketThrows).

Ltac keep := let H := fresh in intros H; exact H.

Lemma connected_executeTool name args k st :
  connected (ui (executeTool name args k st)) = connected (ui st).
Proof. unfold Hook.executeTool. destruct (openSocket _); reflexivity. Qed.

Lemma connected_tool_loop calls a st :
  connected (ui (tool_loop calls a st)) = connected (ui st).
Proof.
  unfold Hook.tool_loop. destruct calls; [|apply connected_executeTool].
  unfold audio_part. destruct a; try reflexivity. destruct (_ && _); reflexivity.
Qed.

Lemma connected_settle pv st : connected (ui (settle pv st)) = connected (ui st).
Proof.
  unfold Hook.settle. destruct (promises (loop st) !! pv.1) as [k|]; [|reflexivity].
  destruct k; unfold run_kont; try reflexivity. now rewrite connected_tool_loop.
Qed.

Lemma connected_drain st : connected (ui (drain st)) = connected (ui st).
Proof.
  unfold Hook.drain.
  change (connected (ui st)) with (connected (ui (on_loop (set_settling []) st))).
  generalize (on_loop (set_settling []) st).
  induction (settling (loop st)) as [|pv l IH]; intros s; simpl; [reflexivity|].
  now rewrite IH, connected_settle.
Qed.

Lemma connected_handler ev st h :
  handler ev st = Some h -> connected (ui h) = true ->
  connected (ui st) = true \/ ev = EvSessionOpen.
Proof.
  intros E Hc. destruct ev; simpl in E; try (now right).
  - destruct (find _ _) as [tm|]; [|discriminate]. injection E as <-. left.
    revert Hc. destruct (action tm); unfold Hook.fire.
    + unfold connectToBrowser. destruct (webSocketThrows _); keep.
    + unfold onTimeout. destruct (_ !! _); keep.
    + unfold onSimulate, Hook.simulate.
      repeat match goal with
             | |- context [if ?c then _ else _] => destruct c
             | |- context [match get ?a ?k with _ => _ end] => destruct (get a k)
             end; keep.
  - destruct (sockets _ !! s) as [[]|]; try discriminate. injection E as <-. left.
    revert Hc. unfold ws_onopen.
    repeat match goal with
           | |- context [match ?x with _ => _ end] => destruct x
           end; keep.
  - destruct (sockets _ !! s) as [[]|]; try discriminate; injection E as <-; left; exact Hc.
  - destruct (sockets _ !! s) as [[]|]; try discriminate. injection E as <-. left.
    revert Hc. unfold Hook.ws_onmessage, pending_get, pending_delete.
    repeat match goal with
           | |- context [match ?x with _ => _ end] =>
               lazymatch x with
               | context [match _ with _ => _ end] => fail
               | _ => destruct x
               end
           | |- context [if ?c then _ else _] => destruct c
           end; keep.
  - injection E as <-. left. revert Hc. unfold connect. destruct (String.eqb _ _); keep.
  - destruct (promises _ !! p) as [[]|]; try discriminate. injection E as <-.
    revert Hc. unfold onUserMedia. destruct o; [|destruct (_ || _)];
      try discriminate. intros Hc. left. exact Hc.
  - destruct (session _); [|discriminate]. injection E as <-. left.
    revert Hc. unfold session_onmessage. destruct (toolCall m); try keep.
    + unfold audio_part. destruct (audio m); try keep. destruct (_ && _); keep.
    + now rewrite connected_tool_loop.
  - destruct (session _); [|discriminate]. injection E as <-. discriminate Hc.
  - destruct (session _); [|discriminate]. injection E as <-. left. exact Hc.
  - destruct (processor _); [|discriminate]. injection E as <-. left.
    revert Hc. unfold onaudioprocess. destruct (session _); keep.
  - injection E as <-. left. exact Hc.
  - destruct (promises _ !! p) as [[]|]; try discriminate. injection E as <-. left.
    revert Hc. unfold onDecoded. destruct duration; keep.
  - injection E as <-. left. exact Hc.
  - injection E as <-. discriminate Hc.
Qed.

(** X20. Only the opening of the session turns the [connected] flag on:
    no other event does, in any state the hook can reach.  So while a
    connection is being set up the flag is still off, and the microphone
    button ([handleToggle]) calls [connect] again: a second microphone
    request is started beside the first, which stays pending. *)
Theorem only_session_open_connects evs st :
  run evs mounted = Some st ->
  (forall t ev st',
      step (t, ev) st = Some st' -> connected (ui st') = true ->
      connected (ui st) = true \/ ev = EvSessionOpen)
  /\ (forall apiKey t st',
        connected (ui st) = false -> apiKey <> "" ->
        step (t, handleToggle apiKey st) st = Some st' ->
        promises (loop st') !! nextPromise (loop st) = Some KUserMedia
        /\ forall p, promises (loop st) !! p = Some KUserMedia ->
                     promises (loop st') !! p = Some KUserMedia).
Proof.
  intros Hrun. destruct (reachable_ok _ _ _ evs st Hrun) as (_ & _ & Hq).
  pose proof (reachable_prom _ _ _ evs st Hrun) as Hprom.
  split.
  - intros t ev st' (h & Eh & -> & _)%step_handler Hc.
    rewrite connected_drain in Hc. exact (connected_handler ev (setNow t st) h Eh Hc).
  - intros apiKey t st' Hc Hkey. unfold handleToggle. rewrite Hc.
    intros (h & Eh & -> & _)%step_handler. injection Eh as <-.
    unfold connect. rewrite (proj2 (String.eqb_neq apiKey "") Hkey).
    rewrite drain_quiet by exact Hq. unfold newPromise, addLog, setNow. proj.
    split; [apply lookup_insert_eq|].
    intros p Hp. rewrite lookup_insert_ne; [exact Hp|].
    pose proof (p_prom _ st Hprom p _ Hp). lia.
Qed.

End Connected.
End Indicator.

(* ===================================================================== *)
(** * The view and the dispatcher *)
(* ===================================================================== *)

Module Banner.
Import JS JSNum Hook View Protocol HookTactics EventLoop.

Section Flag.
Variable ToString : value -> string.
Variable mathRandomId : nat -> string.
Variable webSocketThrows : nat -> bool.

Local Abbreviation step := (Hook.step ToString mathRandomId webSocketThrows).
Local Abbreviation run := (Hook.run ToString mathRandomId webSocketThrows).
Local Abbreviation handler := (Hook.handler ToString mathRandomId webSocketThrows).
Local Abbreviation drain := (Hook.drain mathRandomId).
Local Abbreviation settle := (Hook.settle mathRandomId).
Local Abbreviation executeTool := (Hook.executeTool mathRandomId).
Local Abbreviation tool_loop := (Hook.tool_loop mathRandomId).
Local Abbreviation mounted := (Hook.mounted webSocketThrows).

(** The flag the view reads agrees with the test the dispatcher makes. *)
Definition Agree (st : State) : Prop :=
  isConnected (browserState (ui st))
  = match openSocket st with Some _ => true | None => false end.

Lemma Agree_same st st' :
  isConnected (browserState (ui st')) = isConnected (browserState (ui st)) ->
  sockets (bridge st') = sockets (bridge st) ->
  browserWs (bridge st') = browserWs (bridge st) ->
  Agree st -> Agree st'.
Proof. unfold Agree, openSocket. now intros -> -> ->. Qed.

Ltac same_agree :=
  match goal with
  | H : Agree ?s |- Agree _ =>
      apply (Agree_same s); [proj; reflexivity .. | exact H]
  end.

Lemma Agree_executeTool name args k st : Agree st -> Agree (executeTool name args k st).
Proof.
  intros H. unfold Hook.executeTool.
  destruct (openSocket _); unfold newPromise, setTimeout, addLog, setBrowserState; same_agree.
Qed.

Lemma Agree_tool_loop calls a st : Agree st -> Agree (tool_loop calls a st).
Proof.
  intros H. unfold Hook.tool_loop. destruct calls; [|now apply Agree_executeTool].
  unfold audio_part. destruct a; try assumption.
  destruct (_ && _); [|assumption]. unfold enqueue_begin, newPromise. same_agree.
Qed.

Lemma Agree_settle pv st : Agree st -> Agree (settle pv st).
Proof.
  intros H. unfold Hook.settle. destruct (promises (loop st) !! pv.1) as [k|]; [|assumption].
  destruct k; unfold run_kont; [|unfold unregister; same_agree ..].
  apply Agree_tool_loop. unfold sendToSession, unregister. same_agree.
Qed.

Lemma Agree_drain st : Agree st -> Agree (drain st).
Proof.
  intros H. unfold Hook.drain.
  assert (H0 : Agree (on_loop (set_settling []) st)) by same_agree.
  revert H0. generalize (on_loop (set_settling []) st).
  induction (settling (loop st)) as [|pv l IH]; intros s Hs; simpl; [assumption|].
  apply IH, Agree_settle, Hs.
Qed.

Lemma closed_not_open st : allClosed st -> openSocket st = None.
Proof.
  intros Hall. unfold openSocket. destruct (browserWs (bridge st)) as [s|]; [|reflexivity].
  destruct (Hall s) as [-> | ->]; reflexivity.
Qed.

Lemma Agree_handler ev st st' :
  TimersOK st -> BridgeOK st -> Agree st -> handler ev st = Some st' -> Agree st'.
Proof.
  intros Hok Hb H E. destruct ev; simpl in E.
  - destruct (find _ _) as [tm|] eqn:Ef; [|discriminate]. injection E as <-.
    apply find_timer in Ef as [Hin Hid].
    destruct (action tm) eqn:Ea; unfold Hook.fire.
    + unfold connectToBrowser. destruct (webSocketThrows _);
        [unfold setTimeout, clearTimeout; same_agree|].
      assert (Hall : allClosed st).
      { destruct Hb as [_ [(s & r & _ & _ & _ & _ & Hn) | (Hall & _)]]; [|exact Hall].
        assert (Hre : In tm (reconnectTimers st)).
        { apply filter_In. split; [exact Hin|]. unfold isReconnect. now rewrite Ea. }
        rewrite Hn in Hre. contradiction. }
      unfold Agree in *. rewrite (closed_not_open st Hall) in H.
      unfold clearTimeout, openSocket. proj. rewrite lookup_insert_eq. exact H.
    + unfold onTimeout. destruct (_ !! _); unfold resolve, setBrowserState, clearTimeout;
        same_agree.
    + unfold onSimulate, Hook.simulate.
      repeat match goal with
             | |- context [if ?c then _ else _] => destruct c
             | |- context [match get ?a ?k with _ => _ end] => destruct (get a k)
             end;
        unfold resolve, unregister, setBrowserState, addLog, clearTimeout; same_agree.
  - destruct (sockets _ !! s) as [[]|] eqn:Es; try discriminate. injection E as <-.
    destruct (alive_linked s CONNECTING st Hb Es) as (Hw & _); [discriminate|].
    assert (Hx : Agree (addLog "Connected to Browser Engine" success
                          (setBrowserState (set_isConnected true) (setReadyState s OPEN st)))).
    { unfold Agree, openSocket, addLog, setBrowserState, setReadyState. proj.
      now rewrite Hw, lookup_insert_eq. }
    unfold ws_onopen.
    repeat match goal with
           | |- context [match ?x with _ => _ end] => destruct x
           end; try exact Hx; unfold clearTimeout; same_agree.
  - assert (Hc : forall r, sockets (bridge st) !! s = Some r -> r <> CLOSED ->
                           Agree (ws_onclose (setReadyState s CLOSED st))).
    { intros r Es Hr. destruct (alive_linked s r st Hb Es Hr) as (Hw & _).
      unfold Agree, openSocket, ws_onclose, setTimeout, setBrowserState, setReadyState. proj.
      now rewrite Hw, lookup_insert_eq. }
    destruct (sockets _ !! s) as [[]|] eqn:Es; try discriminate; injection E as <-;
      eapply Hc; try reflexivity; discriminate.
  - destruct (sockets _ !! s) as [[]|]; try discriminate. injection E as <-.
    unfold Hook.ws_onmessage, pending_get, pending_delete.
    repeat match goal with
           | |- Agree (match ?x with _ => _ end) => destruct x
           | |- Agree (if ?c then _ else _) => destruct c
           end;
      try assumption; unfold resolve, setBrowserState, addLog; same_agree.
  - injection E as <-. unfold connect. destruct (String.eqb _ _);
      unfold newPromise, addLog; same_agree.
  - destruct (promises _ !! p) as [[]|]; try discriminate. injection E as <-.
    unfold onUserMedia. destruct o; [|destruct (_ || _)];
      unfold setConnected, addLog, unregister; same_agree.
  - destruct (session _); [|discriminate]. injection E as <-.
    unfold session_onopen. destruct (_ && _); unfold addLog, setConnected; same_agree.
  - destruct (session _); [|discriminate]. injection E as <-.
    unfold session_onmessage. destruct (toolCall m); [| assumption |].
    + apply (Agree_tool_loop [] (audio m) st H).
    + now apply Agree_tool_loop.
  - destruct (session _); [|discriminate]. injection E as <-.
    unfold session_onclose, addLog, setConnected. same_agree.
  - destruct (session _); [|discriminate]. injection E as <-.
    unfold session_onerror, addLog. same_agree.
  - destruct (processor _); [|discriminate]. injection E as <-.
    unfold onaudioprocess. destruct (session _); unfold sendToSession, setVolume; same_agree.
  - injection E as <-. same_agree.
  - destruct (promises _ !! p) as [[]|]; try discriminate. injection E as <-.
    unfold onDecoded. destruct duration; unfold enqueue_finish, unregister; same_agree.
  - injection E as <-. unfold onSourceEnded. same_agree.
  - injection E as <-. unfold disconnect, addLog, setConnected. same_agree.
Qed.

Lemma Agree_run evs :
  forall st st', TimersOK st -> BridgeOK st -> Agree st -> run evs st = Some st' -> Agree st'.
Proof.
  induction evs as [|[t ev] evs IH]; intros st st' Hok Hb H E; simpl in E.
  - now injection E as <-.
  - destruct (step (t, ev) st) as [x|] eqn:Es; [|discriminate].
    eapply IH; [| | |exact E].
    + eapply TimersOK_step; eassumption.
    + eapply BridgeOK_step; eassumption.
    + destruct (step_handler _ _ _ _ _ _ _ Es) as (h & Eh & -> & Hdel).
      apply Agree_drain. eapply Agree_handler; [| | |exact Eh].
      * apply TimersOK_setNow; [|exact Hok].
        intros tm Hin. eapply deliverable_due; eassumption.
      * now apply BridgeOK_setNow.
      * unfold setNow. same_agree.
Qed.

Lemma Agree_mounted : Agree mounted.
Proof.
  unfold Agree, Hook.mounted, connectToBrowser, openSocket.
  destruct (webSocketThrows _); unfold setTimeout, unmounted; proj;
    rewrite ?lookup_insert_eq; reflexivity.
Qed.

Lemma BrowserView_simulated b :
  BrowserView b = SimulatedPages (page b) <-> isConnected b = false.
Proof.
  unfold BrowserView. destruct (isConnected b), (truthy (screenshot b)); cbn;
    split; intros H; try reflexivity; discriminate.
Qed.

(** X21. In every state the mounted hook can reach (a socket being open
    from its open event to its close event), the flag the view reads agrees
    with the test the dispatcher makes: [BrowserView] shows the simulated
    pages (with the 'Simulated Mode' banner) exactly when no socket is open,
    that is exactly when a tool call dispatched now sends nothing over the
    bridge and is simulated. *)
Theorem banner_tells_simulation evs st :
  run evs mounted = Some st ->
  (BrowserView (browserState (ui st)) = SimulatedPages (page (browserState (ui st)))
   <-> openSocket st = None)
  /\ (forall name args k,
        bridgeOut (bridge (executeTool name args k st)) = bridgeOut (bridge st)
        <-> BrowserView (browserState (ui st))
            = SimulatedPages (page (browserState (ui st)))).
Proof.
  intros Hrun. destruct (reachable_ok _ _ _ evs st Hrun) as (Hok & Hb & _).
  pose proof (Agree_run evs _ st (TimersOK_mounted _) (BridgeOK_mounted _) Agree_mounted Hrun)
    as H.
  unfold Agree in H.
  assert (E : BrowserView (browserState (ui st))
              = SimulatedPages (page (browserState (ui st)))
              <-> openSocket st = None).
  { rewrite BrowserView_simulated, H. destruct (openSocket st); split; intros E;
      try reflexivity; discriminate. }
  split; [exact E|]. intros name args k. rewrite E.
  unfold Hook.executeTool.
  change (openSocket (setBrowserState (set_isLoading true)
                        (addLog ("Executing: " +:+ name) tool st)))
    with (openSocket st).
  destruct (openSocket st) as [s|]; unfold newPromise, setTimeout, setBrowserState, addLog;
    proj; split; intros H0; try reflexivity; try discriminate.
  apply (f_equal (@length _)) in H0. rewrite length_app in H0. cbn in H0. lia.
Qed.

End Flag.
End Banner.

(* ===================================================================== *)
(** * The page the backend renders *)
(* ===================================================================== *)

Module Rendering.
Import JS Hook Protocol.

Section Page.
Variable ToString : value -> string.
Local Abbreviation handle := (Server.handle ToString).

Ltac backend :=
  unfold Server.handle, Server.on_message, Server.finish, Server.resume, Server.reply,
    Server.bind, Server.lift, Server.ret, Server.throw, Server.send, Server.getEvents,
    Server.getEmails, Server.pushEvent, Server.setPage.

Ltac case_one :=
  match goal with
  | |- context [match ?x with _ => _ end] =>
      lazymatch x with
      | context [match _ with _ => _ end] => fail
      | _ => destruct x eqn:?
      end
  end.

(** Run a suspended handler as far as its [await]s settle.  [outcomes]
    tells, await by await, whether the awaited operation resolved ([false]:
    it rejected, and the handler's [catch] ends the handler) and whether the
    socket is open when the screenshot is about to be sent; the handler
    stays suspended where the outcomes end. *)
Fixpoint finishWith (outcomes : list (bool * bool)) (shot : option string)
    (t : option Server.Task) : Server.M unit :=
  match outcomes, t with
  | (ok, socketOpen) :: rest, Some task =>
      Server.bind (Server.resume ToString ok socketOpen shot task) (finishWith rest shot)
  | _, _ => Server.ret tt
  end.

(** One inbound message handled with the given outcomes of its [await]s,
    nothing else interleaved. *)
Definition handleWith (outcomes : list (bool * bool)) (dateNow : string)
    (shot : option string) (message : option value) (st : Server.State)
    : Server.State * list value :=
  snd (Server.bind (Server.on_message ToString dateNow message)
         (finishWith outcomes shot) (st, [])).






(** On a healthy page and an open socket this is [handle]. *)
Lemma handle_healthy dateNow shot message st :
  handle dateNow shot message st
  = handleWith [(true, true); (true, true); (true, true)] dateNow shot message st.
Proof. reflexivity. Qed.





End Page.
End Rendering.

(* ===================================================================== *)
(** * The lists of the simulated pages *)
(* ===================================================================== *)

Module SimulatedData.
Import JS JSNum Hook View Protocol HookTactics EventLoop.

Section Lists.
Variable ToString : value -> string.
Variable mathRandomId : nat -> string.
Variable webSocketThrows : nat -> bool.

Local Abbreviation step := (Hook.step ToString mathRandomId webSocketThrows).
Local Abbreviation run := (Hook.run ToString mathRandomId webSocketThrows).
Local Abbreviation handler := (Hook.handler ToString mathRandomId webSocketThrows).
Local Abbreviation drain := (Hook.drain mathRandomId).
Local Abbreviation settle := (Hook.settle mathRandomId).
Local Abbreviation executeTool := (Hook.executeTool mathRandomId).
Local Abbreviation tool_loop := (Hook.tool_loop mathRandomId).
Local Abbreviation simulate := (Hook.simulate ToString).
Local Abbreviation mounted := (Hook.mounted webSocketThrows).

(** The lists the simulated pages render. *)
Definition lists (st : State) : list value * list value :=
  (calendarEvents (browserState (ui st)), emails (browserState (ui st))).

Ltac same_lists := unfold lists; proj; reflexivity.

Lemma lists_executeTool name args k st : lists (executeTool name args k st) = lists st.
Proof. unfold Hook.executeTool. destruct (openSocket _); reflexivity. Qed.

Lemma lists_tool_loop calls a st : lists (tool_loop calls a st) = lists st.
Proof.
  unfold Hook.tool_loop. destruct calls; [|apply lists_executeTool].
  unfold audio_part. destruct a; try reflexivity. destruct (_ && _); reflexivity.
Qed.

Lemma lists_settle pv st : lists (settle pv st) = lists st.
Proof.
  unfold Hook.settle. destruct (promises (loop st) !! pv.1) as [k|]; [|reflexivity].
  destruct k; unfold run_kont; try reflexivity. now rewrite lists_tool_loop.
Qed.

Lemma lists_drain st : lists (drain st) = lists st.
Proof.
  unfold Hook.drain.
  change (lists st) with (lists (on_loop (set_settling []) st)).
  generalize (on_loop (set_settling []) st).
  induction (settling (loop st)) as [|pv l IH]; intros s; simpl; [reflexivity|].
  now rewrite IH, lists_settle.
Qed.

Lemma lists_simulate name args st : lists (simulate name args st).1 = lists st.
Proof.
  unfold Hook.simulate.
  repeat match goal with
         | |- context [if ?c then _ else _] => destruct c
         | |- context [match get ?a ?k with _ => _ end] => destruct (get a k)
         end; reflexivity.
Qed.

Lemma lists_handler ev st h : handler ev st = Some h -> lists h = lists st.
Proof.
  intros E. destruct ev; simpl in E.
  - destruct (find _ _) as [tm|]; [|discriminate]. injection E as <-.
    destruct (action tm); unfold Hook.fire.
    + unfold connectToBrowser. destruct (webSocketThrows _); reflexivity.
    + unfold onTimeout. destruct (_ !! _); reflexivity.
    + unfold onSimulate.
      pose proof (lists_simulate name args (clearTimeout id st)) as Hs.
      destruct (Hook.simulate ToString name args (clearTimeout id st)) as [c o].
      cbn [fst] in Hs. destruct o; exact Hs.
  - destruct (sockets _ !! s) as [[]|]; try discriminate. injection E as <-.
    unfold ws_onopen.
    repeat match goal with
           | |- context [match ?x with _ => _ end] => destruct x
           end; reflexivity.
  - destruct (sockets _ !! s) as [[]|]; try discriminate; injection E as <-; reflexivity.
  - destruct (sockets _ !! s) as [[]|]; try discriminate. injection E as <-.
    unfold Hook.ws_onmessage, pending_get, pending_delete.
    repeat match goal with
           | |- context [match ?x with _ => _ end] =>
               lazymatch x with
               | context [match _ with _ => _ end] => fail
               | _ => destruct x
               end
           | |- context [if ?c then _ else _] => destruct c
           end; reflexivity.
  - injection E as <-. unfold connect. destruct (String.eqb _ _); reflexivity.
  - destruct (promises _ !! p) as [[]|]; try discriminate. injection E as <-.
    unfold onUserMedia. destruct o; [|destruct (_ || _)]; reflexivity.
  - destruct (session _); [|discriminate]. injection E as <-.
    unfold session_onopen. destruct (_ && _); reflexivity.
  - destruct (session _); [|discriminate]. injection E as <-.
    unfold session_onmessage. destruct (toolCall m); try reflexivity.
    + apply (lists_tool_loop [] (audio m) st).
    + apply lists_tool_loop.
  - destruct (session _); [|discriminate]. injection E as <-. reflexivity.
  - destruct (session _); [|discriminate]. injection E as <-. reflexivity.
  - destruct (processor _); [|discriminate]. injection E as <-.
    unfold onaudioprocess. destruct (session _); reflexivity.
  - injection E as <-. reflexivity.
  - destruct (promises _ !! p) as [[]|]; try discriminate. injection E as <-.
    unfold onDecoded. destruct duration; reflexivity.
  - injection E as <-. reflexivity.
  - injection E as <-. reflexivity.
Qed.

Lemma lists_run evs : forall st st', run evs st = Some st' -> lists st' = lists st.
Proof.
  induction evs as [|[t ev] evs IH]; intros st st' E; simpl in E.
  - now injection E as <-.
  - destruct (step (t, ev) st) as [x|] eqn:Es; [|discriminate].
    rewrite (IH x st' E).
    destruct (step_handler _ _ _ _ _ _ _ Es) as (h & Eh & -> & _).
    rewrite lists_drain. exact (lists_handler ev (setNow t st) h Eh).
Qed.

(** X23. The hook never fills the lists the simulated pages render: in
    every state it can reach, [calendarEvents] and [emails] are the empty
    lists of the initial state, although the simulated [openCalendar] and
    [openEmail] answer the session with one event and one email. *)
Theorem simulated_pages_stay_empty evs st :
  run evs mounted = Some st ->
  calendarEvents (browserState (ui st)) = []
  /\ emails (browserState (ui st)) = []
  /\ (forall args st0,
        (simulate "openCalendar" args st0).2
        = Some (JObj [("events", JArr [simEvent "Team Sync (Simulated)"])])
        /\ (simulate "openEmail" args st0).2 = Some (JObj [("emails", JArr [simEmail])])).
Proof.
  intros Hrun. pose proof (lists_run evs _ st Hrun) as H.
  assert (H0 : lists mounted = ([], [])).
  { unfold Hook.mounted, connectToBrowser. destruct (webSocketThrows _); reflexivity. }
  rewrite H0 in H. unfold lists in H. injection H as H1 H2.
  split; [exact H1|]. split; [exact H2|]. intros args st0. split; reflexivity.
Qed.

End Lists.
End SimulatedData.

(* ===================================================================== *)
(** * The scheduler across the decoder's await *)
(* ===================================================================== *)

Module Arrival.
Import JS JSNum Hook Playback HookTactics JSNumFacts Scheduler EventLoop Timeline.

Section Order.
Variable ToString : value -> string.
Variable mathRandomId : nat -> string.
Variable webSocketThrows : nat -> bool.

Local Abbreviation step := (Hook.step ToString mathRandomId webSocketThrows).
Local Abbreviation run := (Hook.run ToString mathRandomId webSocketThrows).
Local Abbreviation handler := (Hook.handler ToString mathRandomId webSocketThrows).
Local Abbreviation drain := (Hook.drain mathRandomId).
Local Abbreviation mounted := (Hook.mounted webSocketThrows).










End Order.
End Arrival.

(* ===================================================================== *)
(** * The loop over the calls of one event *)
(* ===================================================================== *)

Module CallOrder.
Import JS JSNum Hook Protocol HookTactics EventLoop Simulation.

Section Order.
Variable ToString : value -> string.
Variable mathRandomId : nat -> string.
Variable webSocketThrows : nat -> bool.

Local Abbreviation step := (Hook.step ToString mathRandomId webSocketThrows).
Local Abbreviation run := (Hook.run ToString mathRandomId webSocketThrows).
Local Abbreviation handler := (Hook.handler ToString mathRandomId webSocketThrows).
Local Abbreviation drain := (Hook.drain mathRandomId).
Local Abbreviation settle := (Hook.settle mathRandomId).
Local Abbreviation executeTool := (Hook.executeTool mathRandomId).
Local Abbreviation tool_loop := (Hook.tool_loop mathRandomId).
Local Abbreviation simulate := (Hook.simulate ToString).
Local Abbreviation mounted := (Hook.mounted webSocketThrows).

(** What a handler that calls a resolve function leaves alone. *)
Record Resolving (p : nat) (v : value) (st h : State) : Prop := {
  r_settling : settling (loop h) = settling (loop st) ++ [(p, v)];
  r_promises : promises (loop h) = promises (loop st);
  r_nextPromise : nextPromise (loop h) = nextPromise (loop st);
  r_sessionOut : sessionOut (loop h) = sessionOut (loop st);
  r_dispatched : dispatched (loop h) = dispatched (loop st);
  r_randCalls : randCalls (loop h) = randCalls (loop st);
  r_nextTimer : nextTimer (loop h) = nextTimer (loop st);
  r_now : now (loop h) = now (loop st);
  r_bridgeOut : bridgeOut (bridge h) = bridgeOut (bridge st);
  r_sockets : sockets (bridge h) = sockets (bridge st);
  r_browserWs : browserWs (bridge h) = browserWs (bridge st)
}.

Lemma no_growth {A} (l : list A) x : l <> l ++ [x].
Proof.
  intros E. apply (f_equal (@length A)) in E. rewrite length_app in E. simpl in E. lia.
Qed.

Ltac unchanged :=
  match goal with
  | H : resolved (loop _) = resolved (loop ?s) ++ [?x] |- _ =>
      exfalso; apply (no_growth (resolved (loop s)) x); rewrite <- H; reflexivity
  end.

Ltac resolving :=
  match goal with
  | H : resolved (loop _) = resolved (loop ?s) ++ [_] |- _ =>
      proj_in H; apply app_inv_head in H; injection H as <- <-;
      split; reflexivity
  end.

(** A turn resolves a promise only through the reply of the bridge, the
    safety timeout or the end of the simulated delay. *)
Lemma handler_resolving ev st h p v :
  handler ev st = Some h ->
  resolved (loop h) = resolved (loop st) ++ [(p, v)] ->
  Resolving p v st h.
Proof.
  intros E R. destruct ev; simpl in E.
  - destruct (find _ _) as [tm|]; [|discriminate]. injection E as <-.
    revert R. destruct (action tm); unfold Hook.fire.
    + unfold connectToBrowser. destruct (webSocketThrows _); intros R; unchanged.
    + unfold onTimeout. destruct (_ !! _); intros R; [|unchanged].
      unfold resolve, setBrowserState, clearTimeout in *. resolving.
    + unfold onSimulate.
      destruct (simulate_frame ToString name args (clearTimeout id st)) as (F1 & F2 & _).
      destruct (simulate name args (clearTimeout id st)) as [s [r|]];
        cbn [fst] in F1, F2; intros R.
      * unfold resolve in *. proj_in R. rewrite F1 in R. proj_in R.
        apply app_inv_head in R. injection R as <- <-.
        split; proj; rewrite ?F1, ?F2; reflexivity.
      * exfalso. apply (no_growth (resolved (loop st)) (p, v)). rewrite <- R.
        unfold unregister. proj. now rewrite F1.
  - destruct (sockets _ !! s) as [[]|]; try discriminate. injection E as <-.
    revert R. unfold ws_onopen.
    destruct (reconnectTimeout _) as [i|]; [destruct (Nat.eqb i 0)|]; intros R; unchanged.
  - destruct (sockets _ !! s) as [[]|]; try discriminate; injection E as <-; unchanged.
  - destruct (sockets _ !! s) as [[]|]; try discriminate. injection E as <-.
    revert R. unfold ws_onmessage, pending_get, pending_delete.
    repeat match goal with
           | |- context [match ?x with _ => _ end] =>
               lazymatch x with
               | context [match _ with _ => _ end] => fail
               | _ => destruct x
               end
           end; intros R; try unchanged; unfold resolve in *; resolving.
  - injection E as <-. revert R. unfold connect. destruct (String.eqb _ _);
      intros R; unchanged.
  - destruct (promises _ !! p0) as [[]|]; try discriminate. injection E as <-.
    revert R. unfold onUserMedia. destruct o; [|destruct (_ || _)]; intros R; unchanged.
  - destruct (session _); [|discriminate]. injection E as <-.
    revert R. unfold session_onopen. destruct (_ && _); intros R; unchanged.
  - destruct (session _); [|discriminate]. injection E as <-.
    exfalso. apply (no_growth (resolved (loop st)) (p, v)). rewrite <- R.
    unfold session_onmessage. destruct (toolCall m); [| reflexivity |].
    + symmetry. apply (resolved_tool_loop mathRandomId [] (audio m) st).
    + symmetry. apply resolved_tool_loop.
  - destruct (session _); [|discriminate]. injection E as <-. unchanged.
  - destruct (session _); [|discriminate]. injection E as <-. unchanged.
  - destruct (processor _); [|discriminate]. injection E as <-.
    revert R. unfold onaudioprocess. destruct (session _); intros R; unchanged.
  - injection E as <-. unchanged.
  - destruct (promises _ !! p0) as [[]|]; try discriminate. injection E as <-.
    revert R. unfold onDecoded. destruct duration; intros R; unchanged.
  - injection E as <-. unchanged.
  - injection E as <-. unchanged.
Qed.

(** C5. The calls of one tool-call event run one at a time, in list
    order, whether the bridge is open or not.  Handling the event dispatches
    the first call only: one promise is created, awaited by the loop with
    the remaining calls, and nothing is handed to the session.  In the turn
    in which the promise of a call resolves (by the reply of the bridge, by
    the safety timeout or by the simulation), the response tagged with the
    id and the name of that very call, carrying the value the promise
    resolved with, is handed to the session, and the loop goes on with the
    calls that remain: the next one, if any, is dispatched in that same
    turn, awaited by the loop with the calls after it; after the last one
    no further call is dispatched. *)
Theorem calls_answered_in_list_order evs st :
  run evs mounted = Some st ->
  (forall t m fc rest st1,
      toolCall m = FunctionCalls (fc :: rest) ->
      step (t, EvSessionMessage m) st = Some st1 ->
      promises (loop st1)
      = <[nextPromise (loop st) := KToolLoop fc rest (audio m)]> (promises (loop st))
      /\ sessionOut (loop st1) = sessionOut (loop st)
      /\ resolved (loop st1) = resolved (loop st)
      /\ match openSocket st with
         | Some s =>
             bridgeOut (bridge st1)
             = bridgeOut (bridge st)
               ++ [(s, wire (actionRequest (mathRandomId (randCalls (loop st)))
                               (fc_name fc) (fc_args fc)))]
             /\ dispatched (loop st1)
                = dispatched (loop st)
                  ++ [(nextPromise (loop st), mathRandomId (randCalls (loop st)), t)]
         | None =>
             bridgeOut (bridge st1) = bridgeOut (bridge st)
             /\ timers (loop st1)
                = timers (loop st)
                  ++ [{| tid := nextTimer (loop st); due := t + 800;
                         action := TSimulate (fc_name fc) (fc_args fc)
                                     (nextPromise (loop st)) |}]
         end)
  /\ (forall te p fc rest a v st',
        promises (loop st) !! p = Some (KToolLoop fc rest a) ->
        step te st = Some st' ->
        resolved (loop st') = resolved (loop st) ++ [(p, v)] ->
        (exists x,
            st' = tool_loop rest a x
            /\ sessionOut (loop x)
               = sessionOut (loop st) ++ [ToolResponse (fc_id fc) (fc_name fc) v]
            /\ promises (loop x) = delete p (promises (loop st))
            /\ bridgeOut (bridge x) = bridgeOut (bridge st)
            /\ dispatched (loop x) = dispatched (loop st))
        /\ sessionOut (loop st')
           = sessionOut (loop st) ++ [ToolResponse (fc_id fc) (fc_name fc) v]
        /\ match rest with
           | next :: rest' =>
               promises (loop st')
               = <[nextPromise (loop st) := KToolLoop next rest' a]>
                   (delete p (promises (loop st)))
               /\ match openSocket st with
                  | Some s =>
                      bridgeOut (bridge st')
                      = bridgeOut (bridge st)
                        ++ [(s, wire (actionRequest (mathRandomId (randCalls (loop st)))
                                        (fc_name next) (fc_args next)))]
                      /\ dispatched (loop st')
                         = dispatched (loop st)
                           ++ [(nextPromise (loop st),
                                mathRandomId (randCalls (loop st)), te.1)]
                  | None =>
                      bridgeOut (bridge st') = bridgeOut (bridge st)
                      /\ last (timers (loop st'))
                         = Some {| tid := nextTimer (loop st); due := te.1 + 800;
                                   action := TSimulate (fc_name next) (fc_args next)
                                               (nextPromise (loop st)) |}
                  end
           | [] =>
               bridgeOut (bridge st') = bridgeOut (bridge st)
               /\ dispatched (loop st') = dispatched (loop st)
               /\ (forall q fc' rest' a',
                     promises (loop st') !! q = Some (KToolLoop fc' rest' a') ->
                     q <> p /\ promises (loop st) !! q = Some (KToolLoop fc' rest' a'))
           end).
Proof.
  intros Hrun. destruct (reachable_ok _ _ _ evs st Hrun) as (_ & _ & Hq).
  split.
  - intros t m fc rest st1 Hm (h & Eh & -> & _)%step_handler.
    unfold Hook.handler in Eh. cbv beta iota in Eh.
    destruct (session _); [|discriminate]. injection Eh as <-.
    unfold session_onmessage. rewrite Hm. unfold Hook.tool_loop.
    change (openSocket st) with (openSocket (setNow t st)).
    destruct (openSocket (setNow t st)) as [s|] eqn:Hs.
    + destruct (executeTool_bridge mathRandomId (fc_name fc) (fc_args fc)
                  (KToolLoop fc rest (audio m)) (setNow t st) s Hs)
        as (B1 & B2 & B3 & _ & B5 & _ & _ & B8 & _).
      rewrite drain_quiet by (unfold quiet; rewrite B8; exact Hq). proj.
      rewrite B1, B2, B3, B5. repeat split; try reflexivity.
      apply (resolved_tool_loop mathRandomId (fc :: rest) (audio m) (setNow t st)).
    + destruct (executeTool_simulated mathRandomId (fc_name fc) (fc_args fc)
                  (KToolLoop fc rest (audio m)) (setNow t st) Hs)
        as (B1 & _ & B3).
      rewrite drain_quiet by (unfold quiet; rewrite B3; exact Hq). proj.
      rewrite B1, B3. repeat split; reflexivity.
  - intros [t ev] p fc rest a v st' Hp (h & Eh & -> & _)%step_handler R.
    rewrite resolved_drain in R.
    destruct (handler_resolving ev (setNow t st) h p v Eh R)
      as [F1 F2 F3 F4 F5 F6 F7 F8 F9 F10 F11].
    set (x := sendToSession (ToolResponse (fc_id fc) (fc_name fc) v)
                (unregister p (on_loop (set_settling []) h))).
    assert (Ed : drain h = tool_loop rest a x).
    { unfold Hook.drain. rewrite F1.
      change (settling (loop (setNow t st))) with (settling (loop st)).
      rewrite Hq. cbn [app fold_left]. unfold Hook.settle. cbn [fst snd].
      change (promises (loop (on_loop (set_settling []) h))) with (promises (loop h)).
      rewrite F2. change (promises (loop (setNow t st))) with (promises (loop st)).
      rewrite Hp. reflexivity. }
    assert (X1 : sessionOut (loop x)
                 = sessionOut (loop st) ++ [ToolResponse (fc_id fc) (fc_name fc) v]).
    { change (sessionOut (loop x))
        with (sessionOut (loop h) ++ [ToolResponse (fc_id fc) (fc_name fc) v]).
      now rewrite F4. }
    assert (X2 : promises (loop x) = delete p (promises (loop st))).
    { change (promises (loop x)) with (delete p (promises (loop h))). now rewrite F2. }
    assert (X3 : bridgeOut (bridge x) = bridgeOut (bridge st)) by exact F9.
    assert (X4 : dispatched (loop x) = dispatched (loop st)) by exact F5.
    assert (X5 : openSocket x = openSocket st).
    { apply openSocket_same; [exact F10 | exact F11]. }
    assert (X6 : nextPromise (loop x) = nextPromise (loop st)) by exact F3.
    assert (X7 : randCalls (loop x) = randCalls (loop st)) by exact F6.
    assert (X8 : nextTimer (loop x) = nextTimer (loop st)) by exact F7.
    assert (X9 : now (loop x) = t) by exact F8.
    rewrite Ed. clearbody x. clear Ed F1 F2 F3 F4 F5 F6 F7 F8 F9 F10 F11 Eh R.
    split; [exists x; repeat split; assumption|].
    unfold Hook.tool_loop. destruct rest as [|next rest'].
    + destruct (audio_part_keeps a x) as (A1 & A2 & A3).
      rewrite A1, A2, A3, X1, X3, X4.
      split; [reflexivity|]. split; [reflexivity|]. split; [reflexivity|].
      intros q fc' rest' a' Hk.
      assert (Hx : promises (loop x) !! q = Some (KToolLoop fc' rest' a')).
      { revert Hk. unfold audio_part. destruct a; try (intros Hk; exact Hk).
        destruct (_ && _); [|intros Hk; exact Hk].
        unfold enqueue_begin, newPromise. proj. intros Hk.
        destruct (decide (q = nextPromise (loop x))) as [-> | Hne].
        - rewrite lookup_insert_eq in Hk. discriminate.
        - rewrite lookup_insert_ne in Hk by congruence. exact Hk. }
      rewrite X2 in Hx. apply lookup_delete_Some in Hx as [Hne Hx].
      split; [congruence | exact Hx].
    + cbn [fst]. destruct (openSocket st) as [s|] eqn:Hs.
      * destruct (executeTool_bridge mathRandomId (fc_name next) (fc_args next)
                    (KToolLoop next rest' a) x s X5)
          as (B1 & B2 & B3 & _ & B5 & _).
        rewrite B1, B2, B3, B5, X1, X2, X3, X4, X6, X7, X9. repeat split; reflexivity.
      * destruct (executeTool_simulated mathRandomId (fc_name next) (fc_args next)
                    (KToolLoop next rest' a) x X5)
          as (B1 & _ & B3).
        rewrite B1, B3. proj. rewrite X1, X2, X3, X6, X8, X9, last_snoc.
        repeat split; reflexivity.
Qed.

End Order.
End CallOrder.

(* ===================================================================== *)
(** * The theorems at work *)
(* ===================================================================== *)

Module Runs.
Import JS JSNum Hook Protocol Playback Scenarios EventLoop.

(** The booking is never answered: its safety timeout fires, and what the
    promise resolves with is not [{status: 'error', message: 'timed out'}]. *)
Lemma timeout_message_differs :
  option_map results (Scenarios.run (booking ++ [(5050, EvTimer 1)]) Scenarios.mounted)
  = Some [JObj [("status", JStr "error"); ("message", JStr "Browser timed out")]]
  /\ option_map results (Scenarios.run (booking ++ [(5050, EvTimer 1)]) Scenarios.mounted)
     <> Some [JObj [("status", JStr "error"); ("message", JStr "timed out")]].
Proof.
  assert (E : option_map results
                (Scenarios.run (booking ++ [(5050, EvTimer 1)]) Scenarios.mounted)
              = Some [JObj [("status", JStr "error"); ("message", JStr "Browser timed out")]])
    by (vm_compute; reflexivity).
  split; [exact E|]. rewrite E. discriminate.
Qed.

(** The unanswered booking: unresolved until its timeout fires at 5050 ms,
    resolved once by it. *)
Lemma resolves_exactly_once_witness :
  count 1 (after booking) = 0%nat
  /\ resolved (loop (after (booking ++ [(5050, EvTimer 1)]))) = [(1%nat, timedOut)].
Proof.
  destruct (resolves_exactly_once toStr ids opens booking (after booking) 1 "k3x9a" 50)
    as (H1 & _ & _ & H4 & _).
  - vm_compute. reflexivity.
  - vm_compute. reflexivity.
  - vm_compute. left. reflexivity.
  - split; [vm_compute; reflexivity|].
    destruct (H4 5050 1%nat (after (booking ++ [(5050, EvTimer 1)]))) as (_ & H & _).
    + vm_compute. reflexivity.
    + eexists. split; [vm_compute; left; reflexivity|]. split; vm_compute; reflexivity.
    + vm_compute. reflexivity.
    + rewrite H. vm_compute. reflexivity.
Defined.

(** Two calls in one event over the connected bridge: almost four seconds
    later the first is still unanswered and the second has not been sent. *)
Lemma second_call_waits :
  option_map toolsSent
    (Scenarios.run (twoCalls ++ [(3950, EvAudioClock 3.5%float)]) Scenarios.mounted)
  = Some [JStr "bookMeeting"]
  /\ option_map toolsSent
       (Scenarios.run (twoCalls ++ [(3950, EvAudioClock 3.5%float)]) Scenarios.mounted)
     <> Some [JStr "bookMeeting"; JStr "openCalendar"].
Proof.
  assert (E : option_map toolsSent
                (Scenarios.run (twoCalls ++ [(3950, EvAudioClock 3.5%float)])
                   Scenarios.mounted)
              = Some [JStr "bookMeeting"]) by (vm_compute; reflexivity).
  split; [exact E|]. rewrite E. discriminate.
Qed.

(** The same two calls: the reply to the first brings its response and the
    dispatch of the second. *)
Lemma calls_dispatched_in_turn_witness :
  toolsSent (after twoCalls) = [JStr "bookMeeting"]
  /\ sessionOut (loop (after (twoCalls
                              ++ [(60, EvWsMessage 0
                                         (Some (toolResultMessage "k3x9a" (JStr "done"))))])))
     = [ToolResponse (JStr "call-1") "bookMeeting" (JStr "done")].
Proof.
  destruct (calls_dispatched_in_turn toStr ids opens bridgeAndSessionUp
              (after bridgeAndSessionUp) (after twoCalls)
              (after (twoCalls
                      ++ [(60, EvWsMessage 0 (Some (toolResultMessage "k3x9a" (JStr "done"))))]))
              50 60 (toolMessage [bookCall; calendarCall]) bookCall [calendarCall]
              0 0 (JStr "done"))
    as (H1 & _ & _ & H4 & _).
  - vm_compute. reflexivity.
  - vm_compute. reflexivity.
  - vm_compute. reflexivity.
  - vm_compute. discriminate.
  - vm_compute. reflexivity.
  - vm_compute. reflexivity.
  - split; [vm_compute; reflexivity|]. rewrite H4. vm_compute. reflexivity.
Defined.

(** The bridge opens, then drops after five seconds: one reconnect timer,
    due three seconds later. *)
Lemma reconnect_after_close_witness :
  isConnected (browserState (ui (after [(10, EvWsOpen 0); (5000, EvWsClose 0)]))) = false
  /\ exists tm,
       reconnectTimers (after [(10, EvWsOpen 0); (5000, EvWsClose 0)]) = [tm]
       /\ due tm = 8000.
Proof.
  destruct (reconnect_after_close toStr ids opens [(10, EvWsOpen 0)]
              (after [(10, EvWsOpen 0)]) (after [(10, EvWsOpen 0); (5000, EvWsClose 0)])
              5000 0)
    as (H & _).
  - vm_compute. reflexivity.
  - destruct H as (H1 & tm & H2 & H3 & _).
    + vm_compute. reflexivity.
    + split; [exact H1|]. exists tm. split; [exact H2|]. rewrite H3. reflexivity.
Defined.

(** A busy session: the log still holds five entries at most, and one more
    entry pushes out the oldest of them only. *)
Lemma log_bounded_witness :
  (length (logs (ui (after (twoCalls ++ [(5050%Z, EvTimer 1)])))) <= 5)%nat
  /\ map message
       (logs (ui (addLog "Stopped" info (after (twoCalls ++ [(5050%Z, EvTimer 1)])))))
     = ["Connecting to Gemini Live..."; "Connected!";
        "Executing: bookMeeting"; "Executing: openCalendar"; "Stopped"].
Proof.
  destruct (ActivityLog.log_bounded toStr ids opens) as [Hadd Hrun]. split.
  - apply (Hrun (twoCalls ++ [(5050, EvTimer 1)])). vm_compute. reflexivity.
  - destruct (Hadd "Stopped" info (after (twoCalls ++ [(5050%Z, EvTimer 1)])))
      as (E & _).
    rewrite E. vm_compute. reflexivity.
Defined.

Example busy_log :
  map message (logs (ui (after (twoCalls ++ [(5050, EvTimer 1)]))))
  = ["Initializing audio..."; "Connecting to Gemini Live..."; "Connected!";
     "Executing: bookMeeting"; "Executing: openCalendar"].
Proof. vm_compute. reflexivity. Qed.



(** Three calls in one event while the bridge is down.  When the simulated
    delay of the second call runs out, its response is handed to the
    session and the third call is dispatched, awaited by the loop with no
    call left; in the end the three responses are in the order of the
    calls. *)
Lemma calls_answered_in_list_order_witness :
  sessionOut (loop (after (threeCalls ++ [(850, EvTimer 1); (1650, EvTimer 2)])))
  = sessionOut (loop (after (threeCalls ++ [(850, EvTimer 1)])))
    ++ [ToolResponse (JStr "call-2") "openCalendar"
          (JObj [("events", JArr [simEvent "Team Sync (Simulated)"])])]
  /\ promises (loop (after (threeCalls ++ [(850, EvTimer 1); (1650, EvTimer 2)]))) !! 3%nat
     = Some (KToolLoop notesCall [] NoAudio)
  /\ map (fun r => match r with ToolResponse id _ _ => id | RealtimeInput _ => JUndef end)
       (sessionOut (loop (after (threeCalls
                                 ++ [(850, EvTimer 1); (1650, EvTimer 2); (2450, EvTimer 3)]))))
     = [JStr "call-1"; JStr "call-2"; JStr "call-3"].
Proof.
  destruct (CallOrder.calls_answered_in_list_order toStr ids opens
              (threeCalls ++ [(850, EvTimer 1)])
              (after (threeCalls ++ [(850, EvTimer 1)])))
    as (_ & H).
  - vm_compute. reflexivity.
  - destruct (H (1650, EvTimer 2) 2%nat calendarCall [notesCall] NoAudio
                (JObj [("events", JArr [simEvent "Team Sync (Simulated)"])])
                (after (threeCalls ++ [(850, EvTimer 1); (1650, EvTimer 2)])))
      as (_ & H2 & H3 & _).
    + vm_compute. reflexivity.
    + vm_compute. reflexivity.
    + vm_compute. reflexivity.
    + split; [exact H2|]. split; [|vm_compute; reflexivity].
      rewrite H3. vm_compute. reflexivity.
Defined.

(** The third attempt fails while the socket is created: one reconnect
    timer again. *)
Example reconnect_after_throw :
  option_map (fun st => map due (reconnectTimers st))
    (Hook.run toStr ids thirdThrows
       [(100, EvWsClose 0); (3100, EvTimer 1); (3200, EvWsClose 1); (6200, EvTimer 2)]
       (Hook.mounted thirdThrows))
  = Some [9200].
Proof. vm_compute. reflexivity. Qed.

End Runs.

(* ===================================================================== *)
(** * More runs *)
(* ===================================================================== *)

Module Walkthroughs.
Import JS JSNum Hook Protocol Scenarios EventLoop Playback.


Lemma simulated_throw_abandons_calls_witness :
  sessionOut (loop (after (sessionUp
                           ++ [(50, EvSessionMessage (toolMessage [bareEmailCall; calendarCall]));
                               (850, EvTimer 1)])))
  = []
  /\ timers (loop (after (sessionUp
                          ++ [(50, EvSessionMessage (toolMessage [bareEmailCall; calendarCall]));
                              (850, EvTimer 1)])))
     = [].
Proof.
  destruct (Simulation.simulated_throw_abandons_calls toStr ids opens sessionUp
              (after sessionUp)
              (after (sessionUp
                      ++ [(50, EvSessionMessage (toolMessage [bareEmailCall; calendarCall]))]))
              (after (sessionUp
                      ++ [(50, EvSessionMessage (toolMessage [bareEmailCall; calendarCall]));
                          (850, EvTimer 1)]))
              50 850 (toolMessage [bareEmailCall; calendarCall]) bareEmailCall [calendarCall])
    as (H1 & _ & _ & _ & H5 & _).
  - vm_compute. reflexivity.
  - reflexivity.
  - vm_compute. reflexivity.
  - right. left. reflexivity.
  - left. reflexivity.
  - vm_compute. reflexivity.
  - vm_compute. reflexivity.
  - rewrite H1, H5. split; vm_compute; reflexivity.
Defined.


(** The bridge is open when the component unmounts: the close event of the
    socket brings back a reconnect timer. *)
Lemma unmount_restarts_reconnect_witness :
  exists st1 tm,
    step (100, EvWsClose 0) (cleanup (after [(10, EvWsOpen 0)])) = Some st1
    /\ reconnectTimers st1 = [tm] /\ due tm = 3100.
Proof.
  destruct (Unmount.unmount_restarts_reconnect toStr ids opens [(10, EvWsOpen 0)]
              (after [(10, EvWsOpen 0)])) as (H & _).
  - vm_compute. reflexivity.
  - eexists.
    match goal with
    | |- exists tm, ?a = Some ?x /\ _ =>
        destruct (H 0%nat OPEN 100 3100 x x) as ((tm & H1 & _ & H3) & _)
    end.
    + vm_compute. reflexivity.
    + discriminate.
    + vm_compute. reflexivity.
    + exists tm. split; [vm_compute; reflexivity|]. split; [exact H1 | exact H3].
Defined.

(** Two chunks whose decodings finish in the opposite order. *)
Lemma sources_never_overlap_witness :
  map (fun e => (e.1.2, e.2)) (started (audio_ (after crossedDecodes)))
  = [(0.5, 0.25); (0.75, 0.5)]%float
  /\ (0.5 + 0.25 <=? 0.75)%float = true.
Proof.
  split; [vm_compute; reflexivity|].
  destruct (Timeline.sources_never_overlap toStr ids opens crossedDecodes
              (after crossedDecodes)) as (H & _).
  - vm_compute. reflexivity.
  - vm_compute. reflexivity.
  - apply (H 0%nat (0%nat, 0.5%float, 0.25%float) (1%nat, 0.75%float, 0.5%float));
      vm_compute; reflexivity.
Defined.

(** After the two chunks the user stops and starts again: the cursor is
    where the first session left it. *)
Lemma cursor_outlives_session_witness :
  cursor (after (crossedDecodes ++ restart)) = 1.25%float.
Proof.
  destruct (Timeline.cursor_outlives_session toStr ids opens crossedDecodes restart
              (after crossedDecodes) (after (crossedDecodes ++ restart)) 0%float 0.5%float)
    as (H & _).
  - vm_compute. reflexivity.
  - reflexivity.
  - vm_compute. reflexivity.
  - rewrite H. vm_compute. reflexivity.
Defined.


(** The microphone is refused. *)
Lemma failed_connect_opens_no_session_witness :
  connected (ui (after [(20, EvConnect "key");
                        (30, EvUserMedia 0 (MediaError "NotAllowedError" None))])) = false.
Proof.
  destruct (Session.failed_connect_opens_no_session toStr ids opens [(20, EvConnect "key")]
              (after [(20, EvConnect "key")])
              (after [(20, EvConnect "key");
                      (30, EvUserMedia 0 (MediaError "NotAllowedError" None))]) 30)
    as (_ & H).
  - vm_compute. reflexivity.
  - destruct (H 0%nat "NotAllowedError" None) as (H1 & _).
    + vm_compute. reflexivity.
    + exact H1.
Defined.

(** The booking that is never answered has its timeout pending. *)
Lemma pending_requests_expire_witness :
  exists tm q,
    In tm (timers (loop (after booking)))
    /\ action tm = TTimeout "k3x9a" q
    /\ due tm <= 5050.
Proof.
  destruct (Expiry.pending_requests_expire toStr ids opens booking (after booking) "k3x9a" 1)
    as (tm & q & H1 & H2 & H3 & _).
  - vm_compute. reflexivity.
  - vm_compute. reflexivity.
  - exists tm, q. split; [exact H1|]. split; [exact H2|].
    change (now (loop (after booking))) with 50 in H3. lia.
Defined.

(** The button is pressed twice while the first connection is set up. *)
Lemma only_session_open_connects_witness :
  promises (loop (after [(20, EvConnect "key"); (25, EvConnect "key")])) !! 0%nat
  = Some KUserMedia
  /\ promises (loop (after [(20, EvConnect "key"); (25, EvConnect "key")])) !! 1%nat
     = Some KUserMedia.
Proof.
  destruct (Indicator.only_session_open_connects toStr ids opens [(20, EvConnect "key")]
              (after [(20, EvConnect "key")])) as (_ & H).
  - vm_compute. reflexivity.
  - destruct (H "key" 25 (after [(20, EvConnect "key"); (25, EvConnect "key")]))
      as (H1 & H2).
    + vm_compute. reflexivity.
    + discriminate.
    + vm_compute. reflexivity.
    + split; [apply H2; vm_compute; reflexivity | exact H1].
Defined.

(** The bridge opened and dropped: the simulated pages are shown. *)
Lemma banner_tells_simulation_witness :
  View.BrowserView (browserState (ui (after [(10, EvWsOpen 0); (5000, EvWsClose 0)])))
  = View.SimulatedPages "dashboard".
Proof.
  destruct (Banner.banner_tells_simulation toStr ids opens
              [(10, EvWsOpen 0); (5000, EvWsClose 0)]
              (after [(10, EvWsOpen 0); (5000, EvWsClose 0)])) as (H & _).
  - vm_compute. reflexivity.
  - apply H. vm_compute. reflexivity.
Defined.

(** The calendar was opened in the simulation: the page is the calendar,
    its list is empty. *)
Lemma simulated_pages_stay_empty_witness :
  calendarEvents
    (browserState (ui (after (sessionUp
                              ++ [(50, EvSessionMessage (toolMessage [calendarCall]));
                                  (850, EvTimer 1)]))))
  = []
  /\ page (browserState (ui (after (sessionUp
                                    ++ [(50, EvSessionMessage (toolMessage [calendarCall]));
                                        (850, EvTimer 1)]))))
     = "calendar".
Proof.
  destruct (SimulatedData.simulated_pages_stay_empty toStr ids opens
              (sessionUp ++ [(50, EvSessionMessage (toolMessage [calendarCall]));
                             (850, EvTimer 1)])
              (after (sessionUp ++ [(50, EvSessionMessage (toolMessage [calendarCall]));
                                    (850, EvTimer 1)]))) as (H & _).
  - vm_compute. reflexivity.
  - split; [exact H | vm_compute; reflexivity].
Defined.

End Walkthroughs.
